(* ===== verification/_CoqProject ===== *)
-Q . S2P
Prelude.v
JsArray.v
ResumeData.v
React.v
Editor.v
EditorView.v
ResumeSpec.v
Dom.v
Widgets.v
Preview.v
Json.v
Assistant.v
JsonRead.v
AssistantView.v
Progress.v
Transcript.v
SessionSpec.v
Scroll.v
Export.v
App.v
