(* ===== verification/Prelude.v ===== *)
(** * Resume builder: a verification development for [src/src/app.js]

    The program is a single-page React application in one file,
    [src/src/app.js].  [App] (lines 621-650) holds the resume in a state cell
    and renders a header and three components: [ResumeEditor] (lines
    102-302), a form whose handlers update the resume and whose "Export PDF"
    button saves the preview as a document; [ResumePreview] (lines 503-617),
    which renders the resume for printing; and [AIAssistant] (lines 304-501),
    a chat that sends questions, the resume as JSON, or an uploaded file to a
    completion service and appends the answers to a transcript.

    ** The files

    - [Prelude] (this file): the fragment of JavaScript the components rely
      on.  Strings, truthiness, the [||] operator, [String.prototype.trim],
      exceptions as values of a [result] type (a monad, with stdpp's
      notation), and the shared tactics, hint databases and lemmas.
    - [JsArray]: JavaScript arrays with holes: spread, indexed assignment
      (which grows the array), [filter] and [map] over indices, reads out of
      range.
    - [ResumeData]: the record of [App] (lines 622-634): six text fields and
      five arrays of entry objects, entry objects as association lists in
      insertion order, and the well-formedness [wf] of a record.
    - [React]: a [useState] cell as the rendered value and the queue of
      pending updaters, and the event loop of a component.  [Component] and
      [ComponentInv] are the interfaces between a component and the loop;
      reachability and invariance are proved once, against them.
    - [Editor]: the four handlers of [ResumeEditor] (lines 103-125) and the
      name of the exported file (line 149).  [editor] and [editor_inv] are
      the instances of the interfaces of [React].
    - [EditorView]: the JSX of [ResumeEditor] (lines 153-301) as the sequence
      of controls it renders, each an [Input], a [Textarea] or a [Button]
      (lines 12-69) with its props and its callback.
    - [ResumeSpec]: the record and the four operations of the specification
      (updateField, updateEntry, addEntry, removeEntry) with an equivalence
      coarser than equality, and the refinement of these operations by the
      handlers of [Editor].
    - [Dom]: element trees, with the queries a browser answers: the text of
      a tree, [getElementById], the listeners the user can trigger.
    - [Widgets]: [Input], [Textarea], [Button], [SectionHeader] and [Header]
      (lines 12-100) as the elements they render, in [Module Ui]; the
      element of a control of the form.
    - [Preview]: the element tree [ResumePreview] returns, or the
      [TypeError] it throws.
    - [Json]: [JSON.stringify(resumeData, null, 2)] (line 384), and the
      shapes of the data model.
    - [Assistant]: the four state cells of [AIAssistant], its handlers (lines
      320-425), the [disabled] attributes of its controls (lines 470-496)
      and the session as a transition system.
    - [JsonRead]: a reader of JSON texts, the inverse of the serialisation,
      and what it finds in the request for feedback.  The reader is a
      reference definition: the program never parses JSON, the service
      does.
    - [AssistantView]: the JSX of [AIAssistant] (lines 427-499): the
      transcript, the loading indicator and the controls.
    - [Progress]: the completions of the session (renders, settling
      requests, ending readings), their termination and the return to an
      idle session.
    - [Transcript]: the transcript over a session: when it is append-only.
    - [SessionSpec]: the state machine of the specification for the
      assistant (idle, waiting, idle over a transcript) as a labelled step
      relation, and the session of [Assistant] as its implementation.
    - [Scroll]: the scroll effect of [AIAssistant] (lines 311-318): the
      container [chatContainerRef] holds with its scroll position, the
      effect, and the session with the container, where the effect runs at
      the renders that follow a call of [setMessages].
    - [Export]: [handleExportPDF] (lines 127-151): the lookup of the
      preview, and the callback that places the picture on the page.
    - [App]: the cell of [App] with the session of the assistant and the
      exports under way, the page [App] renders (lines 636-649), and the
      steps of the whole application.

    ** How state and operations correspond to the code

    A JavaScript string whose code units are all below 256 is a [string],
    one [ascii] per code unit.  A value that may be [undefined] is an
    [option].  An array slot is a hole, [undefined] or an element
    ([JsArray.slot]).  A handler that calls [setResumeData (prev => ...)] is
    a function that returns the updater; a handler that reads a value of the
    render that created it ([resumeData], [messages], [userInput]) takes
    that value as an argument, so that a stale closure is a different
    argument and not a different function.  An expression that can throw
    returns a [result].  A component is the function from its props and
    state to the tree it renders ([Dom.node]); a listener of an element is
    the name of the function it calls.

    An asynchronous function is cut at its [await]: [callGeminiAPI_start] is
    what runs when [callGeminiAPI] is called and [callGeminiAPI_settle] what
    runs when the request settles, with the response as an [outcome].  A
    file being read is a [reading] that holds the state its [onloadend]
    handler closes over.  [Assistant.session_step] interleaves the controls,
    the renders, the settling of requests and the end of readings;
    [Assistant.perform] computes it.  [handleExportPDF] is cut at its
    promise: [Export.handleExportPDF] is the call and
    [Export.handleExportPDF_then] the callback, with the canvas as an input
    and the document as the record of what is asked of the PDF library.  The
    API key written in the source is a field of the environment
    ([literalKey]) and not a literal of the model.  An effect runs at the
    commit of a render when one of its dependencies has a new identity: the
    transcript gets one with every [setMessages], so [Scroll.scene] records
    whether a handler has called it since the last render.

    ** What the theorems show

    - [JsArray], [ResumeData]: the length and the content, index by index,
      of every array operation, in range and out of range; the reads after
      the writes of a record and of an entry; on arrays without holes the
      operations are [insert], [delete] and append.
    - [Editor]: what each handler does to the section it names, in range
      and out of range, and that it changes nothing else; [wf] is an
      invariant of the event loop; a handler that reads the record of a
      render loses the updates enqueued since.
    - [EditorView]: the events the form of a well-formed record can issue,
      all valid; a field shows what the record holds and what was typed;
      the form throws exactly on an [undefined] element; the ids of its
      elements are names of fields, and not unique.
    - [ResumeSpec]: a run of the editor is a run of the specification.
    - [Widgets]: the classes of a button, the ids and the links the
      components put in the document.
    - [Preview]: the sections a rendering shows and the gate of each, the
      text of the header and of the entries, the records on which the
      component throws, none of which the editor renders.
    - [Json]: a quoted string reads back as itself; the JSON of a resume
      has the shape of the data model exactly when the record is
      well-formed, and well-formed records with the same JSON are equal.
    - [Assistant]: what the settling of a request appends for each outcome;
      the key check; the round trips of a question, of a feedback request
      and of a file analysis from an idle session; the greeting as an
      invariant of every interleaving; at most one request in flight as long
      as no file is analysed, and two with a file; the transcript entries a
      stale reading drops.
    - [JsonRead]: the reader inverts the serialisation of every value, at
      every indentation and between any white space; the fuel only decides
      whether it answers, never what; values with the same text are equal;
      the request for feedback carries the record of the form and no other
      well-formed record.
    - [AssistantView]: the listeners the user can trigger on the rendered
      tree are those [Assistant.control_enabled] allows; the transcript
      shows every message, and the indicator exactly while loading.
    - [Progress]: the completions terminate, within a bound read off the
      world; every session comes to rest in an idle world.
    - [Transcript]: in a session that renders after every action and
      analyses no file, the transcript of a moment is a prefix of the
      transcript of every later moment.
    - [SessionSpec]: a session that renders after every action and analyses
      no file is a run of the specification, step by step; what the
      specification allows the component can do; every entry of the user is
      answered exactly once; with a file analysed, a session ends where no
      run of the specification does.
    - [Scroll]: the actions after which the effect is due are those whose
      handler calls [setMessages]; the scroll position stays in range; in
      every interleaving a render that changes what the container shows
      runs the effect, although the loading flag is not among its
      dependencies; the container is at its end after every step as long as
      the user does not scroll.
    - [Export]: the picture starts at the corner of the single page, spans
      its width and keeps the proportions of the canvas; it lies on the page
      exactly when the canvas is not proportionally taller than the page; a
      canvas without a width gives a height that is not a number.
    - [App]: every screen the application reaches renders, form, preview
      and page; the export finds the preview and the links of the header
      their targets; the file is named after the record of the press; "Get
      Feedback" sends the record of the last render.

    ** Bounds

    The functions that model the program use no fuel: each is structurally
    recursive, and the transition systems are relations with an executable
    step.  The termination of the completions is by the measure
    [Progress.pending].  The JSON reader of [JsonRead] alone recurses on a
    fuel: [JsonRead.size v] units, one per value, element and property, are
    enough for the text of [v] (71 for the record [App] starts with) without
    being the least that is; more fuel changes no result, and with too
    little the reader returns nothing, never another value.  The scroll
    position and the sizes of the container are integers ([Z]), clamped to
    the scrollable range as the browser does; the sizes are a parameter
    whose box height is assumed not to be negative.
    Array indices and lengths are natural numbers; the sides of a canvas are
    natural numbers ([N]) and the lengths on a page rationals ([Q]): the
    rounding of floating point numbers is not modelled, division by zero is.
    Code units of 256 and above are outside the model of strings: [trim] and
    the JSON quoting treat the code units below 256 as ECMAScript does.

    ** Not modelled

    The elements of the editor form that only group its controls, and the
    icons of its four personal inputs; what the markdown component renders
    from the text of a message; the layout of the browser, which appears as
    the sizes a render gives the container of the transcript; the scrolling
    of the user other than to a position; the rasterisation and the PDF
    encoding ([html2canvas], [jsPDF]), which appear as the canvas and as
    the record of the calls; the HTTP transport and the file reader, which appear as
    the outcome of a request and the result of a reading; the dialog of the
    file input, whose choice can arrive at any time.  Numbers, booleans and
    the escapes of code units of 256 and above are outside the JSON reader:
    the serialisation of a record produces none. *)

From Stdlib Require Import String Ascii.
From stdpp Require Import base tactics option list strings relations.

Declare Scope js_scope.
Delimit Scope js_scope with js.

(** ** Exceptions as values *)

(** What a [throw] carries.  A [TypeError] is raised by the read of a
    property of [undefined] and records the property; an [Error] is created
    by the program with a message. *)
Inductive exn : Type :=
| TypeError (reading : string)
| Error (message : string).

(** The outcome of code that may throw. *)
Inductive result (A : Type) : Type :=
| Ok (a : A)
| Throw (e : exn).

Arguments Ok {A} a.
Arguments Throw {A} e.

Definition rbind {A B : Type} (k : A → result B) (r : result A) : result B :=
  match r with
  | Ok a => k a
  | Throw e => Throw e
  end.

(** [result] is a monad in stdpp's sense: [x ← r; k] runs [k] on the value
    of [r] and propagates its exception. *)
#[global] Instance result_ret : MRet result := @Ok.
#[global] Instance result_bind : MBind result := @rbind.
#[global] Instance result_fmap : FMap result :=
  λ A B f, rbind (λ a, Ok (f a)).

(** [sequence] for [result]: the first exception wins, as in a loop that
    stops at the first throw. *)
Fixpoint rall {A : Type} (rs : list (result A)) : result (list A) :=
  match rs with
  | [] => Ok []
  | r :: rs => a ← r; l ← rall rs; Ok (a :: l)
  end.

Definition is_ok {A : Type} (r : result A) : bool :=
  match r with Ok _ => true | Throw _ => false end.

#[global] Instance exn_eq_dec : EqDecision exn.
Proof. solve_decision. Defined.

#[global] Instance result_eq_dec {A : Type} `{EqDecision A} : EqDecision (result A).
Proof. solve_decision. Defined.

(** ** Strings *)

(** [ToBoolean] on a string: only the empty string is falsy. *)
Definition truthy (s : string) : bool :=
  match s with
  | EmptyString => false
  | String _ _ => true
  end.

(** [s || d] on strings. *)
Definition js_or (s d : string) : string :=
  if truthy s then s else d.

(** [ToBoolean] on a property read: [undefined] is falsy. *)
Definition truthy_opt (o : option string) : bool :=
  match o with
  | Some s => truthy s
  | None => false
  end.

(** [o.k || d] where the property may be missing. *)
Definition js_or_opt (o : option string) (d : string) : string :=
  match o with
  | Some s => js_or s d
  | None => d
  end.

(** [WhiteSpace] and [LineTerminator] code units below 256: TAB, LF, VT, FF,
    CR, SP and NBSP. *)
Definition is_white_space (c : ascii) : bool :=
  match c with
  | "009"%char | "010"%char | "011"%char | "012"%char | "013"%char
  | " "%char | "160"%char => true
  | _ => false
  end.

Arguments is_white_space : simpl never.

Fixpoint trim_start (s : string) : string :=
  match s with
  | EmptyString => EmptyString
  | String c s' => if is_white_space c then trim_start s' else s
  end.

Fixpoint trim_end (s : string) : string :=
  match s with
  | EmptyString => EmptyString
  | String c s' =>
      match trim_end s' with
      | EmptyString => if is_white_space c then EmptyString else String c EmptyString
      | t => String c t
      end
  end.

(** [String.prototype.trim]. *)
Definition trim (s : string) : string := trim_end (trim_start s).

(** Every code unit of [s] is white space. *)
Fixpoint blank (s : string) : bool :=
  match s with
  | EmptyString => true
  | String c s' => is_white_space c && blank s'
  end.

(** [s.startsWith p]. *)
Definition starts_with (p s : string) : bool := String.prefix p s.

(** ** Automation *)

(** Rewriting database of the development: lengths and lookups of the
    array operations, getters over setters. *)
Create HintDb resume discriminated.
Create Rewrite HintDb resume.

(** Case analysis on the test of the first [if] or [match] of the goal. *)
Ltac case_test :=
  match goal with
  | |- context [if ?b then _ else _] => destruct b eqn:?
  | |- context [match ?x with _ => _ end] => destruct x eqn:?
  end.

(** Normal form of a goal about the handlers: rewrite with [resume], then
    simplify equalities. *)
Ltac resume_simpl :=
  repeat (progress (autorewrite with resume in *; simplify_eq /=)).

(** ** Lemmas on strings *)

(** stdpp keeps [+:+] folded under [simpl]; these are its equations. *)
Lemma string_app_cons (c : ascii) (s t : string) : String c s +:+ t = String c (s +:+ t).
Proof. done. Qed.

Lemma string_app_nil_l (s : string) : EmptyString +:+ s = s.
Proof. done. Qed.

Lemma string_app_assoc (s1 s2 s3 : string) : (s1 +:+ s2) +:+ s3 = s1 +:+ s2 +:+ s3.
Proof. induction s1 as [|c s1 IH]; [done|]. by rewrite !string_app_cons, IH. Qed.

Lemma string_app_nil_r (s : string) : s +:+ EmptyString = s.
Proof. induction s as [|c s IH]; [done|]. by rewrite string_app_cons, IH. Qed.

Lemma string_length_app (s1 s2 : string) :
  String.length (s1 +:+ s2) = String.length s1 + String.length s2.
Proof. induction s1 as [|c s1 IH]; [done|]. rewrite string_app_cons. simpl. by rewrite IH. Qed.

Lemma string_app_inv_head (p s t : string) : p +:+ s = p +:+ t → s = t.
Proof.
  induction p as [|c p IH]; [by rewrite !string_app_nil_l|].
  rewrite !string_app_cons. intros [= H]. by apply IH.
Qed.

Lemma string_app_eq_nil (s1 s2 : string) :
  s1 +:+ s2 = EmptyString ↔ s1 = EmptyString ∧ s2 = EmptyString.
Proof. destruct s1; [|rewrite string_app_cons]; naive_solver. Qed.

Lemma truthy_true_iff (s : string) : truthy s = true ↔ s ≠ EmptyString.
Proof. by destruct s. Qed.

Lemma truthy_false_iff (s : string) : truthy s = false ↔ s = EmptyString.
Proof. by destruct s. Qed.

Lemma js_or_truthy (s d : string) : truthy s = true → js_or s d = s.
Proof. by unfold js_or; intros ->. Qed.

Lemma js_or_empty (d : string) : js_or EmptyString d = d.
Proof. done. Qed.

Lemma js_or_nonempty (s d : string) : d ≠ EmptyString → js_or s d ≠ EmptyString.
Proof. by destruct s. Qed.

Lemma js_or_opt_nonempty (o : option string) (d : string) :
  d ≠ EmptyString → js_or_opt o d ≠ EmptyString.
Proof. destruct o; [apply js_or_nonempty | done]. Qed.

Lemma trim_start_blank (s : string) : blank s = true → trim_start s = EmptyString.
Proof.
  induction s as [|c s IH]; [done|]; simpl.
  intros [-> ?]%andb_true_iff; auto.
Qed.

Lemma trim_start_empty_blank (s : string) : trim_start s = EmptyString → blank s = true.
Proof.
  induction s as [|c s IH]; [done|]; simpl.
  destruct (is_white_space c); [auto | done].
Qed.

Lemma trim_end_empty_blank (s : string) : trim_end s = EmptyString ↔ blank s = true.
Proof.
  induction s as [|c s IH]; [done|]; simpl.
  destruct (trim_end s) eqn:E, (is_white_space c); simpl;
    split; intros Hs; simplify_eq; try done; try (by apply IH).
  by apply IH in Hs.
Qed.

Lemma trim_start_head (s : string) (c : ascii) (t : string) :
  trim_start s = String c t → is_white_space c = false.
Proof.
  induction s as [|c' s IH]; [done|]; simpl.
  destruct (is_white_space c') eqn:E; [auto | congruence].
Qed.

(** [!s.trim()] holds exactly of the strings made of white space. *)
Lemma trim_empty_iff (s : string) : trim s = EmptyString ↔ blank s = true.
Proof.
  unfold trim; split.
  - intros H%trim_end_empty_blank.
    destruct (trim_start s) as [|c t] eqn:E; [by apply trim_start_empty_blank|].
    apply trim_start_head in E. simpl in H. by rewrite E in H.
  - intros H. by rewrite (trim_start_blank _ H).
Qed.

Lemma truthy_trim (s : string) : truthy (trim s) = negb (blank s).
Proof.
  destruct (blank s) eqn:E.
  - apply trim_empty_iff in E. by rewrite E.
  - apply truthy_true_iff. rewrite trim_empty_iff. congruence.
Qed.

Lemma prefix_app (p s : string) : String.prefix p (p +:+ s) = true.
Proof.
  induction p as [|c p IH]; [by destruct s|].
  rewrite string_app_cons. simpl. by destruct (ascii_dec c c).
Qed.

(** ** Lemmas on lists *)

Lemma if_same {A : Type} (b : bool) (x : A) : (if b then x else x) = x.
Proof. by destruct b. Qed.

Lemma filter_all {A : Type} (P : A → Prop) `{∀ x, Decision (P x)} (l : list A) :
  Forall P l → filter P l = l.
Proof.
  induction 1 as [|x l Hx _ IH]; [done|]. by rewrite filter_cons_True, IH.
Qed.

Lemma filter_none {A : Type} (P : A → Prop) `{∀ x, Decision (P x)} (l : list A) :
  Forall (λ x, ¬ P x) l → filter P l = [].
Proof.
  induction 1 as [|x l Hx _ IH]; [done|]. by rewrite filter_cons_False, IH.
Qed.

(** ** Lemmas on results *)

(** Two lists have the same length and [f] holds pointwise. *)
Definition all2 {A B} (f : A → B → bool) : list A → list B → bool :=
  fix go l k :=
    match l, k with
    | [], [] => true
    | x :: l, y :: k => f x y && go l k
    | _, _ => false
    end.

Lemma all2_cons {A B} (f : A → B → bool) x l y k :
  all2 f (x :: l) (y :: k) = f x y && all2 f l k.
Proof. done. Qed.

Lemma all2_Forall2 {A B} (f : A → B → bool) l k :
  all2 f l k = true ↔ Forall2 (λ x y, f x y = true) l k.
Proof.
  revert k. induction l as [|x l IH]; intros [|y k]; simpl;
    [by split; [constructor|]|by split; [|intros H; inversion H]..|].
  rewrite andb_true_iff, IH. split; [intros []; by constructor|intros H; by inversion H].
Qed.

(** A list of empty lists, built by index, concatenates to nothing. *)
Lemma concat_imap_nil {A B} (f : nat → A → list B) (l : list A) :
  (∀ i x, f i x = []) → concat (imap f l) = [].
Proof.
  revert f. induction l as [|x l IH]; intros f Hf; simpl; [done|].
  rewrite Hf. apply IH. intros i y. apply Hf.
Qed.

(** An invariant of the steps holds along a run. *)
Lemma rtc_preserves {A} (R : relation A) (P : A → Prop) x y :
  (∀ a b, P a → R a b → P b) → rtc R x y → P x → P y.
Proof. intros HP. induction 1; eauto. Qed.

(** A run projects to a run of a component when every step does. *)
Lemma rtc_project {A B : Type} (R : relation A) (S : relation B) (f : A → B) :
  (∀ x y, R x y → rtc S (f x) (f y)) → ∀ x y, rtc R x y → rtc S (f x) (f y).
Proof. intros H x y Hxy. induction Hxy; [done|]. etrans; eauto. Qed.

Lemma elem_of_concat {A : Type} (x : A) (ls : list (list A)) :
  x ∈ concat ls ↔ ∃ l, x ∈ l ∧ l ∈ ls.
Proof.
  induction ls as [|l ls IH]; simpl.
  - split; [by intros ?%elem_of_nil|]. by intros (l & _ & ?%elem_of_nil).
  - rewrite elem_of_app, IH. setoid_rewrite elem_of_cons. split.
    + intros [?|(l' & ? & ?)]; eauto.
    + intros (l' & ? & [->|?]); eauto.
Qed.

Lemma is_ok_bind {A B : Type} (m : result A) (f : A → result B) :
  is_ok (m ≫= f) = true ↔ ∃ x, m = Ok x ∧ is_ok (f x) = true.
Proof. destruct m as [x|e]; simpl; [|naive_solver]. split; [eauto|]. by intros (? & [= <-] & ?). Qed.

Lemma is_ok_true {A : Type} (m : result A) : is_ok m = true ↔ ∃ x, m = Ok x.
Proof. destruct m; naive_solver. Qed.

Lemma rall_ok {A : Type} (rs : list (result A)) :
  Forall (λ r, is_ok r = true) rs → ∃ l, rall rs = Ok l ∧ length l = length rs.
Proof.
  induction 1 as [|[a|e] rs Hr _ (l & IH & Hl)]; simplify_eq /=.
  - by exists [].
  - exists (a :: l). rewrite IH. by rewrite <-Hl.
Qed.

Lemma rall_map_ok {A B : Type} (f : A → B) (l : list A) :
  rall (Ok ∘ f <$> l) = Ok (f <$> l).
Proof. induction l as [|a l IH]; [done|]. rewrite !fmap_cons. cbn [rall]. by rewrite IH. Qed.
