(* ===== verification/JsArray.v ===== *)
(** * JavaScript arrays, as the handlers of [src/src/app.js] use them

    An array is a list of slots.  A slot is a hole (an index below [length]
    with no property, as left behind by an assignment past the end),
    the value [undefined], or an element.  The operations are the ones the
    source applies to the sections of the resume: the spread [[...a]], the
    indexed assignment [a[i] = x], [a.filter((_, i) => p(i))],
    [a.map((x, i) => f(x, i))] with a callback that reads a property of [x],
    the read [a[i]] and [a.length].

    The lemmas give the length and the content of each result index by
    index, and relate the operations on arrays without holes to stdpp's list
    operations. *)

From Stdlib Require Import String.
From stdpp Require Import base tactics option list.
From S2P Require Import Prelude.

(** ** Slots and arrays *)

Inductive slot (A : Type) : Type :=
| Hole
| Undefined
| Item (a : A).

Arguments Hole {A}.
Arguments Undefined {A}.
Arguments Item {A} a.

Abbreviation array A := (list (slot A)).

#[global] Instance slot_eq_dec {A : Type} `{EqDecision A} : EqDecision (slot A).
Proof. solve_decision. Defined.

Definition is_item {A : Type} (s : slot A) : bool :=
  match s with Item _ => true | _ => false end.

Definition is_hole {A : Type} (s : slot A) : bool :=
  match s with Hole => true | _ => false end.

(** The value a read of the slot yields: a hole reads as [undefined]. *)
Definition slot_value {A : Type} (s : slot A) : option A :=
  match s with Item a => Some a | _ => None end.

(** ** Operations *)

Section ops.
Context {A : Type}.
Implicit Types (a : array A) (x : A) (i j k : nat) (p : nat → bool).

(** [a[i]]: the element, or [undefined] for a hole, an [undefined] slot and
    an index out of range. *)
Definition read a i : option A := a !! i ≫= slot_value.

(** [[...a]]: the iterator visits every index below [length], so a hole
    becomes an [undefined] slot. *)
Definition spread a : array A :=
  (λ s, match s with Hole => Undefined | s => s end) <$> a.

(** [a[i] = x]: in range the slot is replaced; past the end the array grows
    to length [i + 1] and the indices in between are holes. *)
Definition assign i x a : array A :=
  if decide (i < length a) then <[i := Item x]> a
  else a ++ replicate (i - length a) Hole ++ [Item x].

(** [a.filter((_, i) => p(i))] from index [k] on: the callback is not called
    on holes, and the result has none. *)
Fixpoint filter_from p k a : array A :=
  match a with
  | [] => []
  | Hole :: a' => filter_from p (S k) a'
  | s :: a' => if p k then s :: filter_from p (S k) a' else filter_from p (S k) a'
  end.

Definition filter_index p a : array A := filter_from p 0 a.

(** The array has neither holes nor [undefined] slots. *)
Definition dense a : Prop := Forall (λ s, is_item s = true) a.

(** The elements of the array, in order. *)
Definition items a : list A := omap slot_value a.

(** The array of the elements of a list. *)
Definition of_list (l : list A) : array A := Item <$> l.

End ops.

(** [a.map((x, i) => f(i, x))] from index [k] on, for a callback that first
    reads the property [reading] of [x]: holes are skipped and stay holes, an
    [undefined] slot makes the callback throw. *)
Fixpoint amap_from {A B : Type} (reading : string) (f : nat → A → B) (k : nat)
    (a : array A) : result (array B) :=
  match a with
  | [] => Ok []
  | Hole :: a' => t ← amap_from reading f (S k) a'; Ok (Hole :: t)
  | Undefined :: _ => Throw (TypeError reading)
  | Item x :: a' => t ← amap_from reading f (S k) a'; Ok (Item (f k x) :: t)
  end.

Definition amap {A B : Type} (reading : string) (f : nat → A → B) (a : array A) :
    result (array B) :=
  amap_from reading f 0 a.

#[global] Instance dense_dec {A : Type} (a : array A) : Decision (dense a).
Proof. unfold dense. apply _. Defined.

(** ** Lemmas *)

Section lemmas.
Context {A : Type}.
Implicit Types (a : array A) (x : A) (s : slot A) (i j k : nat) (p : nat → bool).

Lemma dense_lookup a i s : dense a → a !! i = Some s → ∃ x, s = Item x.
Proof.
  intros Ha Hi. pose proof (Forall_lookup_1 _ _ _ _ Ha Hi) as Hs.
  destruct s; naive_solver.
Qed.

Lemma dense_no_undefined a : dense a → Undefined ∉ a.
Proof. intros Ha Hin. by pose proof (proj1 (Forall_forall _ _) Ha _ Hin). Qed.

Lemma dense_of_list (l : list A) : dense (of_list l).
Proof. unfold dense, of_list. by apply Forall_fmap, Forall_true. Qed.

Lemma dense_items a : dense a → a = of_list (items a).
Proof.
  unfold of_list, items. induction 1 as [|[| |x] a Hx _ IH]; simplify_eq /=; [done|].
  by rewrite <-IH.
Qed.

Lemma items_of_list (l : list A) : items (of_list l) = l.
Proof. unfold items, of_list. induction l; simpl; by f_equal. Qed.

Lemma length_of_list (l : list A) : length (of_list l) = length l.
Proof. apply length_fmap. Qed.

Lemma dense_app a1 a2 : dense (a1 ++ a2) ↔ dense a1 ∧ dense a2.
Proof. apply (Forall_app (λ s, is_item s = true)). Qed.

Lemma dense_cons s a : dense (s :: a) ↔ is_item s = true ∧ dense a.
Proof. apply (Forall_cons (λ s, is_item s = true)). Qed.

Lemma dense_length_items a : dense a → length (items a) = length a.
Proof. intros Ha. by rewrite (dense_items a Ha) at 2; rewrite length_of_list. Qed.

(** *** [read] *)

Lemma read_item a i x : a !! i = Some (Item x) → read a i = Some x.
Proof. unfold read. by intros ->. Qed.

Lemma read_ge a i : length a ≤ i → read a i = None.
Proof. unfold read. by intros ->%lookup_ge_None. Qed.

Lemma read_of_list (l : list A) i : read (of_list l) i = l !! i.
Proof. unfold read, of_list. rewrite list_lookup_fmap. by destruct (l !! i). Qed.

Lemma read_dense_lt a i : dense a → i < length a → is_Some (read a i).
Proof.
  intros Ha [s Hs]%lookup_lt_is_Some. destruct (dense_lookup a i s Ha Hs) as [x ->].
  rewrite (read_item a i x Hs). eauto.
Qed.

(** *** [spread] *)

Lemma length_spread a : length (spread a) = length a.
Proof. apply length_fmap. Qed.

Lemma spread_dense a : dense a → spread a = a.
Proof.
  unfold spread. induction 1 as [|[| |x] a Hx _ IH]; simplify_eq /=; [done|].
  by rewrite IH.
Qed.

Lemma spread_no_hole a i : spread a !! i ≠ Some Hole.
Proof.
  unfold spread. rewrite list_lookup_fmap.
  by destruct (a !! i) as [[| |x]|].
Qed.

Lemma read_spread a i : read (spread a) i = read a i.
Proof.
  unfold read, spread. rewrite list_lookup_fmap.
  by destruct (a !! i) as [[| |x]|].
Qed.

Lemma spread_idemp a : spread (spread a) = spread a.
Proof.
  unfold spread. rewrite <-list_fmap_compose. apply list_fmap_ext.
  by intros _ [| |x] _.
Qed.

Lemma items_spread a : items (spread a) = items a.
Proof.
  unfold items, spread. induction a as [|[| |x] a IH]; [done|..];
    rewrite fmap_cons; cbn [omap list_omap slot_value]; by rewrite IH.
Qed.

(** *** [assign] *)

Lemma assign_lt i x a : i < length a → assign i x a = <[i := Item x]> a.
Proof. unfold assign. intros. by rewrite decide_True. Qed.

Lemma assign_ge i x a :
  length a ≤ i → assign i x a = a ++ replicate (i - length a) Hole ++ [Item x].
Proof. unfold assign. intros. rewrite decide_False; [done | lia]. Qed.

Lemma length_assign i x a : length (assign i x a) = length a `max` S i.
Proof.
  unfold assign. case_decide.
  - rewrite length_insert. lia.
  - rewrite !length_app, length_replicate. simpl. lia.
Qed.

Lemma lookup_assign_eq i x a : assign i x a !! i = Some (Item x).
Proof.
  unfold assign. case_decide.
  - by apply list_lookup_insert_eq.
  - rewrite lookup_app_r by lia. rewrite lookup_app_r; rewrite length_replicate; [|lia].
    by rewrite Nat.sub_diag.
Qed.

Lemma lookup_assign_ne i j x a :
  j ≠ i → j < length a → assign i x a !! j = a !! j.
Proof.
  intros Hne Hj. unfold assign. case_decide.
  - by apply list_lookup_insert_ne.
  - by apply lookup_app_l.
Qed.

Lemma lookup_assign_hole i j x a :
  length a ≤ j → j < i → assign i x a !! j = Some Hole.
Proof.
  intros Hj Hi. rewrite assign_ge by lia.
  rewrite lookup_app_r by lia. rewrite lookup_app_l by (rewrite length_replicate; lia).
  apply lookup_replicate_2. lia.
Qed.

Lemma read_assign_eq i x a : read (assign i x a) i = Some x.
Proof. apply read_item, lookup_assign_eq. Qed.

(** Appending is assignment at [length]. *)
Lemma assign_length x a : assign (length a) x a = a ++ [Item x].
Proof. rewrite assign_ge by lia. by rewrite Nat.sub_diag. Qed.

Lemma dense_insert_item i x a : dense a → dense (<[i := Item x]> a).
Proof. intros. by apply Forall_insert. Qed.

(** Assignment keeps an array dense exactly when it leaves no gap. *)
Lemma dense_assign i x a : dense a → i ≤ length a → dense (assign i x a).
Proof.
  intros Ha Hi. destruct (decide (i < length a)).
  - rewrite assign_lt by done. by apply dense_insert_item.
  - replace i with (length a) by lia. rewrite assign_length.
    apply dense_app; split; [done|]. by apply Forall_singleton.
Qed.

Lemma assign_gap_not_dense i x a : length a < i → ¬ dense (assign i x a).
Proof.
  intros Hi Hd.
  destruct (dense_lookup _ (length a) Hole Hd) as [? ?]; [|done].
  by apply lookup_assign_hole.
Qed.

(** *** [filter_index] *)

Lemma filter_from_ext p q k a :
  (∀ j, k ≤ j → p j = q j) → filter_from p k a = filter_from q k a.
Proof.
  revert k. induction a as [|s a IH]; intros k Hpq; [done|]; simpl.
  rewrite (IH (S k)) by (intros; apply Hpq; lia).
  rewrite (Hpq k) by lia. done.
Qed.

Lemma filter_from_no_hole p k a j : filter_from p k a !! j ≠ Some Hole.
Proof.
  revert k j. induction a as [|[| |x] a IH]; intros k j; simpl; [done|apply IH|..];
    (destruct (p k); [destruct j; [done|apply IH] | apply IH]).
Qed.

Lemma filter_from_dense p k a : dense a → dense (filter_from p k a).
Proof.
  intros Ha. revert k. induction Ha as [|[| |x] a Hx _ IH]; intros k; simplify_eq /=.
  - by apply Forall_nil.
  - destruct (p k); [apply dense_cons; split; [done|] |]; apply IH.
Qed.

Lemma length_filter_from p k a : length (filter_from p k a) ≤ length a.
Proof.
  revert k. induction a as [|[| |x] a IH]; intros k; simpl; [lia|..];
    try destruct (p k); simpl; specialize (IH (S k)); lia.
Qed.

Lemma filter_from_cons p k s a :
  is_hole s = false →
  filter_from p k (s :: a) =
    if p k then s :: filter_from p (S k) a else filter_from p (S k) a.
Proof. by destruct s. Qed.

(** A callback that accepts every index keeps an array without holes. *)
Lemma filter_from_all p k a :
  Forall (λ s, is_hole s = false) a → (∀ j, k ≤ j → p j = true) →
  filter_from p k a = a.
Proof.
  intros Ha. revert k. induction Ha as [|s a Hs _ IH]; intros k Hp; [done|].
  rewrite filter_from_cons, Hp by (done || lia). f_equal. apply IH.
  intros j Hj. apply Hp. lia.
Qed.

(** Keeping every index but [k + i] of an array without holes deletes the
    slot at [i]. *)
Lemma filter_from_ne_delete k i a :
  Forall (λ s, is_hole s = false) a →
  filter_from (λ j, bool_decide (j ≠ k + i)) k a = delete i a.
Proof.
  intros Ha. revert k i.
  induction Ha as [|s a Hs Ha IH]; intros k i; [done|].
  rewrite filter_from_cons by done. destruct i as [|i].
  - rewrite bool_decide_eq_false_2 by lia. apply filter_from_all; [done|].
    intros j Hj. apply bool_decide_eq_true_2. lia.
  - rewrite bool_decide_eq_true_2 by lia. simpl. f_equal.
    rewrite <-(IH (S k) i). apply filter_from_ext.
    intros j _. by replace (k + S i) with (S k + i) by lia.
Qed.

Lemma dense_no_hole a : dense a → Forall (λ s, is_hole s = false) a.
Proof. intros Ha. eapply Forall_impl; [exact Ha|]. by intros [| |x]. Qed.

(** On a dense array, [a.filter((_, j) => j !== i)] is the deletion of
    index [i]. *)
Lemma filter_index_ne_delete i a :
  dense a → filter_index (λ j, bool_decide (j ≠ i)) a = delete i a.
Proof. intros Ha. apply (filter_from_ne_delete 0 i a), dense_no_hole, Ha. Qed.

Lemma delete_ge_id (l : list (slot A)) i : length l ≤ i → delete i l = l.
Proof.
  revert i. induction l as [|s l IH]; intros i Hi; [done|].
  destruct i as [|i]; simpl in *; [lia|]. f_equal. apply IH. lia.
Qed.

(** *** [amap] *)

Lemma amap_from_dense {B : Type} reading (f : nat → A → B) k (l : list A) :
  amap_from reading f k (of_list l) = Ok (of_list (imap (λ j, f (k + j)) l)).
Proof.
  revert k f. induction l as [|x l IH]; intros k f; [done|].
  cbn [of_list fmap list_fmap amap_from imap].
  change (Item <$> l) with (of_list l). rewrite (IH (S k)).
  simpl. rewrite Nat.add_0_r. do 3 f_equal.
  apply imap_ext. intros j y _. simpl. f_equal. lia.
Qed.

(** On an array without holes [map] does not throw, and maps every
    element with its index. *)
Lemma amap_of_list {B : Type} reading (f : nat → A → B) (l : list A) :
  amap reading f (of_list l) = Ok (of_list (imap f l)).
Proof. unfold amap. by rewrite (amap_from_dense reading f 0 l). Qed.

Lemma amap_from_undefined {B : Type} reading (f : nat → A → B) k a :
  Undefined ∈ a → amap_from reading f k a = Throw (TypeError reading).
Proof.
  revert k. induction a as [|[| |x] a IH]; intros k Hin.
  - by apply elem_of_nil in Hin.
  - apply elem_of_cons in Hin as [?|Hin]; [done|]. simpl. by rewrite (IH (S k) Hin).
  - done.
  - apply elem_of_cons in Hin as [?|Hin]; [done|]. simpl. by rewrite (IH (S k) Hin).
Qed.

(** [map] throws exactly on the arrays that hold an [undefined] slot. *)
Lemma amap_ok_iff {B : Type} reading (f : nat → A → B) a :
  is_ok (amap reading f a) = true ↔ Undefined ∉ a.
Proof.
  unfold amap. generalize 0 as k. induction a as [|[| |x] a IH]; intros k; simpl.
  - split; [intros _; apply not_elem_of_nil|done].
  - rewrite not_elem_of_cons, <-(IH (S k)).
    destruct (amap_from reading f (S k) a); naive_solver.
  - rewrite not_elem_of_cons. naive_solver.
  - rewrite not_elem_of_cons, <-(IH (S k)).
    destruct (amap_from reading f (S k) a); naive_solver.
Qed.

(** Every element [map] produces is the image of an element of the array,
    at its index. *)
Lemma amap_from_items_lookup {B : Type} reading (f : nat → A → B) k a b y :
  amap_from reading f k a = Ok b → y ∈ items b →
  ∃ i x, a !! i = Some (Item x) ∧ y = f (k + i) x.
Proof.
  revert k b. induction a as [|[| |x] a IH]; intros k b Hb Hy; simpl in Hb.
  - injection Hb as <-. by apply elem_of_nil in Hy.
  - destruct (amap_from reading f (S k) a) as [t|] eqn:Ht; [|done].
    injection Hb as <-. destruct (IH _ _ Ht Hy) as (i & x & Hi & ->).
    exists (S i), x. split; [done|]. f_equal. lia.
  - done.
  - destruct (amap_from reading f (S k) a) as [t|] eqn:Ht; [|done].
    injection Hb as <-. unfold items in Hy. simpl in Hy.
    apply elem_of_cons in Hy as [->|Hy].
    + exists 0, x. split; [done|]. f_equal. lia.
    + destruct (IH _ _ Ht Hy) as (i & x' & Hi & ->).
      exists (S i), x'. split; [done|]. f_equal. lia.
Qed.

Lemma amap_items_lookup {B : Type} reading (f : nat → A → B) a b y :
  amap reading f a = Ok b → y ∈ items b → ∃ i x, a !! i = Some (Item x) ∧ y = f i x.
Proof. apply amap_from_items_lookup. Qed.

End lemmas.

#[export] Hint Rewrite @length_spread @length_assign @length_of_list
  @read_spread @read_assign_eq @items_of_list @items_spread
  @spread_idemp @read_of_list : resume.
