(* ===== verification/ResumeData.v ===== *)
(** * The resume record of [App] and its entry objects

    [App] keeps one record in a [useState] cell ([src/src/app.js], lines
    622-634): five text fields, five arrays of entry objects and the text
    field [skills], in this order of keys.  The keys are the string literals
    of the source: [scalar_name] and [section_name] for the record, [Key.t]
    for the entries.  An entry object is an association list in insertion
    order, which is the order JavaScript enumerates string keys in.

    The file gives the reads and writes of the record by key, the object
    spread with a computed key ([obj_set]), the blank entry of each section
    and the well-formedness the editor form maintains: every section is an
    array without holes whose entries have exactly the keys of the section,
    in the order of its blank entry. *)

From Stdlib Require Import String.
From stdpp Require Import base tactics option list strings finite.
From S2P Require Import Prelude JsArray.


(** ** Keys *)

(** The text fields of the record: the [name] attributes of the inputs bound
    to [handleChange]. *)
Inductive scalar_name : Type :=
| fullName | email | phone | website | summary | skills.

(** The array fields of the record: the [section] arguments of the
    handlers. *)
Inductive section_name : Type :=
| experience | volunteer | extracurriculars | projects | education.

#[global] Instance scalar_name_eq_dec : EqDecision scalar_name.
Proof. solve_decision. Defined.

#[global] Instance section_name_eq_dec : EqDecision section_name.
Proof. solve_decision. Defined.

#[global] Instance section_name_finite : Finite section_name.
Proof.
  refine {| enum := [experience; volunteer; extracurriculars; projects; education] |}.
  - by apply (bool_decide_unpack _).
  - intros []; by apply (bool_decide_unpack _).
Defined.

Module Key.

(** The keys of the entry objects: the [name] attributes of the inputs bound
    to [handleSectionChange]. *)
Inductive t : Type :=
| title | company | location | dates | responsibilities
| role | organization | description
| name | link
| degree | institution | date.

#[global] Instance eq_dec : EqDecision t.
Proof. solve_decision. Defined.

(** The key as the source spells it. *)
Definition to_string (k : t) : string :=
  match k with
  | title => "title" | company => "company" | location => "location"
  | dates => "dates" | responsibilities => "responsibilities"
  | role => "role" | organization => "organization"
  | description => "description" | name => "name" | link => "link"
  | degree => "degree" | institution => "institution" | date => "date"
  end.

End Key.

(** ** Entry objects *)

Abbreviation obj := (list (Key.t * string)).

(** [o[k]]: the value, or [undefined] when [o] has no such key. *)
Fixpoint obj_get (o : obj) (k : Key.t) : option string :=
  match o with
  | [] => None
  | (k', v) :: o' => if decide (k = k') then Some v else obj_get o' k
  end.

(** [{ ...o, [k]: v }]: the keys of [o] in their order, the value of [k]
    replaced where [o] has it and added last where it has not. *)
Fixpoint obj_set (o : obj) (k : Key.t) (v : string) : obj :=
  match o with
  | [] => [(k, v)]
  | (k', v') :: o' =>
      if decide (k = k') then (k', v) :: o' else (k', v') :: obj_set o' k v
  end.

(** [{ ...x }] where [x] is an object or [undefined]: spreading [undefined]
    copies nothing. *)
Definition obj_spread (x : option obj) : obj := default [] x.

(** The keys of an object, in enumeration order. *)
Definition obj_keys (o : obj) : list Key.t := o.*1.

(** The object literal passed to [handleAddItem] for each section (lines
    190, 215, 240, 261, 282); [App] starts every section with the same
    literal (lines 628-632). *)
Definition blank_item (s : section_name) : obj :=
  match s with
  | education =>
      [(Key.degree, ""); (Key.institution, ""); (Key.date, "")]
  | experience =>
      [(Key.title, ""); (Key.company, ""); (Key.location, ""); (Key.dates, "");
       (Key.responsibilities, "")]
  | volunteer =>
      [(Key.role, ""); (Key.organization, ""); (Key.location, ""); (Key.dates, "");
       (Key.description, "")]
  | extracurriculars =>
      [(Key.name, ""); (Key.role, ""); (Key.description, "")]
  | projects =>
      [(Key.name, ""); (Key.description, ""); (Key.link, "")]
  end.

(** The keys of the entries of a section. *)
Definition schema (s : section_name) : list Key.t := obj_keys (blank_item s).

(** ** The record *)

Record ResumeData : Type := mkResumeData {
  r_fullName : string;
  r_email : string;
  r_phone : string;
  r_website : string;
  r_summary : string;
  r_experience : array obj;
  r_volunteer : array obj;
  r_extracurriculars : array obj;
  r_projects : array obj;
  r_education : array obj;
  r_skills : string;
}.

#[global] Instance ResumeData_eq_dec : EqDecision ResumeData.
Proof. solve_decision. Defined.

(** [resumeData[name]] for a text field. *)
Definition get_scalar (r : ResumeData) (name : scalar_name) : string :=
  match name with
  | fullName => r_fullName r | email => r_email r | phone => r_phone r
  | website => r_website r | summary => r_summary r | skills => r_skills r
  end.

(** [resumeData[section]]. *)
Definition get_section (r : ResumeData) (section : section_name) : array obj :=
  match section with
  | experience => r_experience r | volunteer => r_volunteer r
  | extracurriculars => r_extracurriculars r | projects => r_projects r
  | education => r_education r
  end.

(** [{ ...prevData, [name]: value }] for a text field: the record has the
    key already, so its place among the keys does not change. *)
Definition set_scalar (r : ResumeData) (name : scalar_name) (value : string) :
    ResumeData :=
  match name with
  | fullName => mkResumeData value (r_email r) (r_phone r) (r_website r) (r_summary r)
      (r_experience r) (r_volunteer r) (r_extracurriculars r) (r_projects r)
      (r_education r) (r_skills r)
  | email => mkResumeData (r_fullName r) value (r_phone r) (r_website r) (r_summary r)
      (r_experience r) (r_volunteer r) (r_extracurriculars r) (r_projects r)
      (r_education r) (r_skills r)
  | phone => mkResumeData (r_fullName r) (r_email r) value (r_website r) (r_summary r)
      (r_experience r) (r_volunteer r) (r_extracurriculars r) (r_projects r)
      (r_education r) (r_skills r)
  | website => mkResumeData (r_fullName r) (r_email r) (r_phone r) value (r_summary r)
      (r_experience r) (r_volunteer r) (r_extracurriculars r) (r_projects r)
      (r_education r) (r_skills r)
  | summary => mkResumeData (r_fullName r) (r_email r) (r_phone r) (r_website r) value
      (r_experience r) (r_volunteer r) (r_extracurriculars r) (r_projects r)
      (r_education r) (r_skills r)
  | skills => mkResumeData (r_fullName r) (r_email r) (r_phone r) (r_website r)
      (r_summary r) (r_experience r) (r_volunteer r) (r_extracurriculars r)
      (r_projects r) (r_education r) value
  end.

(** [{ ...prevData, [section]: a }]. *)
Definition set_section (r : ResumeData) (section : section_name) (a : array obj) :
    ResumeData :=
  match section with
  | experience => mkResumeData (r_fullName r) (r_email r) (r_phone r) (r_website r)
      (r_summary r) a (r_volunteer r) (r_extracurriculars r) (r_projects r)
      (r_education r) (r_skills r)
  | volunteer => mkResumeData (r_fullName r) (r_email r) (r_phone r) (r_website r)
      (r_summary r) (r_experience r) a (r_extracurriculars r) (r_projects r)
      (r_education r) (r_skills r)
  | extracurriculars => mkResumeData (r_fullName r) (r_email r) (r_phone r)
      (r_website r) (r_summary r) (r_experience r) (r_volunteer r) a (r_projects r)
      (r_education r) (r_skills r)
  | projects => mkResumeData (r_fullName r) (r_email r) (r_phone r) (r_website r)
      (r_summary r) (r_experience r) (r_volunteer r) (r_extracurriculars r) a
      (r_education r) (r_skills r)
  | education => mkResumeData (r_fullName r) (r_email r) (r_phone r) (r_website r)
      (r_summary r) (r_experience r) (r_volunteer r) (r_extracurriculars r)
      (r_projects r) a (r_skills r)
  end.

(** The initial state of [App] (lines 622-634). *)
Definition initialResumeData : ResumeData := {|
  r_fullName := "";
  r_email := "";
  r_phone := "";
  r_website := "";
  r_summary := "";
  r_experience := [Item (blank_item experience)];
  r_volunteer := [Item (blank_item volunteer)];
  r_extracurriculars := [Item (blank_item extracurriculars)];
  r_projects := [Item (blank_item projects)];
  r_education := [Item (blank_item education)];
  r_skills := "";
|}.

(** ** Well-formedness *)

(** An entry of section [s]: exactly the keys of the section, in the order
    of its blank entry. *)
Definition wf_entry (s : section_name) (o : obj) : Prop := obj_keys o = schema s.

(** A section as the form keeps it: no hole, no [undefined], every entry of
    the section's shape. *)
Definition wf_section (s : section_name) (a : array obj) : Prop :=
  dense a ∧ Forall (wf_entry s) (items a).

Definition wf (r : ResumeData) : Prop := ∀ s, wf_section s (get_section r s).

#[global] Instance wf_entry_dec s o : Decision (wf_entry s o).
Proof. unfold wf_entry. apply _. Defined.

#[global] Instance wf_section_dec s a : Decision (wf_section s a).
Proof. unfold wf_section. apply _. Defined.

#[global] Instance wf_dec r : Decision (wf r).
Proof. unfold wf. apply _. Defined.

(** ** Reads after writes *)

Section get_set.
Implicit Types (r : ResumeData) (n m : scalar_name) (s t : section_name)
  (a b : array obj) (v w : string).

Lemma get_scalar_set_scalar r n m v :
  get_scalar (set_scalar r n v) m = if decide (n = m) then v else get_scalar r m.
Proof. by destruct n, m. Qed.

Lemma get_scalar_set_scalar_eq r n v : get_scalar (set_scalar r n v) n = v.
Proof. by destruct n. Qed.

Lemma get_scalar_set_scalar_ne r n m v :
  n ≠ m → get_scalar (set_scalar r n v) m = get_scalar r m.
Proof. by destruct n, m. Qed.

Lemma get_section_set_scalar r n v s :
  get_section (set_scalar r n v) s = get_section r s.
Proof. by destruct n, s. Qed.

Lemma get_scalar_set_section r s a n :
  get_scalar (set_section r s a) n = get_scalar r n.
Proof. by destruct s, n. Qed.

Lemma get_section_set_section r s t a :
  get_section (set_section r s a) t = if decide (s = t) then a else get_section r t.
Proof. by destruct s, t. Qed.

Lemma get_section_set_section_eq r s a : get_section (set_section r s a) s = a.
Proof. by destruct s. Qed.

Lemma get_section_set_section_ne r s t a :
  s ≠ t → get_section (set_section r s a) t = get_section r t.
Proof. by destruct s, t. Qed.

Lemma set_section_get_section r s : set_section r s (get_section r s) = r.
Proof. by destruct r, s. Qed.

Lemma set_section_set_section r s a b :
  set_section (set_section r s a) s b = set_section r s b.
Proof. by destruct s. Qed.

Lemma set_scalar_get_scalar r n : set_scalar r n (get_scalar r n) = r.
Proof. by destruct r, n. Qed.

(** Two records with the same fields are equal. *)
Lemma ResumeData_eq r r' :
  (∀ n, get_scalar r n = get_scalar r' n) →
  (∀ s, get_section r s = get_section r' s) → r = r'.
Proof.
  intros Hn Hs. destruct r, r'.
  pose proof (Hn fullName); pose proof (Hn email); pose proof (Hn phone).
  pose proof (Hn website); pose proof (Hn summary); pose proof (Hn skills).
  pose proof (Hs experience); pose proof (Hs volunteer).
  pose proof (Hs extracurriculars); pose proof (Hs projects).
  pose proof (Hs education). by simplify_eq /=.
Qed.

End get_set.

#[export] Hint Rewrite get_scalar_set_scalar_eq get_section_set_scalar
  get_scalar_set_section get_section_set_section_eq set_section_get_section
  set_section_set_section set_scalar_get_scalar : resume.
#[export] Hint Rewrite get_scalar_set_scalar_ne get_section_set_section_ne
  using done : resume.

(** ** Entry objects *)

Section objects.
Implicit Types (o : obj) (k : Key.t) (v : string) (s : section_name).

Lemma obj_get_set_eq o k v : obj_get (obj_set o k v) k = Some v.
Proof.
  induction o as [|[k' v'] o IH]; simpl; [by rewrite decide_True|].
  destruct (decide (k = k')) as [->|Hne]; simpl.
  - by rewrite decide_True.
  - by rewrite decide_False.
Qed.

Lemma obj_get_set_ne o k k' v : k ≠ k' → obj_get (obj_set o k v) k' = obj_get o k'.
Proof.
  intros Hne. induction o as [|[k0 v0] o IH]; simpl.
  - by rewrite decide_False.
  - destruct (decide (k = k0)) as [->|?]; simpl; [by rewrite !decide_False|].
    by rewrite IH.
Qed.

Lemma obj_get_is_Some o k : is_Some (obj_get o k) ↔ k ∈ obj_keys o.
Proof.
  unfold obj_keys. induction o as [|[k' v'] o IH]; simpl.
  - rewrite elem_of_nil. split; [by intros [? ?]|done].
  - rewrite elem_of_cons. destruct (decide (k = k')); [naive_solver|].
    rewrite IH. naive_solver.
Qed.

Lemma obj_get_None o k : obj_get o k = None ↔ k ∉ obj_keys o.
Proof. rewrite <-obj_get_is_Some, eq_None_not_Some. done. Qed.

(** Setting a key the object has keeps its keys and their order. *)
Lemma obj_keys_set_in o k v : k ∈ obj_keys o → obj_keys (obj_set o k v) = obj_keys o.
Proof.
  unfold obj_keys. induction o as [|[k' v'] o IH]; simpl.
  - by intros ?%elem_of_nil.
  - intros Hin. destruct (decide (k = k')) as [->|Hne]; simpl; [done|].
    f_equal. apply IH. by apply elem_of_cons in Hin as [?|?].
Qed.

(** Setting a key the object lacks adds it last. *)
Lemma obj_keys_set_notin o k v :
  k ∉ obj_keys o → obj_keys (obj_set o k v) = obj_keys o ++ [k].
Proof.
  unfold obj_keys. induction o as [|[k' v'] o IH]; simpl; [done|].
  intros Hin%not_elem_of_cons. destruct (decide (k = k')); [naive_solver|].
  simpl. f_equal. naive_solver.
Qed.

Lemma obj_set_set o k v v' : obj_set (obj_set o k v) k v' = obj_set o k v'.
Proof.
  induction o as [|[k0 v0] o IH]; simpl; [by rewrite decide_True|].
  destruct (decide (k = k0)) as [->|?]; simpl.
  - by rewrite decide_True.
  - rewrite decide_False by done. by rewrite IH.
Qed.

(** Writing back the value read changes nothing. *)
Lemma obj_set_get o k v : obj_get o k = Some v → obj_set o k v = o.
Proof.
  induction o as [|[k0 v0] o IH]; simpl; [done|].
  destruct (decide (k = k0)) as [->|?]; [naive_solver|].
  intros ?. f_equal. auto.
Qed.

Lemma wf_entry_blank s : wf_entry s (blank_item s).
Proof. done. Qed.

Lemma wf_entry_set s o k v : wf_entry s o → k ∈ schema s → wf_entry s (obj_set o k v).
Proof.
  unfold wf_entry. intros Ho Hk. rewrite obj_keys_set_in; [done|]. by rewrite Ho.
Qed.

Lemma wf_entry_get s o k : wf_entry s o → k ∈ schema s → is_Some (obj_get o k).
Proof. unfold wf_entry. intros Ho Hk. apply obj_get_is_Some. by rewrite Ho. Qed.

Lemma schema_NoDup s : NoDup (schema s).
Proof. destruct s; by apply (bool_decide_unpack _). Qed.

End objects.

#[export] Hint Rewrite obj_get_set_eq obj_set_set : resume.
#[export] Hint Rewrite obj_get_set_ne using done : resume.
#[export] Hint Resolve wf_entry_blank wf_entry_set : resume.

(** ** Well-formedness *)

Lemma wf_initial : wf initialResumeData.
Proof. by apply (bool_decide_unpack _). Qed.

Lemma wf_section_of_list s (l : list obj) :
  wf_section s (of_list l) ↔ Forall (wf_entry s) l.
Proof.
  unfold wf_section. rewrite items_of_list. split; [by intros [_ ?]|].
  intros Hl. split; [apply dense_of_list|done].
Qed.

(** A well-formed section is the array of a list of well-formed entries. *)
Lemma wf_section_inv s a :
  wf_section s a → ∃ l, a = of_list l ∧ Forall (wf_entry s) l.
Proof. intros [Hd Hi]. exists (items a). split; [by apply dense_items|done]. Qed.

Lemma wf_set_scalar r n v : wf r → wf (set_scalar r n v).
Proof. intros Hr s. rewrite get_section_set_scalar. apply Hr. Qed.

Lemma wf_set_section r s a : wf r → wf_section s a → wf (set_section r s a).
Proof.
  intros Hr Ha t. rewrite get_section_set_section.
  case_decide; [by subst|apply Hr].
Qed.

(** Array operations on a well-formed section. *)

Section wf_section_lemmas.
Implicit Types (s : section_name) (i : nat) (o : obj) (a : array obj).

Lemma wf_section_insert s a i o :
  wf_section s a → wf_entry s o → wf_section s (<[i := Item o]> a).
Proof.
  intros (l & -> & Hl)%wf_section_inv Ho.
  unfold of_list. rewrite <-(list_fmap_insert Item l i o).
  apply wf_section_of_list. by apply Forall_insert.
Qed.

Lemma wf_section_delete s a i : wf_section s a → wf_section s (delete i a).
Proof.
  intros (l & -> & Hl)%wf_section_inv.
  unfold of_list. rewrite <-(list_fmap_delete Item l i).
  apply wf_section_of_list. by apply Forall_delete.
Qed.

Lemma wf_section_snoc s a o : wf_section s a → wf_entry s o → wf_section s (a ++ [Item o]).
Proof.
  intros (l & -> & Hl)%wf_section_inv Ho.
  change [Item o] with (of_list [o]). unfold of_list. rewrite <-fmap_app.
  apply wf_section_of_list, Forall_app. split; [done|]. by apply Forall_singleton.
Qed.

Lemma wf_section_lookup s a i o : wf_section s a → a !! i = Some (Item o) → wf_entry s o.
Proof.
  intros (l & -> & Hl)%wf_section_inv Hi. unfold of_list in Hi.
  rewrite list_lookup_fmap in Hi. destruct (l !! i) as [o'|] eqn:E; simplify_eq /=.
  by eapply Forall_lookup_1.
Qed.

Lemma wf_section_lt s a i :
  wf_section s a → i < length a → ∃ o, a !! i = Some (Item o) ∧ wf_entry s o.
Proof.
  intros Ha [x Hx]%lookup_lt_is_Some.
  destruct (dense_lookup a i x (proj1 Ha) Hx) as [o ->].
  exists o. split; [done|]. by eapply wf_section_lookup.
Qed.

End wf_section_lemmas.
