(* ===== verification/React.v ===== *)
(** * React's state cell and the event loop of a component

    [useState] gives a component a value and a setter.  A handler created by
    a render closes over the value of that render; a setter called with a
    function enqueues it, and the next render applies the queue, oldest
    first, to the value.  [App] holds the resume in such a cell
    ([src/src/app.js], line 622) and [AIAssistant] holds four (lines
    305-310).

    A [cell] is the rendered value with the queue of pending updaters.  A
    [Component] gives the initial value, the handler of each event as a
    function of the rendered value, and the events the rendered interface
    can issue.  [step] is the event loop: an event is dispatched against the
    rendered value, or the component renders.  [ComponentInv] is what a
    component promises its clients: an invariant of the initial value that
    every handler of an issued event preserves.  The theorems are proved
    once, against these interfaces. *)

From stdpp Require Import base tactics option list relations.
From S2P Require Import Prelude.

(** ** The cell *)

Record cell (S : Type) : Type := Cell {
  rendered : S;
  queue : list (S → S);
}.

Arguments Cell {S} rendered queue.
Arguments rendered {S} c.
Arguments queue {S} c.

Section cell_ops.
Context {S : Type}.
Implicit Types (c : cell S) (u : S → S) (s : S).

(** [useState(s)] on the first render. *)
Definition mount s : cell S := Cell s [].

(** [setState(u)] with an updater function. *)
Definition setState u c : cell S := Cell (rendered c) (queue c ++ [u]).

(** The value the next render computes. *)
Definition flush c : S := foldl (λ s u, u s) (rendered c) (queue c).

Definition render c : cell S := Cell (flush c) [].

Lemma flush_mount s : flush (mount s) = s.
Proof. done. Qed.

Lemma flush_setState u c : flush (setState u c) = u (flush c).
Proof. unfold flush, setState; simpl. by rewrite foldl_app. Qed.

Lemma render_render c : render (render c) = render c.
Proof. done. Qed.

Lemma rendered_render c : rendered (render c) = flush c.
Proof. done. Qed.

(** [u] preserves [P]. *)
Definition stable (P : S → Prop) u : Prop := ∀ s, P s → P (u s).

(** [P] holds of the rendered value and every pending updater preserves
    it. *)
Definition cell_ok (P : S → Prop) c : Prop :=
  P (rendered c) ∧ Forall (stable P) (queue c).

(** A property every queued updater preserves holds of the next value when
    it holds of the rendered one. *)
Lemma flush_preserves (P : S → Prop) c :
  P (rendered c) → Forall (λ u, ∀ s, P s → P (u s)) (queue c) → P (flush c).
Proof.
  unfold flush. destruct c as [s q]; simpl. revert s.
  induction q as [|u q IH]; intros s Hs Hq; [done|].
  apply Forall_cons in Hq as [Hu Hq]. simpl. apply IH; auto.
Qed.

Lemma cell_ok_mount (P : S → Prop) s : P s → cell_ok P (mount s).
Proof. intros Hs. split; [done|]. apply Forall_nil_2. Qed.

Lemma cell_ok_setState (P : S → Prop) u c : stable P u → cell_ok P c → cell_ok P (setState u c).
Proof.
  intros Hu [Hr Hq]. split; [done|]. simpl.
  apply Forall_app; split; [done|]. by apply Forall_singleton.
Qed.

Lemma cell_ok_flush (P : S → Prop) c : cell_ok P c → P (flush c).
Proof. intros [Hr Hq]. by apply flush_preserves. Qed.

Lemma cell_ok_render (P : S → Prop) c : cell_ok P c → cell_ok P (render c).
Proof. intros Hc. by apply cell_ok_mount, cell_ok_flush. Qed.

End cell_ops.

#[export] Hint Rewrite @flush_mount @flush_setState @rendered_render : resume.

(** ** Components *)

(** A component with state [S] and events [E]. *)
Class Component (S E : Type) : Type := {
  (** the argument of [useState] *)
  initial : S;
  (** the updater a handler enqueues, given the value its closure holds *)
  handler : S → E → S → S;
  (** the events the interface rendered from a value can issue *)
  enabled : S → E → Prop;
}.

(** An invariant the component maintains. *)
Class ComponentInv {S E : Type} `{!Component S E} (inv : S → Prop) : Prop := {
  inv_initial : inv initial;
  inv_handler r e p : inv r → enabled r e → inv p → inv (handler r e p);
}.

Section loop.
Context {S E : Type} `{!Component S E}.
Implicit Types (c : cell S) (e : E) (r p : S).

(** A handler runs against the rendered value and enqueues its updater. *)
Definition dispatch e c : cell S := setState (handler (rendered c) e) c.

(** The event loop. *)
Inductive step : cell S → cell S → Prop :=
| step_dispatch c e : enabled (rendered c) e → step c (dispatch e c)
| step_render c : step c (render c).

Definition reachable c : Prop := rtc step (mount initial) c.

(** The event loop of a browser that renders after every event: the handler
    of each event sees the value the previous one produced. *)
Definition apply_event r e : S := handler r e r.

Definition run r (es : list E) : S := foldl apply_event r es.

(** The events of a list are issued one after the other, each by the
    interface rendered from the previous value. *)
Fixpoint issued r (es : list E) : Prop :=
  match es with
  | [] => True
  | e :: es => enabled r e ∧ issued (apply_event r e) es
  end.

Lemma render_dispatch_mount r e : render (dispatch e (mount r)) = mount (apply_event r e).
Proof. done. Qed.

Lemma run_app r es1 es2 : run r (es1 ++ es2) = run (run r es1) es2.
Proof. apply foldl_app. Qed.

Lemma run_snoc r es e : run r (es ++ [e]) = apply_event (run r es) e.
Proof. by rewrite run_app. Qed.

(** A run that renders after every event is a run of the event loop. *)
Lemma run_steps r es : issued r es → rtc step (mount r) (mount (run r es)).
Proof.
  revert r. induction es as [|e es IH]; intros r Hes; [done|].
  destruct Hes as [He Hes]. simpl.
  eapply rtc_l; [apply (step_dispatch (mount r) e He)|].
  eapply rtc_l; [apply step_render|].
  rewrite render_dispatch_mount. by apply IH.
Qed.

Section invariant.
Context (inv : S → Prop) `{!ComponentInv inv}.

(** What holds of a cell the loop reaches: the rendered value satisfies the
    invariant and every pending updater preserves it. *)
Definition cell_inv c : Prop := cell_ok inv c.

Lemma cell_inv_mount r : inv r → cell_inv (mount r).
Proof. apply cell_ok_mount. Qed.

Lemma cell_inv_step c c' : cell_inv c → step c c' → cell_inv c'.
Proof.
  intros Hc Hs. destruct Hs as [c e He|c].
  - apply cell_ok_setState; [|done]. intros p Hp. apply inv_handler; [apply Hc|done..].
  - by apply cell_ok_render.
Qed.

Lemma cell_inv_steps c c' : cell_inv c → rtc step c c' → cell_inv c'.
Proof. intros Hc Hs. induction Hs; eauto using cell_inv_step. Qed.

Lemma reachable_cell_inv c : reachable c → cell_inv c.
Proof. apply cell_inv_steps, cell_inv_mount, inv_initial. Qed.

(** The invariant holds of every value the component renders. *)
Lemma reachable_inv c : reachable c → inv (rendered c) ∧ inv (flush c).
Proof.
  intros Hc%reachable_cell_inv. split; [apply Hc|]. by apply cell_ok_flush.
Qed.

Lemma run_inv r es : inv r → issued r es → inv (run r es).
Proof.
  revert r. induction es as [|e es IH]; intros r Hr Hes; [done|].
  destruct Hes as [He Hes]. simpl. apply IH; [|done]. by apply inv_handler.
Qed.

End invariant.

End loop.
