(* ===== verification/Editor.v ===== *)
(** * The handlers of [ResumeEditor]

    [ResumeEditor] ([src/src/app.js], lines 102-151) receives the resume and
    its setter from [App].  Its four mutation handlers are modelled as the
    source writes them: [handleChange] and [handleAddItem] compute the new
    record from the value their updater receives; [handleSectionChange] and
    [handleRemoveItem] compute the new section from the record of the last
    render ([resumeData], the first argument here) and their updater copies
    it into the value it receives.

    [event] names the events of the form, [handle] dispatches them to the
    handlers, and [valid] is the precondition the specification gives them;
    [EditorView] shows that the form issues valid events only.
    The theorems state what each handler does to the section it names, in
    range and out of range, that it changes nothing else, what is lost when
    the record of the last render is stale, and that well-formedness is an
    invariant of the event loop. *)

From Stdlib Require Import String.
From stdpp Require Import base tactics option list strings relations.
From S2P Require Import Prelude JsArray ResumeData React.

(** ** Handlers *)

(** An updater function passed to [setResumeData]. *)
Abbreviation updater := (ResumeData → ResumeData).

(** Lines 103-106. *)
Definition handleChange (name : scalar_name) (value : string) : updater :=
  λ prevData, set_scalar prevData name value.

(** Lines 108-113.  [updatedSection[index]] is read after the spread, so a
    hole of the rendered section is [undefined] there, and so is an index
    out of range; spreading [undefined] into the new entry copies nothing. *)
Definition handleSectionChange (resumeData : ResumeData) (section : section_name)
    (index : nat) (name : Key.t) (value : string) : updater :=
  let updatedSection := spread (get_section resumeData section) in
  let updatedSection :=
    assign index (obj_set (obj_spread (read updatedSection index)) name value)
      updatedSection in
  λ prevData, set_section prevData section updatedSection.

(** Lines 115-120. *)
Definition handleAddItem (section : section_name) (item : obj) : updater :=
  λ prevData,
    set_section prevData section (spread (get_section prevData section) ++ [Item item]).

(** Lines 122-125. *)
Definition handleRemoveItem (resumeData : ResumeData) (section : section_name)
    (index : nat) : updater :=
  let updatedSection :=
    filter_index (λ i, bool_decide (i ≠ index)) (get_section resumeData section) in
  λ prevData, set_section prevData section updatedSection.

(** The argument of [pdf.save] (line 149). *)
Definition exportFileName (resumeData : ResumeData) : string :=
  js_or (r_fullName resumeData) "resume" +:+ ".pdf".

(** ** Events *)

(** The events of the form: a text field changes (lines 163-172, 290-297),
    a field of an entry changes, the "Add" button of a section is pressed,
    the bin of an entry is pressed. *)
Inductive event : Type :=
| Change (name : scalar_name) (value : string)
| SectionChange (section : section_name) (index : nat) (name : Key.t) (value : string)
| AddItem (section : section_name) (item : obj)
| RemoveItem (section : section_name) (index : nat).

#[global] Instance event_eq_dec : EqDecision event.
Proof. solve_decision. Defined.

(** The updater the handler of an event enqueues, given the record its
    closure holds. *)
Definition handle (resumeData : ResumeData) (e : event) : updater :=
  match e with
  | Change name value => handleChange name value
  | SectionChange section index name value =>
      handleSectionChange resumeData section index name value
  | AddItem section item => handleAddItem section item
  | RemoveItem section index => handleRemoveItem resumeData section index
  end.

(** The precondition of each operation: an entry is edited at an index of
    the section and at a key of its schema, and the entry added has the
    shape of the section.  Removal has none. *)
Definition valid (resumeData : ResumeData) (e : event) : Prop :=
  match e with
  | Change _ _ => True
  | SectionChange section index name _ =>
      index < length (get_section resumeData section) ∧ name ∈ schema section
  | AddItem section item => wf_entry section item
  | RemoveItem _ _ => True
  end.

#[global] Instance valid_dec r e : Decision (valid r e).
Proof. destruct e; simpl; apply _. Defined.

(** The section an event writes, if any. *)
Definition event_section (e : event) : option section_name :=
  match e with
  | Change _ _ => None
  | SectionChange s _ _ _ | AddItem s _ | RemoveItem s _ => Some s
  end.

(** [ResumeEditor] as a component over the cell of [App]. *)
#[global] Instance editor : Component ResumeData event := {|
  initial := initialResumeData;
  handler := handle;
  enabled := valid;
|}.

(** ** The section a handler writes *)

Section written.
Implicit Types (r p : ResumeData) (s t : section_name) (i j : nat) (k : Key.t)
  (v : string) (o item : obj) (a : array obj).

Lemma get_section_handleChange n v p s :
  get_section (handleChange n v p) s = get_section p s.
Proof. apply get_section_set_scalar. Qed.

Lemma get_section_handleSectionChange r p s i k v :
  get_section (handleSectionChange r s i k v p) s =
  assign i (obj_set (obj_spread (read (get_section r s) i)) k v)
    (spread (get_section r s)).
Proof. unfold handleSectionChange. by rewrite get_section_set_section_eq, read_spread. Qed.

Lemma get_section_handleAddItem p s item :
  get_section (handleAddItem s item p) s = spread (get_section p s) ++ [Item item].
Proof. apply get_section_set_section_eq. Qed.

Lemma get_section_handleRemoveItem r p s i :
  get_section (handleRemoveItem r s i p) s =
  filter_index (λ j, bool_decide (j ≠ i)) (get_section r s).
Proof. apply get_section_set_section_eq. Qed.

(** On a section without holes, an edit in range replaces one slot. *)
Lemma handleSectionChange_dense r p s i k v o :
  dense (get_section r s) → get_section r s !! i = Some (Item o) →
  get_section (handleSectionChange r s i k v p) s =
  <[i := Item (obj_set o k v)]> (get_section r s).
Proof.
  intros Hd Hi. rewrite get_section_handleSectionChange, spread_dense by done.
  rewrite (read_item _ _ _ Hi). apply assign_lt. by eapply lookup_lt_Some.
Qed.

Lemma handleRemoveItem_dense r p s i :
  dense (get_section r s) →
  get_section (handleRemoveItem r s i p) s = delete i (get_section r s).
Proof. intros Hd. rewrite get_section_handleRemoveItem. by apply filter_index_ne_delete. Qed.

Lemma handleAddItem_dense p s item :
  dense (get_section p s) →
  get_section (handleAddItem s item p) s = get_section p s ++ [Item item].
Proof. intros Hd. by rewrite get_section_handleAddItem, spread_dense. Qed.

(** A handler writes no section but the one of its event. *)
Lemma handle_other_section r e p t :
  event_section e ≠ Some t → get_section (handle r e p) t = get_section p t.
Proof.
  destruct e as [n v|s i k v|s item|s i]; simpl; intros Hne.
  - apply get_section_set_scalar.
  - apply get_section_set_section_ne. congruence.
  - apply get_section_set_section_ne. congruence.
  - apply get_section_set_section_ne. congruence.
Qed.

End written.

(** ** What each handler does *)

Section behaviour.
Implicit Types (r p : ResumeData) (s t : section_name) (i j : nat) (k : Key.t)
  (v : string) (o item : obj) (n m : scalar_name).

(** C1: removing the entry at a valid index [i] of a section without holes
    ([handleRemoveItem], lines 122-125) leaves the section with one slot
    less, the slots before [i] where they were and every later slot one
    position down: the section is [delete i] of the rendered one. *)
Theorem handleRemoveItem_spec r p s i :
  dense (get_section r s) → i < length (get_section r s) →
  let a := get_section r s in
  let a' := get_section (handleRemoveItem r s i p) s in
  a' = delete i a ∧ length a' = length a - 1 ∧
  (∀ j, j < i → a' !! j = a !! j) ∧ (∀ j, i ≤ j → a' !! j = a !! S j).
Proof.
  intros Hd Hi a a'. subst a a'. rewrite handleRemoveItem_dense by done.
  split_and!; [done| |intros j Hj|intros j Hj].
  - apply length_delete. by apply lookup_lt_is_Some.
  - by apply list_lookup_delete_lt.
  - by apply list_lookup_delete_ge.
Qed.

Lemma handleRemoveItem_spec_witness :
  let r := handleAddItem education (blank_item education) initialResumeData in
  get_section (handleRemoveItem r education 0 r) education =
    [Item (blank_item education)].
Proof.
  intros r.
  pose proof (handleRemoveItem_spec r r education 0) as H.
  destruct H as [-> _]; [by apply (bool_decide_unpack _)|simpl; lia|reflexivity].
Defined.

(** C3: editing field [k] of the entry at an index in range
    ([handleSectionChange], lines 108-113) keeps the length of the section,
    puts at that index the entry with [k] set to the new value and its
    other fields as they were, and leaves every other index as the spread
    of the rendered section has it. *)
Theorem handleSectionChange_in_range r p s i k v o :
  get_section r s !! i = Some (Item o) →
  let a := get_section r s in
  let a' := get_section (handleSectionChange r s i k v p) s in
  length a' = length a ∧ a' !! i = Some (Item (obj_set o k v)) ∧
  (∀ j, j ≠ i → a' !! j = spread a !! j).
Proof.
  intros Hi a a'. subst a a'. rewrite get_section_handleSectionChange.
  rewrite (read_item _ _ _ Hi). simpl.
  pose proof (lookup_lt_Some _ _ _ Hi) as Hlt.
  rewrite assign_lt by (by rewrite length_spread).
  split_and!.
  - by rewrite length_insert, length_spread.
  - apply list_lookup_insert_eq. by rewrite length_spread.
  - intros j Hj. by apply list_lookup_insert_ne.
Qed.

Lemma handleSectionChange_in_range_witness :
  get_section
    (handleSectionChange initialResumeData education 0 Key.degree "BSc"
       initialResumeData) education !! 0 =
  Some (Item [(Key.degree, "BSc"); (Key.institution, ""); (Key.date, "")]).
Proof.
  exact (proj1 (proj2 (handleSectionChange_in_range initialResumeData
    initialResumeData education 0 Key.degree "BSc" (blank_item education) eq_refl))).
Defined.

(** C2: [handleAddItem] (lines 115-120) makes the section one slot longer,
    the new last slot holds the item passed, and the earlier indices read as
    before. *)
Theorem handleAddItem_spec p s item :
  let a := get_section p s in
  let a' := get_section (handleAddItem s item p) s in
  length a' = S (length a) ∧ a' !! length a = Some (Item item) ∧
  (∀ j, j < length a → read a' j = read a j).
Proof.
  intros a a'. subst a a'. rewrite get_section_handleAddItem. split_and!.
  - rewrite length_app, length_spread. simpl. lia.
  - apply list_lookup_middle. by rewrite length_spread.
  - intros j Hj. unfold read at 1.
    rewrite lookup_app_l by (by rewrite length_spread).
    apply read_spread.
Qed.

(** C27: an edit at an index past the end of the section does not fail: the
    array grows to [index + 1] slots with holes in between, the new entry
    has the edited key only, and the section is no longer well-formed. *)
Theorem handleSectionChange_out_of_range r p s i k v :
  length (get_section r s) ≤ i →
  let a := get_section r s in
  let a' := get_section (handleSectionChange r s i k v p) s in
  length a' = S i ∧ a' !! i = Some (Item [(k, v)]) ∧
  (∀ j, length a ≤ j → j < i → a' !! j = Some Hole) ∧
  ¬ wf_section s a'.
Proof.
  intros Hi a a'. subst a a'. rewrite get_section_handleSectionChange.
  rewrite (read_ge _ _ Hi). simpl. split_and!.
  - rewrite length_assign, length_spread. lia.
  - apply lookup_assign_eq.
  - intros j Hj Hji. apply lookup_assign_hole; [by rewrite length_spread|done].
  - intros Hwf. eapply wf_section_lookup in Hwf; [|apply lookup_assign_eq].
    by destruct s.
Qed.

Lemma handleSectionChange_out_of_range_witness :
  get_section
    (handleSectionChange initialResumeData projects 3 Key.name "x" initialResumeData)
    projects =
  [Item (blank_item projects); Hole; Hole; Item [(Key.name, "x")]].
Proof.
  pose proof (handleSectionChange_out_of_range initialResumeData initialResumeData
    projects 3 Key.name "x") as H.
  simpl in H. destruct H as (_ & _ & _ & _); [lia|reflexivity].
Defined.

(** [handleChange] (lines 103-106) sets the text field named and
    changes no other field and no section of the record it is applied to. *)
Lemma handleChange_spec n v p :
  get_scalar (handleChange n v p) n = v ∧
  (∀ m, m ≠ n → get_scalar (handleChange n v p) m = get_scalar p m) ∧
  (∀ s, get_section (handleChange n v p) s = get_section p s).
Proof.
  unfold handleChange. split_and!.
  - apply get_scalar_set_scalar_eq.
  - intros m Hm. by apply get_scalar_set_scalar_ne.
  - intros s. apply get_section_set_scalar.
Qed.

(** The updater of an event changes no section but the one the event
    names, and an event on a section changes no text field. *)
Lemma handle_frame r e p :
  (∀ t, event_section e ≠ Some t → get_section (handle r e p) t = get_section p t) ∧
  (∀ n, is_Some (event_section e) → get_scalar (handle r e p) n = get_scalar p n).
Proof.
  split; [intros t; apply handle_other_section|].
  intros n [s Hs]. destruct e; simplify_eq /=; apply get_scalar_set_section.
Qed.

(** The name of the exported file (line 149) is the full name followed
    by [.pdf], and [resume.pdf] when the full name is empty. *)
Lemma exportFileName_spec r :
  exportFileName r =
    (if decide (r_fullName r = "") then "resume.pdf" else r_fullName r +:+ ".pdf").
Proof. unfold exportFileName, js_or. by destruct (r_fullName r). Qed.

End behaviour.

(** ** Stale closures *)

Section stale.
Implicit Types (r p : ResumeData) (s : section_name) (i : nat) (item : obj).

(** The section [handleRemoveItem] and [handleSectionChange] write does not
    depend on the record the updater receives. *)
Lemma overwrite_ignores_prev r p p' s :
  (∀ i, get_section (handleRemoveItem r s i p) s =
        get_section (handleRemoveItem r s i p') s) ∧
  (∀ i k v, get_section (handleSectionChange r s i k v p) s =
            get_section (handleSectionChange r s i k v p') s).
Proof.
  split; intros; by rewrite ?get_section_handleRemoveItem,
    ?get_section_handleSectionChange.
Qed.

(** C29: when an "Add" and a removal on the same section are dispatched
    against one render, the render that follows shows the removal only: the
    added entry is lost.  When the component renders in between, both take
    effect. *)
Theorem batched_remove_loses_add r s item i :
  dense (get_section r s) →
  let batched :=
    flush (setState (handleRemoveItem r s i) (setState (handleAddItem s item) (mount r))) in
  let added := handleAddItem s item r in
  let rendered_between := handleRemoveItem added s i added in
  get_section batched s = delete i (get_section r s) ∧
  get_section rendered_between s = delete i (get_section r s ++ [Item item]).
Proof.
  intros Hd. cbv zeta. split.
  - rewrite !flush_setState, flush_mount. by apply handleRemoveItem_dense.
  - rewrite handleRemoveItem_dense; rewrite handleAddItem_dense by done; [done|].
    apply dense_app. split; [done|]. by apply Forall_singleton.
Qed.

Lemma batched_remove_loses_add_witness :
  let r := initialResumeData in
  let item := blank_item education in
  let added := handleAddItem education item r in
  get_section (flush (setState (handleRemoveItem r education 0)
    (setState (handleAddItem education item) (mount r)))) education = [] ∧
  get_section (handleRemoveItem added education 0 added) education = [Item item].
Proof.
  apply (batched_remove_loses_add initialResumeData education (blank_item education) 0).
  by apply (bool_decide_unpack _).
Defined.

End stale.

(** ** Well-formedness is preserved *)

Section preservation.
Implicit Types (r p : ResumeData) (s : section_name) (i : nat) (k : Key.t)
  (v : string) (o item : obj) (a : array obj).

(** The updater of a valid event, issued on a well-formed record, maps
    well-formed records to well-formed records. *)
Lemma handle_wf r e p : wf r → valid r e → wf p → wf (handle r e p).
Proof.
  intros Hr He Hp. destruct e as [n v|s i k v|s item|s i]; simpl in *.
  - by apply wf_set_scalar.
  - destruct He as [Hi Hk]. destruct (wf_section_lt s _ i (Hr s) Hi) as (o & Ho & Hwo).
    apply wf_set_section; [done|]. fold (handleSectionChange r s i k v p).
    pose proof (handleSectionChange_dense r p s i k v o (proj1 (Hr s)) Ho) as Heq.
    unfold handleSectionChange in Heq. rewrite get_section_set_section_eq in Heq.
    rewrite Heq. apply wf_section_insert; [apply Hr|]. by apply wf_entry_set.
  - apply wf_set_section; [done|]. rewrite spread_dense by apply Hp.
    by apply wf_section_snoc.
  - apply wf_set_section; [done|].
    rewrite filter_index_ne_delete by apply Hr. apply wf_section_delete, Hr.
Qed.

#[global] Instance editor_inv : ComponentInv wf.
Proof. split; [apply wf_initial | apply handle_wf]. Qed.

End preservation.

(** ** The invariant of the event loop *)

(** C4: every record the event loop of the editor renders is well-formed,
    whether it renders after each event or after several: each section is
    an array without holes whose entries have the keys of the section.  So
    is the record the next render shows, before and after the handler of any
    valid event has run. *)
Theorem editor_reachable_wf (c : cell ResumeData) :
  reachable c →
  wf (rendered c) ∧ wf (flush c) ∧
  ∀ e, valid (rendered c) e → wf (flush (setState (handle (rendered c) e) c)).
Proof.
  intros Hc. destruct (reachable_inv wf c Hc) as [Hr Hf]. split_and!; [done..|].
  intros e He. rewrite flush_setState. by apply handle_wf.
Qed.

Lemma editor_reachable_wf_witness :
  wf (flush (dispatch (SectionChange education 0 Key.degree "BSc")
    (dispatch (AddItem education (blank_item education)) (mount initialResumeData)))).
Proof.
  refine (proj1 (proj2 (editor_reachable_wf _ _))).
  eapply rtc_l.
  - apply (step_dispatch _ (AddItem education (blank_item education))). reflexivity.
  - apply rtc_once, (step_dispatch _ (SectionChange education 0 Key.degree "BSc")).
    split; [simpl; lia|]. by apply (bool_decide_unpack _).
Defined.
