(* ===== verification/EditorView.v ===== *)
(** * The form of [ResumeEditor]

    The JSX of [ResumeEditor] ([src/src/app.js], lines 153-301) as the
    sequence of controls it renders, in document order.  A control is an
    [Input], a [Textarea] or a [Button] (the components of lines 12-69) with
    the props the form passes: label, name, value, placeholder and the
    callback.  A callback is the event it dispatches, as [Editor.handle]
    takes it; [e.target.name] is the [name] prop of the control, so the
    [onChange] callback of a control is a function of the text typed.

    The layout (class names, icons, headings) is left out.  The repeated
    sections are rendered by [Array.prototype.map], which skips holes and
    throws on an [undefined] element when the first property of the entry is
    read.

    The theorems say which events the form of a well-formed record can
    issue, which justifies [Editor.valid]; that a field shows what the record
    holds and, once typed into, what was typed; and that the [id]s of the
    controls are not unique. *)

From stdpp Require Import base tactics option list strings.
From S2P Require Import Prelude JsArray ResumeData React Editor.

(** ** Controls *)

(** What a press of a button calls. *)
Inductive click : Type :=
| Dispatch (e : event)
| ExportPDF.

(** [Input] (lines 12-34), [Textarea] (lines 36-53) and [Button] (lines
    55-69) with their props.  [value] is [undefined] when the entry lacks the
    key; [rows] defaults to 4; the bin buttons have an icon and no
    [children]; [variant] defaults to ['primary']. *)
Inductive control : Type :=
| Input (label name : string) (value : option string) (placeholder : string)
    (onChange : string → event)
| Textarea (label name : string) (value : option string) (placeholder : string)
    (rows : nat) (onChange : string → event)
| Button (children : option string) (variant : string) (onClick : click).

(** The [id] attribute of the element a control renders (lines 24 and 43):
    the [name] prop. *)
Definition control_id (c : control) : option string :=
  match c with
  | Input _ name _ _ _ | Textarea _ name _ _ _ _ => Some name
  | Button _ _ _ => None
  end.

Definition control_value (c : control) : option string :=
  match c with
  | Input _ _ value _ _ | Textarea _ _ value _ _ _ => value
  | Button _ _ _ => None
  end.

(** The name of a text field of the record, as the [name] prop has it. *)
Definition scalar_to_string (n : scalar_name) : string :=
  match n with
  | fullName => "fullName"
  | email => "email"
  | phone => "phone"
  | website => "website"
  | summary => "summary"
  | skills => "skills"
  end.

(** ** The form *)

Section form.
Context (resumeData : ResumeData).

(** Lines 163-166. *)
Definition personal_details : list control := [
  Input "Full Name" "fullName" (Some (r_fullName resumeData)) "Jane Doe"
    (Change fullName);
  Input "Email Address" "email" (Some (r_email resumeData)) "jane.doe@example.com"
    (Change email);
  Input "Phone Number" "phone" (Some (r_phone resumeData)) "(123) 456-7890"
    (Change phone);
  Input "Website / Portfolio" "website" (Some (r_website resumeData))
    "github.com/janedoe" (Change website)].

(** Line 172. *)
Definition summary_field : list control := [
  Textarea "Summary" "summary" (Some (r_summary resumeData))
    "A brief 2-3 sentence summary..." 4 (Change summary)].

(** Lines 290-297. *)
Definition skills_field : list control := [
  Textarea "Skills" "skills" (Some (r_skills resumeData))
    "e.g., JavaScript, React, Node.js, Python, SQL, Git" 3 (Change skills)].

End form.

(** Lines 179-186. *)
Definition education_entry (index : nat) (edu : obj) : list control := [
  Input "Degree / Certificate" "degree" (obj_get edu Key.degree)
    "B.S. in Computer Science" (SectionChange education index Key.degree);
  Input "Institution" "institution" (obj_get edu Key.institution)
    "University of Technology" (SectionChange education index Key.institution);
  Input "Graduation Date" "date" (obj_get edu Key.date) "May 2019"
    (SectionChange education index Key.date);
  Button None "ghost" (Dispatch (RemoveItem education index))].

(** Lines 200-211. *)
Definition experience_entry (index : nat) (exp : obj) : list control := [
  Input "Job Title" "title" (obj_get exp Key.title) "Software Engineer"
    (SectionChange experience index Key.title);
  Input "Company" "company" (obj_get exp Key.company) "Tech Solutions Inc."
    (SectionChange experience index Key.company);
  Input "Location" "location" (obj_get exp Key.location) "San Francisco, CA"
    (SectionChange experience index Key.location);
  Input "Dates" "dates" (obj_get exp Key.dates) "Jan 2020 - Present"
    (SectionChange experience index Key.dates);
  Textarea "Responsibilities" "responsibilities" (obj_get exp Key.responsibilities)
    "Describe your key achievements..." 4
    (SectionChange experience index Key.responsibilities);
  Button None "ghost" (Dispatch (RemoveItem experience index))].

(** Lines 225-236. *)
Definition volunteer_entry (index : nat) (vol : obj) : list control := [
  Input "Role" "role" (obj_get vol Key.role) "Event Coordinator"
    (SectionChange volunteer index Key.role);
  Input "Organization" "organization" (obj_get vol Key.organization)
    "Community Outreach" (SectionChange volunteer index Key.organization);
  Input "Location" "location" (obj_get vol Key.location) "New York, NY"
    (SectionChange volunteer index Key.location);
  Input "Dates" "dates" (obj_get vol Key.dates) "Summer 2019"
    (SectionChange volunteer index Key.dates);
  Textarea "Description" "description" (obj_get vol Key.description)
    "Describe your contributions..." 4
    (SectionChange volunteer index Key.description);
  Button None "ghost" (Dispatch (RemoveItem volunteer index))].

(** Lines 250-257. *)
Definition extracurricular_entry (index : nat) (activity : obj) : list control := [
  Input "Activity Name" "name" (obj_get activity Key.name) "University Coding Club"
    (SectionChange extracurriculars index Key.name);
  Input "Your Role" "role" (obj_get activity Key.role) "President / Member"
    (SectionChange extracurriculars index Key.role);
  Textarea "Description" "description" (obj_get activity Key.description)
    "Describe the activity and your involvement..." 4
    (SectionChange extracurriculars index Key.description);
  Button None "ghost" (Dispatch (RemoveItem extracurriculars index))].

(** Lines 271-278. *)
Definition project_entry (index : nat) (project : obj) : list control := [
  Input "Project Name" "name" (obj_get project Key.name) "AI Resume Builder"
    (SectionChange projects index Key.name);
  Textarea "Description" "description" (obj_get project Key.description)
    "Describe the project..." 4 (SectionChange projects index Key.description);
  Input "Link" "link" (obj_get project Key.link) "github.com/user/project-repo"
    (SectionChange projects index Key.link);
  Button None "ghost" (Dispatch (RemoveItem projects index))].

(** The controls of an entry of each section. *)
Definition entry_controls (s : section_name) : nat → obj → list control :=
  match s with
  | education => education_entry
  | experience => experience_entry
  | volunteer => volunteer_entry
  | extracurriculars => extracurricular_entry
  | projects => project_entry
  end.

(** The property of the entry its JSX reads first (lines 180, 202, 227, 251,
    272): the read that throws when the element is [undefined]. *)
Definition first_read (s : section_name) : Key.t :=
  match s with
  | education => Key.degree
  | experience => Key.title
  | volunteer => Key.role
  | extracurriculars => Key.name
  | projects => Key.name
  end.

(** The text of the "Add" button of each section (lines 191, 216, 241, 262,
    283). *)
Definition add_label (s : section_name) : string :=
  match s with
  | education => "Add Education"
  | experience => "Add Experience"
  | volunteer => "Add Volunteer Role"
  | extracurriculars => "Add Activity"
  | projects => "Add Project"
  end.

(** The object literal the "Add" button of each section passes to
    [handleAddItem] (lines 190, 215, 240, 261, 282). *)
Definition add_item (s : section_name) : obj :=
  match s with
  | education => [(Key.degree, ""); (Key.institution, ""); (Key.date, "")]
  | experience =>
      [(Key.title, ""); (Key.company, ""); (Key.location, ""); (Key.dates, "");
       (Key.responsibilities, "")]
  | volunteer =>
      [(Key.role, ""); (Key.organization, ""); (Key.location, ""); (Key.dates, "");
       (Key.description, "")]
  | extracurriculars => [(Key.name, ""); (Key.role, ""); (Key.description, "")]
  | projects => [(Key.name, ""); (Key.description, ""); (Key.link, "")]
  end.

(** A repeated section of the form (lines 175-194, 196-219, 221-244,
    246-265, 267-286): the controls of its entries, then its "Add"
    button. *)
Definition section_controls (resumeData : ResumeData) (s : section_name) :
    result (list control) :=
  blocks ← amap (Key.to_string (first_read s)) (entry_controls s)
              (get_section resumeData s);
  Ok (concat (items blocks) ++
      [Button (Some (add_label s)) "primary" (Dispatch (AddItem s (add_item s)))]).

(** The form (lines 153-301), in document order. *)
Definition ResumeEditor (resumeData : ResumeData) : result (list control) :=
  edu ← section_controls resumeData education;
  exp ← section_controls resumeData experience;
  vol ← section_controls resumeData volunteer;
  ext ← section_controls resumeData extracurriculars;
  proj ← section_controls resumeData projects;
  Ok ([Button (Some "Export PDF") "primary" ExportPDF] ++
      personal_details resumeData ++ summary_field resumeData ++
      edu ++ exp ++ vol ++ ext ++ proj ++ skills_field resumeData).

(** ** What the form can issue *)

(** The control [c] can issue the event [e]. *)
Definition issues (c : control) (e : event) : Prop :=
  match c with
  | Input _ _ _ _ onChange | Textarea _ _ _ _ _ onChange => ∃ v, onChange v = e
  | Button _ _ (Dispatch e') => e' = e
  | Button _ _ ExportPDF => False
  end.

Definition offers (cs : list control) (e : event) : Prop := Exists (λ c, issues c e) cs.

(** The events on section [s] the form of a record can issue. *)
Definition section_event (r : ResumeData) (s : section_name) (e : event) : Prop :=
  match e with
  | Change _ _ => False
  | SectionChange s' i k _ => s' = s ∧ i < length (get_section r s) ∧ k ∈ schema s
  | AddItem s' item => s' = s ∧ item = blank_item s
  | RemoveItem s' i => s' = s ∧ i < length (get_section r s)
  end.

(** The events of the form of a record: any text field can change; a field
    of an entry can change, and an entry can be removed, at the indices of
    its section; the entry added is the blank entry of the section. *)
Definition form_event (r : ResumeData) (e : event) : Prop :=
  match e with
  | Change _ _ => True
  | SectionChange s i k _ => i < length (get_section r s) ∧ k ∈ schema s
  | AddItem s item => item = blank_item s
  | RemoveItem s i => i < length (get_section r s)
  end.

#[global] Instance form_event_dec r e : Decision (form_event r e).
Proof. destruct e; simpl; apply _. Defined.

(** The text control [c] issues [e] when the empty text is typed. *)
Definition clears_to (e : event) (c : control) : bool :=
  match c with
  | Input _ _ _ _ onChange | Textarea _ _ _ _ _ onChange => bool_decide (onChange "" = e)
  | Button _ _ _ => false
  end.

(** The first control of the form that edits key [k] of entry [i] of section
    [s]. *)
Definition entry_field (cs : list control) (s : section_name) (i : nat) (k : Key.t) :
    option control :=
  List.find (clears_to (SectionChange s i k "")) cs.

(** The [id]s of the elements of the form. *)
Definition ids (cs : list control) : list string := omap control_id cs.

(** ** Lemmas on [offers] *)

Section offers_lemmas.
Implicit Types (cs ds : list control) (c : control) (e : event) (r : ResumeData)
  (s : section_name) (i : nat) (o : obj) (k : Key.t) (l : list obj).

Lemma offers_nil e : offers [] e ↔ False.
Proof. apply Exists_nil. Qed.

Lemma offers_cons c cs e : offers (c :: cs) e ↔ issues c e ∨ offers cs e.
Proof. apply Exists_cons. Qed.

Lemma offers_app cs ds e : offers (cs ++ ds) e ↔ offers cs e ∨ offers ds e.
Proof. apply Exists_app. Qed.

Lemma offers_concat (css : list (list control)) e :
  offers (concat css) e ↔ ∃ cs, cs ∈ css ∧ offers cs e.
Proof.
  induction css as [|cs css IH]; simpl.
  - rewrite offers_nil. split; [done|]. by intros (cs & ?%elem_of_nil & _).
  - rewrite offers_app, IH. setoid_rewrite elem_of_cons. naive_solver.
Qed.

Lemma offers_concat_imap (f : nat → obj → list control) l e :
  offers (concat (imap f l)) e ↔ ∃ i o, l !! i = Some o ∧ offers (f i o) e.
Proof.
  rewrite offers_concat. split.
  - intros (cs & (i & o & -> & Hi)%elem_of_lookup_imap & He). eauto.
  - intros (i & o & Hi & He). exists (f i o). split; [|done].
    apply elem_of_lookup_imap. eauto.
Qed.

(** The "Add" button of a section passes the blank entry of the schema. *)
Lemma add_item_blank s : add_item s = blank_item s.
Proof. by destruct s. Qed.

End offers_lemmas.

#[export] Hint Rewrite offers_nil offers_cons offers_app : resume.

(** ** The events of the form *)

Section events.
Implicit Types (cs : list control) (e : event) (r : ResumeData)
  (s : section_name) (i : nat) (o : obj) (k : Key.t) (l : list obj) (v : string).

Lemma schema_cases s k :
  k ∈ schema s ↔
  match s with
  | education => k = Key.degree ∨ k = Key.institution ∨ k = Key.date
  | experience =>
      k = Key.title ∨ k = Key.company ∨ k = Key.location ∨ k = Key.dates ∨
      k = Key.responsibilities
  | volunteer =>
      k = Key.role ∨ k = Key.organization ∨ k = Key.location ∨ k = Key.dates ∨
      k = Key.description
  | extracurriculars => k = Key.name ∨ k = Key.role ∨ k = Key.description
  | projects => k = Key.name ∨ k = Key.description ∨ k = Key.link
  end.
Proof.
  destruct s; unfold schema; simpl; rewrite !elem_of_cons, elem_of_nil; naive_solver.
Qed.

(** What the controls of an entry issue: a change of each key of the
    schema, with any text, and the removal of the entry. *)
Lemma offers_entry s i o e :
  offers (entry_controls s i o) e ↔
  (∃ k v, k ∈ schema s ∧ e = SectionChange s i k v) ∨ e = RemoveItem s i.
Proof.
  setoid_rewrite schema_cases.
  destruct s; simpl; unfold education_entry, experience_entry, volunteer_entry,
    extracurricular_entry, project_entry;
    rewrite ?offers_cons, offers_nil; simpl; (split; [intros H|intros [(k & v & H & ->)| ->]]);
    destruct_or?; try destruct H as [v <-]; subst; try done;
    try (left; refine (ex_intro _ _ (ex_intro _ _ (conj _ eq_refl)))); eauto 12.
Qed.

Lemma section_controls_of_list r s l :
  get_section r s = of_list l →
  section_controls r s =
    Ok (concat (imap (entry_controls s) l) ++
        [Button (Some (add_label s)) "primary" (Dispatch (AddItem s (add_item s)))]).
Proof.
  intros Hl. unfold section_controls. rewrite Hl, amap_of_list. simpl.
  by rewrite items_of_list.
Qed.

(** The events of a repeated section without holes. *)
Lemma offers_section r s cs e :
  dense (get_section r s) → section_controls r s = Ok cs →
  offers cs e ↔ section_event r s e.
Proof.
  intros Hd Hcs. pose proof (dense_items _ Hd) as Hl.
  rewrite (section_controls_of_list r s _ Hl) in Hcs. injection Hcs as <-.
  unfold section_event. rewrite <-(dense_length_items _ Hd).
  rewrite offers_app, offers_concat_imap, offers_cons, offers_nil. simpl.
  setoid_rewrite offers_entry. rewrite add_item_blank. split.
  - intros [(i & o & Hi%lookup_lt_Some & [(k & v & Hk & ->)| ->])|[<-|[]]]; eauto.
  - destruct e as [n v|s' i k v|s' item|s' i]; [done|..].
    + intros (-> & [o Hi]%lookup_lt_is_Some & Hk). left. eauto 10.
    + intros [-> ->]. eauto.
    + intros (-> & [o Hi]%lookup_lt_is_Some). left. eauto 10.
Qed.

Lemma section_controls_dense r s :
  dense (get_section r s) → ∃ cs, section_controls r s = Ok cs.
Proof. intros Hd. rewrite (section_controls_of_list r s _ (dense_items _ Hd)). eauto. Qed.

Lemma offers_scalars r e :
  offers (personal_details r) e ∨ offers (summary_field r) e ∨ offers (skills_field r) e ↔
  ∃ n v, e = Change n v.
Proof.
  unfold personal_details, summary_field, skills_field.
  rewrite !offers_cons, !offers_nil. simpl. split.
  - intros H. destruct_or?; try destruct H as [v <-]; try done; eauto.
  - intros ([] & v & ->); eauto 10.
Qed.

Lemma form_event_cases r e :
  form_event r e ↔
  (∃ n v, e = Change n v) ∨ section_event r education e ∨ section_event r experience e ∨
  section_event r volunteer e ∨ section_event r extracurriculars e ∨
  section_event r projects e.
Proof.
  destruct e as [n v|s i k v|s item|s i]; simpl.
  - split; eauto.
  - split; [destruct s; tauto|]. intros [(? & ? & [=])|H]. destruct_or?; by destruct H as [-> ?].
  - split; [destruct s; tauto|]. intros [(? & ? & [=])|H]. destruct_or?; by destruct H as [-> ?].
  - split; [destruct s; tauto|]. intros [(? & ? & [=])|H]. destruct_or?; by destruct H as [-> ?].
Qed.

End events.

(** ** The form of a record *)

Section form_view.
Implicit Types (cs : list control) (e : event) (r : ResumeData)
  (s : section_name) (i : nat) (o : obj) (k : Key.t) (v : string).

(** The form of a record whose sections have no holes. *)
Lemma ResumeEditor_dense r :
  (∀ s, dense (get_section r s)) →
  ∃ edu exp vol ext proj,
    section_controls r education = Ok edu ∧ section_controls r experience = Ok exp ∧
    section_controls r volunteer = Ok vol ∧
    section_controls r extracurriculars = Ok ext ∧
    section_controls r projects = Ok proj ∧
    ResumeEditor r = Ok ([Button (Some "Export PDF") "primary" ExportPDF] ++
      personal_details r ++ summary_field r ++
      edu ++ exp ++ vol ++ ext ++ proj ++ skills_field r).
Proof.
  intros Hd. unfold ResumeEditor.
  destruct (section_controls_dense r education (Hd _)) as [edu Hedu].
  destruct (section_controls_dense r experience (Hd _)) as [exp Hexp].
  destruct (section_controls_dense r volunteer (Hd _)) as [vol Hvol].
  destruct (section_controls_dense r extracurriculars (Hd _)) as [ext Hext].
  destruct (section_controls_dense r projects (Hd _)) as [proj Hproj].
  exists edu, exp, vol, ext, proj. by rewrite Hedu, Hexp, Hvol, Hext, Hproj.
Qed.

(** What a form that renders is made of. *)
Lemma ResumeEditor_inv r cs :
  ResumeEditor r = Ok cs →
  ∃ edu exp vol ext proj,
    section_controls r education = Ok edu ∧ section_controls r experience = Ok exp ∧
    section_controls r volunteer = Ok vol ∧
    section_controls r extracurriculars = Ok ext ∧
    section_controls r projects = Ok proj ∧
    cs = [Button (Some "Export PDF") "primary" ExportPDF] ++
      personal_details r ++ summary_field r ++
      edu ++ exp ++ vol ++ ext ++ proj ++ skills_field r.
Proof.
  unfold ResumeEditor.
  destruct (section_controls r education) as [edu|]; [|done].
  destruct (section_controls r experience) as [exp|]; [|done].
  destruct (section_controls r volunteer) as [vol|]; [|done].
  destruct (section_controls r extracurriculars) as [ext|]; [|done].
  destruct (section_controls r projects) as [proj|]; [|done].
  intros [= <-]. by exists edu, exp, vol, ext, proj.
Qed.

(** The form of a record whose sections have no holes renders, and its
    controls issue exactly the events of [form_event]. *)
Lemma ResumeEditor_offers r :
  (∀ s, dense (get_section r s)) →
  ∃ cs, ResumeEditor r = Ok cs ∧ ∀ e, offers cs e ↔ form_event r e.
Proof.
  intros Hd.
  destruct (ResumeEditor_dense r Hd) as (edu & exp & vol & ext & proj & H1 & H2 & H3 & H4 & H5 & ->).
  eexists. split; [done|]. intros e.
  pose proof (offers_scalars r e) as Hs.
  pose proof (offers_section r _ _ e (Hd _) H1).
  pose proof (offers_section r _ _ e (Hd _) H2).
  pose proof (offers_section r _ _ e (Hd _) H3).
  pose proof (offers_section r _ _ e (Hd _) H4).
  pose proof (offers_section r _ _ e (Hd _) H5).
  rewrite form_event_cases, !offers_app, offers_cons, offers_nil. simpl. tauto.
Qed.

Lemma form_event_valid r e : form_event r e → valid r e.
Proof.
  destruct e as [n v|s i k v|s item|s i]; simpl; [done..| |done].
  intros ->. apply wf_entry_blank.
Qed.

(** C6: the form of a well-formed record renders, and the events its
    controls can issue are exactly: a change of any text field, a change of a
    key of the schema at an index of a section, the removal of the entry at
    an index of a section, and the addition of the blank entry of a section.
    Each of them satisfies the precondition of its handler
    ([Editor.valid]). *)
Theorem form_events r :
  wf r →
  ∃ cs, ResumeEditor r = Ok cs ∧ (∀ e, offers cs e ↔ form_event r e) ∧
        (∀ e, offers cs e → valid r e).
Proof.
  intros Hr. destruct (ResumeEditor_offers r) as (cs & Hcs & Hiff).
  { intros s. apply Hr. }
  exists cs. split_and!; [done..|]. intros e He. by apply form_event_valid, Hiff.
Qed.

End form_view.

Lemma form_events_witness :
  ∃ cs, ResumeEditor initialResumeData = Ok cs ∧
        (∀ e, offers cs e ↔ form_event initialResumeData e) ∧
        (∀ e, offers cs e → valid initialResumeData e).
Proof. apply form_events, wf_initial. Defined.

(** ** What a field shows *)

Section fields.
Implicit Types (cs : list control) (c : control) (e : event) (r : ResumeData)
  (s t : section_name) (i j : nat) (o : obj) (k : Key.t) (v w : string).

(** A control of an entry that edits a key shows the value of that key and
    has the key as [id]; it edits its own entry. *)
Lemma entry_control_edits s i o c t j k v :
  c ∈ entry_controls s i o → issues c (SectionChange t j k v) →
  t = s ∧ j = i ∧ control_value c = obj_get o k ∧
  control_id c = Some (Key.to_string k).
Proof.
  destruct s; simpl; unfold education_entry, experience_entry, volunteer_entry,
    extracurricular_entry, project_entry; rewrite !elem_of_cons, elem_of_nil;
    intros Hc; destruct_or?; subst; simpl; try done; by intros [w [= <- <- <-]].
Qed.

Lemma scalar_control_edits r c t j k v :
  c ∈ personal_details r ++ summary_field r ++ skills_field r →
  ¬ issues c (SectionChange t j k v).
Proof.
  unfold personal_details, summary_field, skills_field. simpl.
  rewrite !elem_of_cons, elem_of_nil.
  intros Hc; destruct_or?; subst; simpl; try done; by intros [w [=]].
Qed.

Lemma section_control_edits r s cs c t j k v :
  section_controls r s = Ok cs → c ∈ cs → issues c (SectionChange t j k v) →
  ∃ o, get_section r s !! j = Some (Item o) ∧ t = s ∧
       control_value c = obj_get o k ∧ control_id c = Some (Key.to_string k).
Proof.
  unfold section_controls. intros Hcs Hc He.
  destruct (amap _ _ _) as [blocks|] eqn:Hb; [|done]. injection Hcs as <-.
  apply elem_of_app in Hc as [Hc|Hc%list_elem_of_singleton]; [|by subst].
  apply elem_of_concat in Hc as (b & Hc & Hb').
  destruct (amap_items_lookup _ _ _ _ _ Hb Hb') as (i & o & Hi & ->).
  destruct (entry_control_edits _ _ _ _ _ _ _ _ Hc He) as (-> & -> & Hv & Hid).
  eauto.
Qed.

Lemma section_controls_ok_iff r s :
  is_ok (section_controls r s) = true ↔ Undefined ∉ get_section r s.
Proof.
  unfold section_controls. rewrite is_ok_bind.
  rewrite <-(amap_ok_iff (Key.to_string (first_read s)) (entry_controls s)), is_ok_true.
  split; [intros (b & Hb & _)|intros (b & Hb)]; eauto.
Qed.

(** A control of the form that edits key [k] of entry [i] of section [s]
    shows the value the record holds there and has the key as its [id]: the
    fields are controlled by the record. *)
Lemma field_control_record r cs c s i k v :
  ResumeEditor r = Ok cs → c ∈ cs → issues c (SectionChange s i k v) →
  ∃ o, get_section r s !! i = Some (Item o) ∧
       control_value c = obj_get o k ∧ control_id c = Some (Key.to_string k).
Proof.
  intros Hcs Hc He.
  destruct (ResumeEditor_inv r cs Hcs) as (edu & exp & vol & ext & proj & H1 & H2 & H3 & H4 & H5 & ->).
  rewrite !elem_of_app, list_elem_of_singleton in Hc.
  assert (∀ t cs', section_controls r t = Ok cs' → c ∈ cs' → ∃ o,
    get_section r s !! i = Some (Item o) ∧
    control_value c = obj_get o k ∧ control_id c = Some (Key.to_string k)) as Hsec.
  { intros t cs' Ht Hc'.
    destruct (section_control_edits _ _ _ _ _ _ _ _ Ht Hc' He) as (o & ? & -> & ?). eauto. }
  assert (c ∈ personal_details r ++ summary_field r ++ skills_field r → False) as Hsc.
  { intros Hc'. by apply (scalar_control_edits r c _ _ _ _ Hc' He). }
  rewrite !elem_of_app in Hsc.
  destruct Hc as [->|[Hc|[Hc|[Hc|[Hc|[Hc|[Hc|[Hc|Hc]]]]]]]];
    [destruct He|tauto|tauto|exact (Hsec _ _ H1 Hc)|exact (Hsec _ _ H2 Hc)|
     exact (Hsec _ _ H3 Hc)|exact (Hsec _ _ H4 Hc)|exact (Hsec _ _ H5 Hc)|tauto].
Qed.

(** C35: the form throws exactly when a section holds an [undefined]
    element, whose first property the JSX of the entry reads; holes are
    skipped by [map] and render nothing. *)
Theorem ResumeEditor_ok_iff r :
  is_ok (ResumeEditor r) = true ↔ ∀ s, Undefined ∉ get_section r s.
Proof.
  unfold ResumeEditor. rewrite !is_ok_bind. split.
  - intros (edu & H1 & H). apply is_ok_bind in H as (exp & H2 & H).
    apply is_ok_bind in H as (vol & H3 & H). apply is_ok_bind in H as (ext & H4 & H).
    apply is_ok_bind in H as (proj & H5 & _).
    intros s. apply section_controls_ok_iff, is_ok_true. destruct s; eauto.
  - intros Hs.
    pose proof (λ s, proj1 (is_ok_true _) (proj2 (section_controls_ok_iff r s) (Hs s)))
      as Hok.
    destruct (Hok education) as [edu ->], (Hok experience) as [exp ->],
      (Hok volunteer) as [vol ->], (Hok extracurriculars) as [ext ->],
      (Hok projects) as [proj ->]. simpl. eauto.
Qed.

(** C34: after a text is typed into a field of an entry and the form has
    rendered, every control for that key of that entry shows the text
    typed. *)
Theorem field_shows_typed_text r cs c s i k v w :
  wf r → valid r (SectionChange s i k v) →
  ResumeEditor (apply_event r (SectionChange s i k v)) = Ok cs →
  c ∈ cs → issues c (SectionChange s i k w) → control_value c = Some v.
Proof.
  intros Hr [Hi Hk] Hcs Hc He.
  destruct (field_control_record _ _ _ _ _ _ _ Hcs Hc He) as (o' & Ho' & -> & _).
  destruct (wf_section_lt s _ i (Hr s) Hi) as (o & Ho & _).
  unfold apply_event in Ho'. simpl in Ho'.
  rewrite (handleSectionChange_dense r r s i k v o (proj1 (Hr s)) Ho) in Ho'.
  rewrite list_lookup_insert_eq in Ho' by done. injection Ho' as <-.
  apply obj_get_set_eq.
Qed.

End fields.

Lemma field_shows_typed_text_witness :
  control_value (Input "Degree / Certificate" "degree" (Some "BSc")
    "B.S. in Computer Science" (SectionChange education 0 Key.degree)) = Some "BSc".
Proof.
  eapply (field_shows_typed_text initialResumeData _ _ education 0 Key.degree "BSc" "");
    [apply wf_initial|split; [simpl; lia|by apply (bool_decide_unpack _)]|
     reflexivity| |by exists ""].
  do 6 apply list_elem_of_further. apply list_elem_of_here.
Defined.

(** ** The ids of the controls *)

Section ids_lemmas.
Implicit Types (cs ds : list control) (c : control) (r : ResumeData) (x : string).

Lemma ids_app cs ds : ids (cs ++ ds) = ids cs ++ ids ds.
Proof. apply omap_app. Qed.

Lemma NoDup_ids_app_r cs ds : NoDup (ids (cs ++ ds)) → NoDup (ids ds).
Proof. rewrite ids_app. by intros (_ & _ & ?)%NoDup_app. Qed.

(** Two parts of a form with a control of the same [id] each. *)
Lemma ids_clash x cs ds :
  x ∈ ids cs → x ∈ ids ds → ¬ NoDup (ids (cs ++ ds)).
Proof. rewrite ids_app. intros Hc Hd (_ & Hn & _)%NoDup_app. by apply (Hn x). Qed.

(** The first entry of a section puts the ids of its controls on the
    form. *)
Lemma section_ids r s cs x :
  dense (get_section r s) → get_section r s ≠ [] → section_controls r s = Ok cs →
  (∀ o, x ∈ ids (entry_controls s 0 o)) → x ∈ ids cs.
Proof.
  intros Hd Hne Hcs Hx.
  rewrite (section_controls_of_list r s _ (dense_items _ Hd)) in Hcs.
  injection Hcs as <-. rewrite (dense_items _ Hd) in Hne.
  destruct (items (get_section r s)) as [|o l]; [done|]. simpl.
  rewrite <-app_assoc, ids_app, elem_of_app. by left.
Qed.

(** The ids of the controls of an entry are the keys of its section. *)
Lemma ids_entry_controls s i o : ids (entry_controls s i o) = Key.to_string <$> schema s.
Proof. by destruct s. Qed.

Lemma ids_section_controls r s cs x :
  section_controls r s = Ok cs → x ∈ ids cs → x ∈ Key.to_string <$> schema s.
Proof.
  unfold section_controls.
  destruct (amap _ (entry_controls s) (get_section r s)) as [blocks|] eqn:Hb; [|done].
  intros [= <-]. rewrite ids_app, elem_of_app. intros [Hx|Hx]; [|by apply elem_of_nil in Hx].
  unfold ids in Hx. apply list_elem_of_omap in Hx as (c & Hc & Hid).
  apply elem_of_concat in Hc as (block & Hc & Hblock).
  destruct (amap_items_lookup _ _ _ _ _ Hb Hblock) as (i & o & _ & ->).
  rewrite <-(ids_entry_controls s i o). apply list_elem_of_omap. eauto.
Qed.

(** The names of the fields of the form: the [name] props of its text
    controls. *)
Definition field_names : list string :=
  ["fullName"; "email"; "phone"; "website"; "summary"; "skills"] ++
  concat ((λ s, Key.to_string <$> schema s) <$>
          [education; experience; volunteer; extracurriculars; projects]).

Lemma field_names_section s x : x ∈ Key.to_string <$> schema s → x ∈ field_names.
Proof.
  intros Hx. unfold field_names. apply elem_of_app. right. apply elem_of_concat.
  eexists. split; [exact Hx|]. apply list_elem_of_fmap. exists s. split; [done|].
  destruct s; by apply (bool_decide_unpack _).
Qed.

(** Every id of the form is the name of a field. *)
Lemma ids_field_names r cs x : ResumeEditor r = Ok cs → x ∈ ids cs → x ∈ field_names.
Proof.
  intros (edu & exp & vol & ext & proj & H1 & H2 & H3 & H4 & H5 & ->)%ResumeEditor_inv.
  rewrite !ids_app, !elem_of_app.
  intros [Hx|[Hx|[Hx|[Hx|[Hx|[Hx|[Hx|[Hx|Hx]]]]]]]];
    eauto using field_names_section, ids_section_controls.
  all: simpl in Hx;
    repeat (apply elem_of_cons in Hx as [->|Hx]; [by apply (bool_decide_unpack _)|]);
    by apply elem_of_nil in Hx.
Qed.

(** C36: the [id]s of the form are not unique.  An element gets the [name]
    prop as its [id] (lines 24 and 43), and the volunteer entries and the
    activities both have a field named [role]: as soon as both sections have
    an entry, which is the case of the initial form, two elements share the
    id [role], and the [htmlFor] of a label designates the first. *)
Theorem ids_not_unique r cs :
  wf r → get_section r volunteer ≠ [] → get_section r extracurriculars ≠ [] →
  ResumeEditor r = Ok cs → ¬ NoDup (ids cs).
Proof.
  intros Hr Hv Hx Hcs.
  destruct (ResumeEditor_inv r cs Hcs)
    as (edu & exp & vol & ext & proj & _ & _ & H3 & H4 & _ & ->).
  do 5 (intros Hn%NoDup_ids_app_r; revert Hn).
  apply (ids_clash "role").
  - apply (section_ids r volunteer); [apply Hr|done..|]. intros o. apply list_elem_of_here.
  - rewrite ids_app, elem_of_app. left.
    apply (section_ids r extracurriculars); [apply Hr|done..|]. intros o.
    apply list_elem_of_further, list_elem_of_here.
Qed.

End ids_lemmas.

Lemma ids_not_unique_witness :
  ∃ cs, ResumeEditor initialResumeData = Ok cs ∧ ¬ NoDup (ids cs).
Proof.
  eexists. split; [reflexivity|].
  by apply (ids_not_unique initialResumeData); [apply wf_initial|..].
Defined.
