(* ===== verification/ResumeSpec.v ===== *)
(** * The resume model of the specification, and its refinement

    The specification describes the resume as a record of free-text fields
    and, per section, an ordered sequence of entries with a fixed schema,
    mutated by four operations: [updateField], [updateEntry] (which requires
    an index of the section), [addEntry] and [removeEntry].

    Here the record is a pair of functions ([ResumeRecord]), an entry is a
    function from the keys to their values, and two records are equivalent
    ([≡]) when they have the same fields and, section by section, the same
    entries key by key.  The operations respect the equivalence ([Proper]).

    [abs] reads a record of [ResumeData] as a [ResumeRecord].  The
    refinement theorems state that on well-formed records every valid event
    of the editor ([Editor.handle]) is one operation of the specification,
    and that a run of the editor is a run of the specification. *)

From Stdlib Require Import String.
From stdpp Require Import base tactics option list strings functions.
From S2P Require Import Prelude JsArray ResumeData React Editor.

(** ** The record of the specification *)

(** An entry: the value of every key. *)
Abbreviation entry := (Key.t → string).

Record ResumeRecord : Type := mkResumeRecord {
  fields : scalar_name → string;
  entries : section_name → list entry;
}.

(** Entries are compared key by key. *)
Definition entries_equiv : relation (list entry) :=
  Forall2 (pointwise_relation Key.t (=)).

#[global] Instance entries_equiv_equivalence : Equivalence entries_equiv.
Proof. unfold entries_equiv. apply _. Qed.

#[global] Instance record_equiv : Equiv ResumeRecord := λ x y,
  (∀ n, fields x n = fields y n) ∧ (∀ s, entries_equiv (entries x s) (entries y s)).

#[global] Instance record_equivalence : Equivalence (≡@{ResumeRecord}).
Proof.
  split.
  - intros x. split; [done|]. intros s. reflexivity.
  - intros x y [Hf He]. split; [by intros n; rewrite Hf|]. intros s. by symmetry.
  - intros x y z [Hf He] [Hf' He']. split; [by intros n; rewrite Hf|].
    intros s. etrans; [apply He|apply He'].
Qed.

(** ** The operations of the specification *)

Definition set_entries (x : ResumeRecord) (s : section_name) (l : list entry) :
    ResumeRecord :=
  mkResumeRecord (fields x) (<[s := l]> (entries x)).

Definition updateField (n : scalar_name) (v : string) (x : ResumeRecord) : ResumeRecord :=
  mkResumeRecord (<[n := v]> (fields x)) (entries x).

(** Out of range the operation fails. *)
Definition updateEntry (s : section_name) (i : nat) (k : Key.t) (v : string)
    (x : ResumeRecord) : option ResumeRecord :=
  if decide (i < length (entries x s))
  then Some (set_entries x s (alter (λ e : entry, <[k := v]> e) i (entries x s)))
  else None.

Definition addEntry (s : section_name) (e : entry) (x : ResumeRecord) : ResumeRecord :=
  set_entries x s (entries x s ++ [e]).

Definition removeEntry (s : section_name) (i : nat) (x : ResumeRecord) : ResumeRecord :=
  set_entries x s (delete i (entries x s)).

(** ** Abstraction *)

(** The entry an object stands for: a key the object lacks reads as the
    empty text. *)
Definition abs_entry (o : obj) : entry := λ k, default EmptyString (obj_get o k).

Definition abs (r : ResumeData) : ResumeRecord :=
  mkResumeRecord (get_scalar r) (λ s, abs_entry <$> items (get_section r s)).

(** The operation of the specification an event of the editor stands for. *)
Definition spec_step (x : ResumeRecord) (e : event) : option ResumeRecord :=
  match e with
  | Change n v => Some (updateField n v x)
  | SectionChange s i k v => updateEntry s i k v x
  | AddItem s item => Some (addEntry s (abs_entry item) x)
  | RemoveItem s i => Some (removeEntry s i x)
  end.

Fixpoint spec_run (x : ResumeRecord) (es : list event) : option ResumeRecord :=
  match es with
  | [] => Some x
  | e :: es => x' ← spec_step x e; spec_run x' es
  end.

(** ** The operations respect the equivalence *)

Lemma entries_equiv_length l l' : entries_equiv l l' → length l = length l'.
Proof. apply Forall2_length. Qed.

#[global] Instance set_entries_proper :
  Proper ((≡) ==> (=) ==> entries_equiv ==> (≡)) set_entries.
Proof.
  intros x y [Hf He] s ? <- l l' Hl. split; [done|]. intros t. simpl.
  destruct (decide (s = t)) as [->|Hne].
  - by rewrite !fn_lookup_insert.
  - rewrite !fn_lookup_insert_ne by done. apply He.
Qed.

#[global] Instance entries_proper : Proper ((≡) ==> (=) ==> entries_equiv) entries.
Proof. by intros x y [_ He] s ? <-. Qed.

#[global] Instance updateField_proper n v : Proper ((≡) ==> (≡)) (updateField n v).
Proof.
  intros x y [Hf He]. split; [|done]. intros m. simpl.
  destruct (decide (n = m)) as [->|Hne].
  - by rewrite !fn_lookup_insert.
  - by rewrite !fn_lookup_insert_ne.
Qed.

#[global] Instance addEntry_proper s e : Proper ((≡) ==> (≡)) (addEntry s e).
Proof.
  intros x y Hxy. unfold addEntry. apply set_entries_proper; [done..|].
  apply Forall2_app; [by apply entries_proper|]. by apply Forall2_cons.
Qed.

#[global] Instance removeEntry_proper s i : Proper ((≡) ==> (≡)) (removeEntry s i).
Proof.
  intros x y Hxy. unfold removeEntry. apply set_entries_proper; [done..|].
  apply Forall2_delete. by apply entries_proper.
Qed.

#[global] Instance updateEntry_proper s i k v : Proper ((≡) ==> (≡)) (updateEntry s i k v).
Proof.
  intros x y Hxy. unfold updateEntry.
  pose proof (entries_proper x y Hxy s s eq_refl) as Hl.
  rewrite (entries_equiv_length _ _ Hl). case_decide; [|done].
  constructor. apply set_entries_proper; [done..|].
  apply Forall2_alter; [done|]. intros e e' _ _ He k'.
  destruct (decide (k = k')) as [->|Hne].
  - by rewrite !fn_lookup_insert.
  - rewrite !fn_lookup_insert_ne by done. apply He.
Qed.

#[global] Instance spec_step_proper : Proper ((≡) ==> (=) ==> (≡)) spec_step.
Proof.
  intros x y Hxy e ? <-. destruct e; simpl.
  - constructor. by apply updateField_proper.
  - by apply updateEntry_proper.
  - constructor. by apply addEntry_proper.
  - constructor. by apply removeEntry_proper.
Qed.

#[global] Instance spec_run_proper : Proper ((≡) ==> (=) ==> (≡)) spec_run.
Proof.
  intros x y Hxy es ? <-. revert x y Hxy.
  induction es as [|e es IH]; intros x y Hxy; simpl; [by constructor|].
  pose proof (spec_step_proper x y Hxy e e eq_refl) as Hs.
  destruct Hs as [x' y' Hxy'|]; simpl; [by apply IH|constructor].
Qed.

(** ** Refinement *)

Section refinement.
Implicit Types (r : ResumeData) (s t : section_name) (i : nat) (k : Key.t)
  (v : string) (o item : obj) (l : list obj) (a : array obj) (x : ResumeRecord).

Lemma abs_entry_set o k v :
  pointwise_relation Key.t (=) (abs_entry (obj_set o k v)) (<[k := v]> (abs_entry o)).
Proof.
  intros k'. unfold abs_entry. destruct (decide (k = k')) as [->|Hne].
  - by rewrite fn_lookup_insert, obj_get_set_eq.
  - by rewrite fn_lookup_insert_ne, obj_get_set_ne.
Qed.

Lemma items_insert l i o : items (<[i := Item o]> (of_list l)) = <[i := o]> l.
Proof. unfold of_list. rewrite <-list_fmap_insert. apply (items_of_list (<[i:=o]> l)). Qed.

Lemma items_delete l i : items (delete i (of_list l)) = delete i l.
Proof. unfold of_list. rewrite <-list_fmap_delete. apply (items_of_list (delete i l)). Qed.

Lemma items_snoc a o : items (a ++ [Item o]) = items a ++ [o].
Proof. unfold items. by rewrite omap_app. Qed.

(** Writing a section of the record writes the entries of that section. *)
Lemma abs_set_section r s a (es : list entry) :
  entries_equiv (abs_entry <$> items a) es →
  abs (set_section r s a) ≡ set_entries (abs r) s es.
Proof.
  intros Ha. split; simpl.
  - intros n. apply get_scalar_set_section.
  - intros t. rewrite get_section_set_section.
    destruct (decide (s = t)) as [->|Hne].
    + by rewrite fn_lookup_insert.
    + rewrite fn_lookup_insert_ne by done. reflexivity.
Qed.

Lemma refine_Change p n v : abs (handleChange n v p) ≡ updateField n v (abs p).
Proof.
  split; simpl.
  - intros m. unfold handleChange. rewrite get_scalar_set_scalar.
    destruct (decide (n = m)) as [->|Hne].
    + by rewrite fn_lookup_insert.
    + by rewrite fn_lookup_insert_ne.
  - intros s. unfold handleChange. rewrite get_section_set_scalar. reflexivity.
Qed.

Lemma refine_AddItem p s item :
  abs (handleAddItem s item p) ≡ addEntry s (abs_entry item) (abs p).
Proof.
  apply abs_set_section. rewrite items_snoc, items_spread, fmap_app. reflexivity.
Qed.

Lemma refine_RemoveItem r s i :
  dense (get_section r s) →
  abs (handleRemoveItem r s i r) ≡ removeEntry s i (abs r).
Proof.
  intros Hd. apply abs_set_section. rewrite filter_index_ne_delete by done.
  rewrite (dense_items _ Hd) at 1. rewrite items_delete, list_fmap_delete.
  reflexivity.
Qed.

Lemma refine_SectionChange r s i k v :
  dense (get_section r s) → i < length (get_section r s) →
  ∃ x, updateEntry s i k v (abs r) = Some x ∧
       abs (handleSectionChange r s i k v r) ≡ x.
Proof.
  intros Hd Hi. unfold updateEntry. simpl.
  rewrite length_fmap, dense_length_items by done. rewrite decide_True by done.
  eexists; split; [done|]. apply abs_set_section.
  rewrite read_spread, spread_dense by done. rewrite assign_lt by done.
  rewrite (dense_items _ Hd) in Hi |- *. rewrite length_of_list in Hi.
  destruct (lookup_lt_is_Some_2 _ _ Hi) as [o Ho].
  rewrite read_of_list, Ho. simpl. rewrite items_insert, items_of_list.
  rewrite list_fmap_insert. apply Forall2_lookup. intros j.
  rewrite list_lookup_alter. destruct (decide (i = j)) as [<-|Hne].
  - rewrite list_lookup_insert_eq by (by rewrite length_fmap).
    rewrite list_lookup_fmap, Ho. simpl. constructor. apply abs_entry_set.
  - rewrite list_lookup_insert_ne by done. reflexivity.
Qed.

(** Every valid event of the editor, issued on a well-formed record that is
    current, is the operation of the specification it stands for. *)
Lemma refine_step r e :
  wf r → valid r e →
  ∃ x, spec_step (abs r) e = Some x ∧ abs (apply_event r e) ≡ x.
Proof.
  intros Hr He. destruct e as [n v|s i k v|s item|s i]; simpl in *.
  - eexists; split; [reflexivity|]. apply refine_Change.
  - apply refine_SectionChange; [apply Hr|apply He].
  - eexists; split; [reflexivity|]. apply refine_AddItem.
  - eexists; split; [reflexivity|]. apply refine_RemoveItem, Hr.
Qed.

(** C5: a run of the editor from a well-formed record, each event valid when
    it is issued and the component rendering after each, is a run of the
    specification: every operation succeeds, and the record the editor
    reaches stands for the record the specification reaches. *)
Theorem editor_refines_spec r es :
  wf r → issued r es →
  ∃ x, spec_run (abs r) es = Some x ∧ abs (run r es) ≡ x.
Proof.
  revert r. induction es as [|e es IH]; intros r Hr Hes.
  - by exists (abs r).
  - destruct Hes as [He Hes]. simpl.
    destruct (refine_step r e Hr He) as (x1 & -> & Hx1). simpl.
    destruct (IH (apply_event r e)) as (x2 & Hrun & Hx2); [by apply handle_wf|done|].
    pose proof (spec_run_proper _ _ Hx1 es es eq_refl) as Hp.
    rewrite Hrun in Hp. inversion Hp as [? x3 Hx3|]; subst.
    exists x3. split; [done|]. by etrans.
Qed.

Lemma editor_refines_spec_witness :
  ∃ x, spec_run (abs initialResumeData)
         [AddItem projects (blank_item projects);
          SectionChange projects 1 Key.name "resume builder";
          RemoveItem projects 0; Change fullName "Jane Doe"] = Some x ∧
       abs (run initialResumeData
         [AddItem projects (blank_item projects);
          SectionChange projects 1 Key.name "resume builder";
          RemoveItem projects 0; Change fullName "Jane Doe"]) ≡ x.
Proof.
  apply editor_refines_spec; [apply wf_initial|].
  simpl. split_and!; try done; [simpl; lia|by apply (bool_decide_unpack _)].
Defined.

End refinement.
