(* ===== verification/Dom.v ===== *)
(** * The tree a component renders

    A React component returns elements: a tag, attributes and children.  The
    model keeps the tree that reaches the document: a child that React does
    not render ([false], [undefined], the empty string) is absent, a
    fragment is spliced into its parent, and an array of children
    contributes its elements without its holes.

    The queries at the end read a tree the way a test of the interface
    would: the text of a node, the descendants with a given tag, the text of
    the first heading, and the element with a given id, the way
    [document.getElementById] finds it. *)

From Stdlib Require Import String Ascii.
From stdpp Require Import base tactics option list strings.
From S2P Require Import Prelude JsArray.


(** ** Trees *)

(** The attributes the source sets.  [Key] is React's [key], [Style] the
    object given as [style], [InputType] the attribute [type], [On] an event
    listener ([onClick], [onChange], [onSubmit]) with the name of the
    function it calls. *)
Inductive attr : Type :=
| Key (index : nat)
| Id (id : string)
| ClassName (classes : string)
| Href (url : string)
| Style (css : list (string * string))
| InputType (type : string)
| Name (name : string)
| Value (value : string)
| Placeholder (placeholder : string)
| Rows (rows : nat)
| Accept (accept : string)
| HtmlFor (id : string)
| Disabled (disabled : bool)
| Ref (ref : string)
| On (event listener : string).

Inductive node : Type :=
| Text (s : string)
| Elem (tag : string) (attrs : list attr) (children : list node).

#[global] Instance attr_eq_dec : EqDecision attr.
Proof. solve_decision. Defined.

(** ** Children, as JSX writes them *)

(** [{s}]: a text, absent when the string is empty. *)
Definition text (s : string) : list node :=
  if truthy s then [Text s] else [].

(** [{o.k}] where the property may be missing. *)
Definition text_opt (o : option string) : list node :=
  match o with
  | Some s => text s
  | None => []
  end.

(** [{c && <.../>}] for a condition already evaluated. *)
Definition when (c : bool) (ns : list node) : list node :=
  if c then ns else [].

(** [{a.map(...)}]: the elements of the array of children. *)
Definition children_of_array (a : array node) : list node := items a.

(** ** Queries *)

Fixpoint text_content (n : node) : string :=
  match n with
  | Text s => s
  | Elem _ _ cs =>
      (fix go (cs : list node) : string :=
         match cs with
         | [] => ""
         | c :: cs => text_content c +:+ go cs
         end) cs
  end.

Definition texts (ns : list node) : string :=
  foldr (λ n s, text_content n +:+ s) "" ns.

Definition tag_of (n : node) : option string :=
  match n with
  | Text _ => None
  | Elem tag _ _ => Some tag
  end.

Definition has_tag (tag : string) (n : node) : bool :=
  bool_decide (tag_of n = Some tag).

Definition children (n : node) : list node :=
  match n with
  | Text _ => []
  | Elem _ _ cs => cs
  end.

Definition attrs_of (n : node) : list attr :=
  match n with
  | Text _ => []
  | Elem _ a _ => a
  end.

(** React's [key] of an element, if it has one. *)
Definition key_of (n : node) : option nat :=
  head (omap (λ a, match a with Key index => Some index | _ => None end) (attrs_of n)).

(** The children of [n] with the given tag. *)
Definition children_tagged (tag : string) (n : node) : list node :=
  filter (λ c, has_tag tag c = true) (children n).

(** The text of the first child with the given tag. *)
Definition heading (tag : string) (n : node) : option string :=
  text_content <$> head (children_tagged tag n).

(** The elements of [ns] and their descendants whose [id] is [id], in
    document order; [find] is the search in one tree. *)
Definition find_in (find : node → option node) (ns : list node) : option node :=
  foldr (λ n rest, match find n with Some m => Some m | None => rest end) None ns.

(** [document.getElementById(id)] in the tree [n]: the first element in
    document order that has the id, if any. *)
Fixpoint getElementById (id : string) (n : node) : option node :=
  match n with
  | Text _ => None
  | Elem _ attrs cs =>
      if bool_decide (Id id ∈ attrs) then Some n
      else (fix go (cs : list node) : option node :=
              match cs with
              | [] => None
              | c :: cs =>
                  match getElementById id c with
                  | Some m => Some m
                  | None => go cs
                  end
              end) cs
  end.

(** The ids of a tree, in document order. *)
Definition id_attrs (attrs : list attr) : list string :=
  omap (λ a, match a with Id id => Some id | _ => None end) attrs.

Fixpoint ids_of (n : node) : list string :=
  match n with
  | Text _ => []
  | Elem _ attrs cs =>
      id_attrs attrs ++
      (fix go (cs : list node) : list string :=
         match cs with
         | [] => []
         | c :: cs => ids_of c ++ go cs
         end) cs
  end.

(** The targets of the links of a tree that point into the page: the
    fragment of every [href] that starts with [#]. *)
Definition fragment (a : attr) : option string :=
  match a with
  | Href (String "#"%char id) => Some id
  | _ => None
  end.

Fixpoint fragments_of (n : node) : list string :=
  match n with
  | Text _ => []
  | Elem _ attrs cs =>
      omap fragment attrs ++
      (fix go (cs : list node) : list string :=
         match cs with
         | [] => []
         | c :: cs => fragments_of c ++ go cs
         end) cs
  end.

(** The listeners an element declares. *)
Definition own_listeners (attrs : list attr) : list (string * string) :=
  omap (λ a, match a with On event listener => Some (event, listener) | _ => None end)
    attrs.

Definition is_disabled (attrs : list attr) : bool :=
  existsb (λ a, match a with Disabled true => true | _ => false end) attrs.

Definition has_type (type : string) (attrs : list attr) : bool :=
  existsb (λ a, match a with InputType t => String.eqb t type | _ => false end) attrs.

(** An element through which the user submits the form it is a child of: a
    submit button or a text field, when it is not disabled. *)
Definition submitter (n : node) : bool :=
  match n with
  | Text _ => false
  | Elem tag attrs _ =>
      negb (is_disabled attrs) &&
      (String.eqb tag "button" && has_type "submit" attrs ||
       String.eqb tag "input" && has_type "text" attrs)
  end.

(** The listener [l] of an element with the children [cs] can be reached: a
    [submit] listener only when the form has a submitter. *)
Definition reachable_listener (cs : list node) (l : string * string) : bool :=
  negb (String.eqb l.1 "submit") || existsb submitter cs.

(** The listeners of a tree the user can trigger, in document order: those
    of the elements that are not disabled. *)
Fixpoint listeners (n : node) : list (string * string) :=
  match n with
  | Text _ => []
  | Elem _ attrs cs =>
      (if is_disabled attrs then []
       else List.filter (reachable_listener cs) (own_listeners attrs))
      ++ (fix go (cs : list node) : list (string * string) :=
            match cs with
            | [] => []
            | c :: cs => listeners c ++ go cs
            end) cs
  end.

(** ** Lemmas *)

Lemma text_content_Elem tag a cs : text_content (Elem tag a cs) = texts cs.
Proof. simpl. induction cs as [|c cs IH]; [done|]. simpl. by rewrite IH. Qed.

Lemma texts_app ns ms : texts (ns ++ ms) = texts ns +:+ texts ms.
Proof.
  induction ns as [|n ns IH]; simpl; [done|].
  by rewrite IH, string_app_assoc.
Qed.

Lemma texts_cons n ns : texts (n :: ns) = text_content n +:+ texts ns.
Proof. done. Qed.

Lemma texts_text s : texts (text s) = s.
Proof. unfold text. destruct s; [done|]. simpl. by rewrite string_app_nil_r. Qed.

Lemma texts_text_opt o : texts (text_opt o) = default "" o.
Proof. destruct o; [apply texts_text|done]. Qed.

Lemma text_js_or s d : d ≠ "" → text (js_or s d) = [Text (js_or s d)].
Proof.
  intros Hd. unfold text.
  by rewrite (proj2 (truthy_true_iff _) (js_or_nonempty s d Hd)).
Qed.

Lemma text_js_or_opt o d : d ≠ "" → text (js_or_opt o d) = [Text (js_or_opt o d)].
Proof.
  intros Hd. unfold text.
  by rewrite (proj2 (truthy_true_iff _) (js_or_opt_nonempty o d Hd)).
Qed.

Lemma texts_nil : texts [] = "".
Proof. done. Qed.

Lemma text_content_Text s : text_content (Text s) = s.
Proof. done. Qed.

(** The text of a tree, as a concatenation of the texts of its leaves. *)
Create Rewrite HintDb dom.
#[export] Hint Rewrite text_content_Elem text_content_Text texts_app texts_cons
  texts_nil texts_text texts_text_opt string_app_nil_r string_app_nil_l
  string_app_assoc : dom.

Ltac text_simpl := autorewrite with dom.

(** ** Finding an element by its id *)

Section by_id.
Implicit Types (n m : node) (ns : list node) (id : string).

Lemma getElementById_Elem id tag attrs cs :
  getElementById id (Elem tag attrs cs) =
    if bool_decide (Id id ∈ attrs) then Some (Elem tag attrs cs)
    else find_in (getElementById id) cs.
Proof. simpl. case_bool_decide; [done|]. by induction cs as [|c cs ->]. Qed.

Lemma ids_of_Elem tag attrs cs :
  ids_of (Elem tag attrs cs) = id_attrs attrs ++ concat (ids_of <$> cs).
Proof. simpl. f_equal. induction cs as [|c cs IH]; [done|]. simpl. by rewrite IH. Qed.

Lemma fragments_of_Elem tag attrs cs :
  fragments_of (Elem tag attrs cs) = omap fragment attrs ++ concat (fragments_of <$> cs).
Proof. simpl. f_equal. induction cs as [|c cs IH]; [done|]. simpl. by rewrite IH. Qed.

Lemma listeners_Elem tag attrs cs :
  listeners (Elem tag attrs cs) =
    (if is_disabled attrs then []
     else List.filter (reachable_listener cs) (own_listeners attrs))
    ++ concat (listeners <$> cs).
Proof. simpl. f_equal. induction cs as [|c cs IH]; [done|]. simpl. by rewrite IH. Qed.

Lemma elem_of_id_attrs id attrs : id ∈ id_attrs attrs ↔ Id id ∈ attrs.
Proof.
  unfold id_attrs. rewrite list_elem_of_omap. split.
  - intros ([] & Ha & [= <-]). done.
  - intros Ha. by exists (Id id).
Qed.

(** An element without an id is not the one found; an element with the id
    is. *)
Lemma getElementById_anonymous id tag attrs cs :
  id_attrs attrs = [] →
  getElementById id (Elem tag attrs cs) = find_in (getElementById id) cs.
Proof.
  intros Ha. rewrite getElementById_Elem, bool_decide_eq_false_2; [done|].
  rewrite <-elem_of_id_attrs, Ha. apply not_elem_of_nil.
Qed.

Lemma getElementById_own id tag attrs cs :
  Id id ∈ attrs → getElementById id (Elem tag attrs cs) = Some (Elem tag attrs cs).
Proof. intros Ha. by rewrite getElementById_Elem, bool_decide_eq_true_2. Qed.

Lemma find_in_app find ns ms :
  find_in find (ns ++ ms) =
    match find_in find ns with Some m => Some m | None => find_in find ms end.
Proof. induction ns as [|n ns IH]; simpl; [done|]. by destruct (find n). Qed.

Lemma find_in_cons find n ns :
  find_in find (n :: ns) = match find n with Some m => Some m | None => find_in find ns end.
Proof. done. Qed.

(** A strong induction principle on trees: the children satisfy the
    property. *)
Lemma node_ind_children (P : node → Prop) :
  (∀ s, P (Text s)) →
  (∀ tag attrs cs, Forall P cs → P (Elem tag attrs cs)) →
  ∀ n, P n.
Proof.
  intros Ht He. fix IH 1. intros [s|tag attrs cs]; [apply Ht|].
  apply He. induction cs as [|c cs IHcs]; constructor; [apply IH|apply IHcs].
Qed.

(** The search fails exactly when no element of the tree has the id. *)
Lemma getElementById_None id n : getElementById id n = None ↔ id ∉ ids_of n.
Proof.
  induction n as [s|tag attrs cs IH] using node_ind_children; [by split; [intros _ []%elem_of_nil|]|].
  rewrite getElementById_Elem, ids_of_Elem, not_elem_of_app, elem_of_id_attrs.
  case_bool_decide as Ha; [by split; [|intros [? _]]|].
  transitivity (id ∉ concat (ids_of <$> cs)); [|naive_solver].
  induction IH as [|c cs Hc _ IHcs]; simpl; [by split; [intros _ []%elem_of_nil|]|].
  rewrite not_elem_of_app, <-Hc, <-IHcs. destruct (getElementById id c); naive_solver.
Qed.

(** The element found has the id. *)
Lemma getElementById_Some id n m : getElementById id n = Some m → Id id ∈ attrs_of m.
Proof.
  induction n as [s|tag attrs cs IH] using node_ind_children; [done|].
  rewrite getElementById_Elem. case_bool_decide as Ha; [by intros [= <-]|].
  induction IH as [|c cs Hc _ IHcs]; simpl; [done|].
  destruct (getElementById id c); [intros [= <-]; by apply Hc|done].
Qed.

Lemma find_in_None id ns :
  find_in (getElementById id) ns = None ↔ id ∉ concat (ids_of <$> ns).
Proof.
  induction ns as [|n ns IH]; simpl; [by split; [intros _ []%elem_of_nil|]|].
  rewrite not_elem_of_app, <-getElementById_None, <-IH.
  destruct (getElementById id n); naive_solver.
Qed.

End by_id.
