(* ===== verification/Widgets.v ===== *)
(** * The reusable components

    [Input], [Textarea], [Button], [SectionHeader] and [Header]
    ([src/src/app.js], lines 12-100) as the elements they render, in
    [Module Ui] under the names of the source.  An icon is the element a
    component of the icon library renders; it is passed as children and is a
    leaf here.  A callback is not part of the tree: the form keeps it in its
    [control], the assistant in the listener it names.

    [control_node] is the element of a control of the form, and [editor_root] the
    root element of [ResumeEditor] around the controls.

    The lemmas say which classes a button has, which ids and links the
    components put in the document, and that the ids of the form are the
    [name] props of its controls. *)

From Stdlib Require Import String Ascii.
From stdpp Require Import base tactics option list strings.
From S2P Require Import Prelude JsArray ResumeData React Editor EditorView Dom.

(** ** The components *)

Module Ui.

(** An icon of the icon library, with the class given to it. *)
Definition icon (classes : string) : node := Elem "svg" [ClassName classes] [].

(** [value={value}]: the attribute is absent when the value is
    [undefined]. *)
Definition value_attr (value : option string) : list attr :=
  match value with
  | Some v => [Value v]
  | None => []
  end.

(** Lines 12-34.  [icon] is the prop of that name: the elements given, or
    nothing. *)
Definition Input (icon : list node) (label name : string) (value : option string)
    (placeholder : string) : node :=
  Elem "div" [] [
    Elem "label" [HtmlFor name; ClassName "block text-sm font-medium text-gray-600 mb-1"]
      (text label);
    Elem "div" [ClassName "relative"] [
      Elem "div"
        [ClassName "pointer-events-none absolute inset-y-0 left-0 flex items-center pl-3"]
        icon;
      Elem "input"
        ([InputType "text"; Id name; Name name] ++ value_attr value ++
         [Placeholder placeholder;
          ClassName "w-full rounded-md border-gray-200 bg-gray-50 py-2.5 pl-10 pr-4 text-sm shadow-sm focus:border-blue-500 focus:ring-blue-500"])
        []]].

(** Lines 36-53. *)
Definition Textarea (label name : string) (value : option string)
    (placeholder : string) (rows : nat) : node :=
  Elem "div" [] [
    Elem "label" [HtmlFor name; ClassName "block text-sm font-medium text-gray-600 mb-1"]
      (text label);
    Elem "textarea"
      ([Id name; Name name] ++ value_attr value ++
       [Placeholder placeholder; Rows rows;
        ClassName "w-full rounded-md border-gray-200 bg-gray-50 p-3 text-sm shadow-sm focus:border-blue-500 focus:ring-blue-500"])
      []].

(** Line 56. *)
Definition baseClasses : string :=
  "flex items-center justify-center gap-2 px-4 py-2.5 rounded-md font-semibold focus:outline-none focus:ring-2 focus:ring-offset-2 transition-all duration-200 ease-in-out transform hover:scale-105".

(** [variants[variant]] (lines 57-62 and 64): a name that is not a key of
    the object reads [undefined], which the template prints as such. *)
Definition variants (variant : string) : string :=
  if decide (variant = "primary") then
    "bg-blue-600 text-white hover:bg-blue-700 focus:ring-blue-500"
  else if decide (variant = "secondary") then
    "bg-red-500 text-white hover:bg-red-600 focus:ring-red-500"
  else if decide (variant = "tertiary") then
    "bg-green-600 text-white hover:bg-green-700 focus:ring-green-500"
  else if decide (variant = "ghost") then
    "bg-transparent text-gray-500 hover:bg-gray-100 hover:text-red-500"
  else "undefined".

(** The template of line 64. *)
Definition button_classes (variant : string) (disabled : bool) : string :=
  baseClasses +:+ " " +:+ variants variant +:+ " " +:+
  (if disabled then "opacity-50 cursor-not-allowed hover:scale-100" else "").

(** [onClick={onClick}]: no listener when the prop is [undefined]. *)
Definition listener_attr (event : string) (listener : option string) : list attr :=
  match listener with
  | Some f => [On event f]
  | None => []
  end.

(** Lines 55-69.  [icon] tells whether the prop is given; [children] is the
    text between the tags, if any; [onClick] names the function called. *)
Definition Button (children : option string) (onClick : option string)
    (type variant : string) (disabled : bool) (icon : bool) : node :=
  Elem "button"
    ([InputType type] ++ listener_attr "click" onClick ++
     [ClassName (button_classes variant disabled); Disabled disabled])
    (when icon [Elem "svg" [] []] ++ text_opt children).

(** Lines 71-78. *)
Definition SectionHeader (icon : node) (title : string) : node :=
  Elem "div" [ClassName "flex items-center gap-3 mb-6 border-b pb-4"] [
    icon;
    Elem "h3" [ClassName "text-2xl font-bold text-gray-800"] (text title)].

(** Lines 83-100. *)
Definition Header : node :=
  Elem "header"
    [ClassName "bg-gradient-to-r from-gray-900 to-gray-700 text-white shadow-lg sticky top-0 z-10"] [
    Elem "div" [ClassName "container mx-auto px-6 py-4"] [
      Elem "div" [ClassName "flex items-center justify-between"] [
        Elem "div" [ClassName "flex items-center gap-2 text-2xl font-bold"] [
          Elem "svg" [] [];
          Elem "span" [] [Text "AI Resume Builder"]];
        Elem "nav" [ClassName "hidden md:flex items-center gap-2"] [
          Elem "a"
            [Href "#editor";
             ClassName "px-3 py-2 rounded-md text-sm font-medium hover:bg-gray-700"]
            [Text "Editor"];
          Elem "a"
            [Href "#chatbot";
             ClassName "px-3 py-2 rounded-md text-sm font-medium hover:bg-gray-700"]
            [Text "AI Assistant"]]]]].

End Ui.

(** ** The elements of the form *)

(** The function a button of the form calls (lines 157, 184, 190). *)
Definition click_name (c : click) : string :=
  match c with
  | Dispatch (RemoveItem _ _) => "handleRemoveItem"
  | Dispatch (AddItem _ _) => "handleAddItem"
  | Dispatch (SectionChange _ _ _ _) => "handleSectionChange"
  | Dispatch (Change _ _) => "handleChange"
  | ExportPDF => "handleExportPDF"
  end.

(** The element a control of the form renders.  The icons of the four inputs
    of the personal details are left out, as in [EditorView]; every button of
    the form has an icon, the default type and is enabled. *)
Definition control_node (c : control) : node :=
  match c with
  | Input label name value placeholder _ => Ui.Input [] label name value placeholder
  | Textarea label name value placeholder rows _ =>
      Ui.Textarea label name value placeholder rows
  | Button children variant onClick =>
      Ui.Button children (Some (click_name onClick)) "button" variant false true
  end.

(** The root element of [ResumeEditor] (line 154) and its heading (line
    156), around the elements of the controls in document order; the
    elements that group them are left out. *)
Definition editor_root (cs : list control) : node :=
  Elem "div" [Id "editor"; ClassName "bg-white p-8 rounded-xl shadow-lg border border-gray-100"]
    (Elem "h2" [ClassName "text-4xl font-bold text-gray-800"] [Text "Resume Editor"]
     :: (control_node <$> cs)).

(** ** Lemmas *)

Section widgets.
Implicit Types (c : control) (cs : list control).

(** A disabled button is greyed out, and only a disabled one. *)
Lemma button_classes_disabled variant disabled :
  Ui.button_classes variant disabled =
    Ui.button_classes variant false +:+
    (if disabled then "opacity-50 cursor-not-allowed hover:scale-100" else "").
Proof.
  unfold Ui.button_classes. destruct disabled; [|by rewrite !string_app_nil_r].
  by rewrite string_app_nil_r, <-!string_app_assoc.
Qed.

(** The variants the source uses are keys of the object. *)
Lemma variants_known variant :
  variant ∈ ["primary"; "secondary"; "tertiary"; "ghost"] ↔
  Ui.variants variant ≠ "undefined".
Proof.
  unfold Ui.variants. rewrite !elem_of_cons, elem_of_nil.
  repeat case_decide; subst; naive_solver.
Qed.

Lemma ids_of_control_node c : ids_of (control_node c) = option_list (control_id c).
Proof.
  destruct c as [l n [v|] p f|l n [v|] p r f|[ch|] v f]; try done.
  all: cbn; unfold text; by destruct (truthy _).
Qed.

Lemma ids_of_controls cs : concat (ids_of <$> (control_node <$> cs)) = ids cs.
Proof.
  unfold ids. induction cs as [|c cs IH]; [done|]. cbn [fmap list_fmap concat].
  rewrite ids_of_control_node, IH. by destruct c.
Qed.

(** The ids of the element of the form: its own, then the [name] props of
    the text fields in document order. *)
Lemma ids_of_editor cs : ids_of (editor_root cs) = "editor" :: ids cs.
Proof.
  unfold editor_root. rewrite ids_of_Elem. cbn [fmap list_fmap concat ids_of app id_attrs omap list_omap].
  by rewrite ids_of_controls.
Qed.

Lemma fragments_of_Header : fragments_of Ui.Header = ["editor"; "chatbot"].
Proof. reflexivity. Qed.

Lemma ids_of_Header : ids_of Ui.Header = [].
Proof. reflexivity. Qed.

End widgets.
