(* ===== verification/Preview.v ===== *)
(** * [ResumePreview]: the printable rendering of the resume

    [ResumePreview] ([src/src/app.js], lines 503-617) renders the record it
    receives: a header, the summary, five repeated sections and the skills.
    A repeated section is rendered when the array is not empty and the
    primary field of its first entry is truthy; every entry of the array is
    then rendered, with a placeholder for each empty short field.

    The component reads a property of [resumeData.<section>[0]] and of every
    element of the array, so it throws a [TypeError] on an array whose first
    slot is a hole or [undefined], and on an array it renders that holds an
    [undefined] slot.  [ResumePreview] returns a [result] for that reason.

    The theorems give the sections a rendering shows, the text of the header
    and of an entry, the number of entries rendered, and the records on
    which the component throws; on every record the editor renders it does
    not. *)

From Stdlib Require Import String.
From stdpp Require Import base tactics option list strings relations.
From S2P Require Import Prelude JsArray ResumeData React Editor Dom.


(** ** The component *)

(** The class of the heading of every section (lines 523, 530, 545, ...). *)
Definition h2_class : string :=
  "text-xl font-bold border-b-2 pb-2 mb-3 uppercase tracking-wider".

(** [resumeData.<section>.length > 0 && resumeData.<section>[0].<primary>]
    (lines 528, 543, 562, 581, 594), as a boolean: reading a property of
    [<section>[0]] throws when that slot is a hole or [undefined]. *)
Definition gate (a : array obj) (primary : Key.t) : result bool :=
  if decide (0 < length a) then
    match read a 0 with
    | Some o => Ok (truthy_opt (obj_get o primary))
    | None => Throw (TypeError (Key.to_string primary))
    end
  else Ok false.

(** A repeated section: the gate, then the heading and one block per
    element of the array. *)
Definition repeated (a : array obj) (primary : Key.t) (title : string)
    (block : nat → obj → node) : result (list node) :=
  shown ← gate a primary;
  if shown : bool then
    blocks ← amap (Key.to_string primary) block a;
    Ok [Elem "section" [ClassName "mb-8"]
          (Elem "h2" [ClassName h2_class] [Text title] :: children_of_array blocks)]
  else Ok [].

(** Lines 532-538. *)
Definition education_block (index : nat) (edu : obj) : node :=
  Elem "div" [Key index; ClassName "mb-2"] [
    Elem "div" [ClassName "flex justify-between items-baseline"] [
      Elem "h3" [ClassName "text-lg font-bold"]
        (text (js_or_opt (obj_get edu Key.degree) "Degree"));
      Elem "span" [ClassName "text-sm font-medium"]
        (text (js_or_opt (obj_get edu Key.date) "Date"))];
    Elem "h4" [ClassName "text-md font-semibold italic"]
      (text (js_or_opt (obj_get edu Key.institution) "Institution"))].

(** Lines 547-557. *)
Definition experience_block (index : nat) (exp : obj) : node :=
  Elem "div" [Key index; ClassName "mb-4"] [
    Elem "div" [ClassName "flex justify-between items-baseline"] [
      Elem "h3" [ClassName "text-lg font-bold"]
        (text (js_or_opt (obj_get exp Key.title) "Job Title"));
      Elem "span" [ClassName "text-sm font-medium"]
        (text (js_or_opt (obj_get exp Key.dates) "Dates"))];
    Elem "div" [ClassName "flex justify-between items-baseline mb-1"] [
      Elem "h4" [ClassName "text-md font-semibold italic"]
        (text (js_or_opt (obj_get exp Key.company) "Company"));
      Elem "span" [ClassName "text-sm italic"]
        (text (js_or_opt (obj_get exp Key.location) "Location"))];
    Elem "p" [ClassName "text-sm whitespace-pre-wrap"]
      (text_opt (obj_get exp Key.responsibilities))].

(** Lines 566-576. *)
Definition volunteer_block (index : nat) (vol : obj) : node :=
  Elem "div" [Key index; ClassName "mb-4"] [
    Elem "div" [ClassName "flex justify-between items-baseline"] [
      Elem "h3" [ClassName "text-lg font-bold"]
        (text (js_or_opt (obj_get vol Key.role) "Volunteer Role"));
      Elem "span" [ClassName "text-sm font-medium"]
        (text (js_or_opt (obj_get vol Key.dates) "Dates"))];
    Elem "div" [ClassName "flex justify-between items-baseline mb-1"] [
      Elem "h4" [ClassName "text-md font-semibold italic"]
        (text (js_or_opt (obj_get vol Key.organization) "Organization"));
      Elem "span" [ClassName "text-sm italic"]
        (text (js_or_opt (obj_get vol Key.location) "Location"))];
    Elem "p" [ClassName "text-sm whitespace-pre-wrap"]
      (text_opt (obj_get vol Key.description))].

(** Lines 585-589. *)
Definition extracurricular_block (index : nat) (activity : obj) : node :=
  Elem "div" [Key index; ClassName "mb-4"] [
    Elem "h3" [ClassName "text-lg font-bold"]
      (text (js_or_opt (obj_get activity Key.name) "Activity Name"));
    Elem "h4" [ClassName "text-md font-semibold italic mb-1"]
      (text (js_or_opt (obj_get activity Key.role) "Role"));
    Elem "p" [ClassName "text-sm whitespace-pre-wrap"]
      (text_opt (obj_get activity Key.description))].

(** Lines 598-604. *)
Definition project_block (index : nat) (proj : obj) : node :=
  Elem "div" [Key index; ClassName "mb-4"] [
    Elem "div" [ClassName "flex justify-between items-baseline"]
      (Elem "h3" [ClassName "text-lg font-bold"]
         (text (js_or_opt (obj_get proj Key.name) "Project Name"))
       :: when (truthy_opt (obj_get proj Key.link))
            [Elem "a" [Href (default "" (obj_get proj Key.link));
                       ClassName "text-sm text-blue-600 underline"]
               (text_opt (obj_get proj Key.link))]);
    Elem "p" [ClassName "text-sm whitespace-pre-wrap"]
      (text_opt (obj_get proj Key.description))].

(** The primary field of a section, its heading and the block of one of
    its entries, as the five sections of the component give them. *)
Definition primary (s : section_name) : Key.t :=
  match s with
  | education => Key.degree
  | experience => Key.title
  | volunteer => Key.role
  | extracurriculars => Key.name
  | projects => Key.name
  end.

Definition section_title (s : section_name) : string :=
  match s with
  | education => "Education"
  | experience => "Experience"
  | volunteer => "Volunteer Experience"
  | extracurriculars => "Extracurricular Activities"
  | projects => "Projects"
  end.

Definition section_block (s : section_name) : nat → obj → node :=
  match s with
  | education => education_block
  | experience => experience_block
  | volunteer => volunteer_block
  | extracurriculars => extracurricular_block
  | projects => project_block
  end.

(** One of the five repeated sections (lines 528-541, 543-560, 562-579,
    581-592, 594-607). *)
Definition repeated_section (resumeData : ResumeData) (s : section_name) :
    result (list node) :=
  repeated (get_section resumeData s) (primary s) (section_title s) (section_block s).

(** Lines 506-519. *)
Definition header (resumeData : ResumeData) : node :=
  Elem "div" [ClassName "text-center border-b-2 pb-4 mb-8"] [
    Elem "h1" [ClassName "text-4xl font-bold tracking-wider uppercase"]
      (text (js_or (r_fullName resumeData) "Your Name"));
    Elem "div" [ClassName "flex justify-center gap-x-4 gap-y-1 text-sm mt-2 flex-wrap"]
      ([Elem "span" [] (text (js_or (r_email resumeData) "your.email@example.com"));
        Elem "span" [] [Text "|"];
        Elem "span" [] (text (js_or (r_phone resumeData) "(123) 456-7890"))]
       ++ when (truthy (r_website resumeData))
            [Elem "span" [] [Text "|"];
             Elem "a" [Href (r_website resumeData); ClassName "text-blue-600 underline"]
               (text (r_website resumeData))])].

(** Lines 521-526. *)
Definition summary_section (resumeData : ResumeData) : list node :=
  when (truthy (r_summary resumeData))
    [Elem "section" [ClassName "mb-8"] [
       Elem "h2" [ClassName h2_class] [Text "Summary"];
       Elem "p" [ClassName "text-sm"] (text (r_summary resumeData))]].

(** Lines 609-614. *)
Definition skills_section (resumeData : ResumeData) : list node :=
  when (truthy (r_skills resumeData))
    [Elem "section" [] [
       Elem "h2" [ClassName h2_class] [Text "Skills"];
       Elem "p" [ClassName "text-sm"] (text (r_skills resumeData))]].

(** The root element (lines 505 and 615) around the header, the summary,
    the repeated sections and the skills. *)
Definition root (resumeData : ResumeData) (sections : list node) : node :=
  Elem "div"
    [Id "resume-preview"; ClassName "bg-white p-12 font-serif";
     Style [("width", "210mm"); ("minHeight", "297mm")]]
    (header resumeData :: summary_section resumeData
       ++ sections ++ skills_section resumeData).

(** Lines 503-617.  The children are evaluated in the order of the source,
    so the exception of the first section that throws is the one raised. *)
Definition ResumePreview (resumeData : ResumeData) : result node :=
  edu ← repeated_section resumeData education;
  exp ← repeated_section resumeData experience;
  vol ← repeated_section resumeData volunteer;
  ext ← repeated_section resumeData extracurriculars;
  proj ← repeated_section resumeData projects;
  Ok (root resumeData (edu ++ exp ++ vol ++ ext ++ proj)).

(** ** Reading a rendering *)

(** The headings of the sections of a rendering, in order. *)
Definition section_titles (doc : node) : list string :=
  omap (heading "h2") (children_tagged "section" doc).

(** The entries rendered under the heading [title]. *)
Definition entry_blocks (title : string) (doc : node) : list node :=
  match filter (λ n, heading "h2" n = Some title) (children_tagged "section" doc) with
  | sec :: _ => children_tagged "div" sec
  | [] => []
  end.

(** ** What a repeated section renders *)

Section repeated_lemmas.
Implicit Types (r : ResumeData) (s : section_name) (a : array obj) (o : obj)
  (k : Key.t) (l : list obj).

(** The primary field of the first entry, as the gate reads it. *)
Definition first_field (a : array obj) (k : Key.t) : option string :=
  read a 0 ≫= λ o, obj_get o k.

(** The section element of a shown section. *)
Definition section_elem (title : string) (blocks : list node) : node :=
  Elem "section" [ClassName "mb-8"] (Elem "h2" [ClassName h2_class] [Text title] :: blocks).

Lemma gate_nil k : gate [] k = Ok false.
Proof. done. Qed.

Lemma gate_item o a k : gate (Item o :: a) k = Ok (truthy_opt (obj_get o k)).
Proof. done. Qed.

Lemma gate_dense a k : dense a → gate a k = Ok (truthy_opt (first_field a k)).
Proof.
  intros Ha. destruct Ha as [|[| |o] a Ho _]; simplify_eq /=; done.
Qed.

(** The gate throws exactly when the array is not empty and its first slot
    holds no entry. *)
Lemma gate_throw_iff a k :
  is_ok (gate a k) = false ↔ a ≠ [] ∧ read a 0 = None.
Proof. destruct a as [|[| |o] a]; unfold gate; simpl; naive_solver. Qed.

Lemma repeated_dense l k title block :
  repeated (of_list l) k title block =
  Ok (when (truthy_opt (first_field (of_list l) k))
        [section_elem title (imap block l)]).
Proof.
  unfold repeated. rewrite gate_dense by apply dense_of_list. simpl.
  destruct (truthy_opt _); [|done].
  rewrite amap_of_list. simpl. unfold children_of_array. by rewrite items_of_list.
Qed.

Lemma repeated_section_dense r s :
  dense (get_section r s) →
  repeated_section r s =
  Ok (when (truthy_opt (first_field (get_section r s) (primary s)))
        [section_elem (section_title s)
           (imap (section_block s) (items (get_section r s)))]).
Proof.
  intros Hd. unfold repeated_section. rewrite (dense_items _ Hd) at 1.
  rewrite repeated_dense. by rewrite <-(dense_items _ Hd).
Qed.

(** A repeated section renders without an exception exactly when the array
    is empty, or its first slot holds an entry and, if the section is shown,
    no slot is [undefined]. *)
Definition renders (a : array obj) (k : Key.t) : Prop :=
  a = [] ∨ ∃ o, read a 0 = Some o ∧ (truthy_opt (obj_get o k) = true → Undefined ∉ a).

Lemma repeated_ok_iff a k title block :
  is_ok (repeated a k title block) = true ↔ renders a k.
Proof.
  unfold repeated, renders, gate.
  destruct a as [|x a]; [naive_solver|]. rewrite decide_True by (simpl; lia).
  destruct (read (x :: a) 0) as [o|] eqn:Ho; simpl; [|naive_solver].
  destruct (truthy_opt (obj_get o k)) eqn:Ht; simpl.
  - pose proof (amap_ok_iff (Key.to_string k) block (x :: a)) as Hm.
    destruct (amap (Key.to_string k) block (x :: a)) as [bs|e]; simpl in *.
    + split; [intros _|done]. right. exists o. split; [done|]. intros _. by apply Hm.
    + split; [done|]. intros [?|(o' & ? & Hin)]; simplify_eq. by apply Hm, Hin.
  - split; [intros _|done]. right. exists o. split; [done|]. congruence.
Qed.

Lemma dense_renders a k : dense a → renders a k.
Proof.
  intros Ha. destruct Ha as [|[| |o] a Ho Ha]; simplify_eq /=; [by left|].
  right. exists o. split; [done|]. intros _.
  apply dense_no_undefined, dense_cons. by split.
Qed.

End repeated_lemmas.

(** ** The rendering of a record without holes *)

Section rendering.
Implicit Types (r p : ResumeData) (s : section_name) (a : array obj) (o : obj)
  (k : Key.t) (ns ms : list node) (b : bool).

(** What a repeated section contributes to the rendering of a record whose
    arrays are dense. *)
Definition rendered_section r s : list node :=
  when (truthy_opt (first_field (get_section r s) (primary s)))
    [section_elem (section_title s) (imap (section_block s) (items (get_section r s)))].

Definition document r : node :=
  root r (rendered_section r education ++ rendered_section r experience ++
          rendered_section r volunteer ++ rendered_section r extracurriculars ++
          rendered_section r projects).

Lemma ResumePreview_dense r :
  (∀ s, dense (get_section r s)) → ResumePreview r = Ok (document r).
Proof.
  intros Hd. unfold ResumePreview. by rewrite !repeated_section_dense.
Qed.

(** The component throws on no record whose five arrays render. *)
Lemma ResumePreview_ok_iff r :
  is_ok (ResumePreview r) = true ↔ ∀ s, renders (get_section r s) (primary s).
Proof.
  unfold ResumePreview. rewrite !is_ok_bind. split.
  - intros (edu & He & H1). apply is_ok_bind in H1 as (exp & Hx & H2).
    apply is_ok_bind in H2 as (vol & Hv & H3). apply is_ok_bind in H3 as (ext & Ht & H4).
    apply is_ok_bind in H4 as (proj & Hp & _).
    intros s. eapply repeated_ok_iff, is_ok_true. destruct s; eauto.
  - intros Hs.
    pose proof (λ s, proj1 (is_ok_true _) (proj2 (repeated_ok_iff _ _ (section_title s)
      (section_block s)) (Hs s))) as Hok.
    destruct (Hok education) as [edu He], (Hok experience) as [exp Hx],
      (Hok volunteer) as [vol Hv], (Hok extracurriculars) as [ext Ht],
      (Hok projects) as [proj Hp].
    unfold repeated_section. rewrite He, Hx, Hv, Ht, Hp. simpl. eauto.
Qed.

(** *** Headings *)

Definition titles_of ns : list string :=
  omap (heading "h2") (filter (λ c, has_tag "section" c = true) ns).

Lemma titles_of_app ns ms : titles_of (ns ++ ms) = titles_of ns ++ titles_of ms.
Proof. unfold titles_of. by rewrite filter_app, omap_app. Qed.

Lemma titles_of_section attrs cls title ns :
  titles_of [Elem "section" attrs (Elem "h2" cls [Text title] :: ns)] = [title].
Proof. unfold titles_of, heading. simpl. by rewrite string_app_nil_r. Qed.

Lemma titles_of_when b attrs cls title ns :
  titles_of (when b [Elem "section" attrs (Elem "h2" cls [Text title] :: ns)]) =
  if b then [title] else [].
Proof. destruct b; [apply titles_of_section|done]. Qed.

Lemma titles_of_rendered_section r s :
  titles_of (rendered_section r s) =
  if truthy_opt (first_field (get_section r s) (primary s)) then [section_title s] else [].
Proof. apply titles_of_when. Qed.

Lemma titles_of_header r ns : titles_of (header r :: ns) = titles_of ns.
Proof. done. Qed.

Lemma section_titles_root r ns :
  section_titles (root r ns) =
  titles_of (summary_section r) ++ titles_of ns ++ titles_of (skills_section r).
Proof.
  change (section_titles (root r ns)) with
    (titles_of (header r :: summary_section r ++ ns ++ skills_section r)).
  by rewrite titles_of_header, !titles_of_app.
Qed.

End rendering.

(** The headings a rendering is expected to show: the summary and the
    skills when they are not empty, a repeated section when the primary
    field of its first entry is not empty. *)
Definition shown_titles (r : ResumeData) : list string :=
  (if truthy (r_summary r) then ["Summary"] else []) ++
  flat_map
    (λ s, if truthy_opt (first_field (get_section r s) (primary s))
          then [section_title s] else [])
    [education; experience; volunteer; extracurriculars; projects] ++
  (if truthy (r_skills r) then ["Skills"] else []).

(** C7: on a well-formed record the preview renders, and the sections it
    shows are, in order: the summary when it is not empty, each repeated
    section whose first entry has a non-empty primary field, whatever the
    other entries hold, and the skills when they are not empty. *)
Theorem preview_sections (r : ResumeData) :
  wf r → ∃ doc, ResumePreview r = Ok doc ∧ section_titles doc = shown_titles r.
Proof.
  intros Hr. exists (document r). split.
  - apply ResumePreview_dense. intros s. apply Hr.
  - unfold document. rewrite section_titles_root, !titles_of_app.
    rewrite !titles_of_rendered_section.
    unfold summary_section, skills_section. rewrite !titles_of_when.
    unfold shown_titles. simpl. by rewrite !app_nil_r, <-!app_assoc.
Qed.

Lemma preview_sections_witness :
  let r := run initialResumeData
    [SectionChange education 0 Key.institution "MIT";
     AddItem education (blank_item education);
     SectionChange education 1 Key.degree "PhD";
     SectionChange projects 0 Key.name "Resume builder";
     Change skills "Rocq"] in
  ∃ doc, ResumePreview r = Ok doc ∧ section_titles doc = ["Projects"; "Skills"].
Proof.
  intros r. apply (preview_sections r). subst r. by apply (bool_decide_unpack _).
Defined.

(** C8: the preview throws on no record the editor renders: from the
    initial record, whatever valid events are dispatched and whenever the
    component renders, [ResumePreview] returns a document. *)
Theorem editor_preview_total (c : cell ResumeData) :
  reachable c → is_ok (ResumePreview (rendered c)) = true.
Proof.
  intros Hc. destruct (reachable_inv wf c Hc) as [Hr _].
  apply ResumePreview_ok_iff. intros s. apply dense_renders, Hr.
Qed.

Lemma editor_preview_total_witness :
  is_ok (ResumePreview (rendered (render
    (dispatch (RemoveItem education 0) (mount initialResumeData))))) = true.
Proof.
  apply editor_preview_total.
  eapply rtc_l; [apply (step_dispatch _ (RemoveItem education 0)); exact I|].
  apply rtc_once, step_render.
Defined.

(** C28: an edit past the end of an empty section makes the preview throw:
    the first slot of the section is then a hole, and the gate of the
    section reads a property of it. *)
Theorem out_of_range_edit_breaks_preview (r p : ResumeData) (s : section_name)
    (i : nat) (k : Key.t) (v : string) :
  get_section r s = [] → 0 < i →
  is_ok (ResumePreview (handleSectionChange r s i k v p)) = false.
Proof.
  intros Hs Hi. apply not_true_iff_false. rewrite ResumePreview_ok_iff.
  intros Hok. specialize (Hok s).
  rewrite get_section_handleSectionChange, Hs in Hok. simpl in Hok.
  destruct Hok as [Hnil|(o & Ho & _)].
  - apply (f_equal length) in Hnil. rewrite length_assign in Hnil. simpl in Hnil. lia.
  - unfold read in Ho. rewrite lookup_assign_hole in Ho by (simpl; lia). done.
Qed.

Lemma out_of_range_edit_breaks_preview_witness :
  let r := apply_event initialResumeData (RemoveItem projects 0) in
  ResumePreview (handleSectionChange r projects 1 Key.name "x" r) =
    Throw (TypeError "name").
Proof.
  intros r.
  pose proof (out_of_range_edit_breaks_preview r r projects 1 Key.name "x"
    eq_refl (Nat.lt_0_1)) as H.
  destruct (ResumePreview _) as [doc|e] eqn:E; [done|].
  vm_compute in E. by injection E as <-.
Defined.

(** ** Texts *)

Section texts_lemmas.
Implicit Types (r : ResumeData) (o : obj) (i : nat).

(** C40: the header shows the name, the email address and the phone number,
    each replaced by its placeholder when empty, and the website after a
    separator only when it is not empty. *)
Theorem header_text r :
  text_content (header r) =
    js_or (r_fullName r) "Your Name" +:+
    js_or (r_email r) "your.email@example.com" +:+ "|" +:+
    js_or (r_phone r) "(123) 456-7890" +:+
    (if truthy (r_website r) then "|" +:+ r_website r else "").
Proof.
  unfold header, when. rewrite !text_js_or by done.
  destruct (truthy (r_website r)) eqn:E; by text_simpl.
Qed.

(** The text of a block of the education section: the short fields, each
    with its placeholder. *)
Lemma education_block_text i o :
  text_content (education_block i o) =
    js_or_opt (obj_get o Key.degree) "Degree" +:+
    js_or_opt (obj_get o Key.date) "Date" +:+
    js_or_opt (obj_get o Key.institution) "Institution".
Proof. unfold education_block. rewrite !text_js_or_opt by done. by text_simpl. Qed.

(** The text of a block of the experience section: the short fields with
    their placeholders, then the responsibilities as they are. *)
Lemma experience_block_text i o :
  text_content (experience_block i o) =
    js_or_opt (obj_get o Key.title) "Job Title" +:+
    js_or_opt (obj_get o Key.dates) "Dates" +:+
    js_or_opt (obj_get o Key.company) "Company" +:+
    js_or_opt (obj_get o Key.location) "Location" +:+
    default "" (obj_get o Key.responsibilities).
Proof. unfold experience_block. rewrite !text_js_or_opt by done. by text_simpl. Qed.

(** Every entry of a shown section is rendered with visible text, blank
    entries included: an empty short field shows its placeholder. *)
Lemma block_text_nonempty (s : section_name) i o :
  text_content (section_block s i o) ≠ "".
Proof.
  assert (∀ a d t, d ≠ "" → js_or_opt a d +:+ t ≠ "") as Hne.
  { intros a d t Hd [H _]%string_app_eq_nil. by apply (js_or_opt_nonempty a d). }
  destruct s; simpl; unfold experience_block, volunteer_block,
    extracurricular_block, project_block, education_block;
    rewrite !text_js_or_opt by done; text_simpl; by apply Hne.
Qed.

End texts_lemmas.

(** ** The entries of a shown section *)

Section entries.
Implicit Types (r : ResumeData) (s : section_name) (ns ms bs : list node)
  (title t : string) (b : bool).

(** The sections of [ns] whose heading is [title]. *)
Definition find_sections title ns : list node :=
  filter (λ n, heading "h2" n = Some title)
    (filter (λ c, has_tag "section" c = true) ns).

Lemma find_sections_app title ns ms :
  find_sections title (ns ++ ms) = find_sections title ns ++ find_sections title ms.
Proof. unfold find_sections. by rewrite !filter_app. Qed.

Lemma find_sections_when title b attrs cls t bs :
  find_sections title (when b [Elem "section" attrs (Elem "h2" cls [Text t] :: bs)]) =
  if b then
    if decide (t = title) then [Elem "section" attrs (Elem "h2" cls [Text t] :: bs)]
    else []
  else [].
Proof.
  destruct b; [|done]. unfold find_sections, when.
  rewrite (filter_cons_True (λ c, has_tag "section" c = true)) by done.
  rewrite filter_nil, filter_cons, filter_nil.
  assert (heading "h2" (Elem "section" attrs (Elem "h2" cls [Text t] :: bs)) = Some t)
    as -> by (unfold heading; simpl; by rewrite string_app_nil_r).
  repeat case_decide; by simplify_eq.
Qed.

Lemma entry_blocks_root r title ns :
  entry_blocks title (root r ns) =
  match find_sections title (summary_section r) ++ find_sections title ns ++
        find_sections title (skills_section r) with
  | sec :: _ => children_tagged "div" sec
  | [] => []
  end.
Proof.
  change (entry_blocks title (root r ns)) with
    (match find_sections title (header r :: summary_section r ++ ns ++ skills_section r)
     with sec :: _ => children_tagged "div" sec | [] => [] end).
  change (header r :: ?l) with ([header r] ++ l). by rewrite !find_sections_app.
Qed.

Lemma section_block_div s i o : has_tag "div" (section_block s i o) = true.
Proof. by destruct s. Qed.

Lemma children_tagged_section_elem title s (l : list obj) :
  children_tagged "div" (section_elem title (imap (section_block s) l)) =
  imap (section_block s) l.
Proof.
  unfold children_tagged, section_elem. simpl.
  rewrite filter_cons_False by done. apply filter_all, Forall_lookup_2.
  intros i n (o & _ & ->)%list_lookup_imap_Some. apply section_block_div.
Qed.

(** A section that is shown renders every entry of its array, in order,
    each with its index as key: the entries after the first are rendered
    whether they are blank or not. *)
Lemma preview_renders_every_entry r s :
  wf r → truthy_opt (first_field (get_section r s) (primary s)) = true →
  ∃ doc, ResumePreview r = Ok doc ∧
    entry_blocks (section_title s) doc =
    imap (section_block s) (items (get_section r s)).
Proof.
  intros Hr Hs. exists (document r). split.
  { apply ResumePreview_dense. intros t. apply Hr. }
  unfold document. rewrite entry_blocks_root, !find_sections_app.
  unfold rendered_section, section_elem, summary_section, skills_section.
  rewrite !find_sections_when.
  destruct s; simpl in *; rewrite Hs, ?if_same; simpl;
    [ apply (children_tagged_section_elem _ experience)
    | apply (children_tagged_section_elem _ volunteer)
    | apply (children_tagged_section_elem _ extracurriculars)
    | apply (children_tagged_section_elem _ projects)
    | apply (children_tagged_section_elem _ education) ].
Qed.

Lemma preview_renders_every_entry_witness :
  let r := run initialResumeData
    [SectionChange education 0 Key.degree "BSc";
     AddItem education (blank_item education)] in
  ∃ doc, ResumePreview r = Ok doc ∧
    texts (entry_blocks "Education" doc) = "BScDateInstitutionDegreeDateInstitution".
Proof.
  intros r. destruct (preview_renders_every_entry r education) as (doc & -> & Heq).
  - subst r. by apply (bool_decide_unpack _).
  - done.
  - exists doc. split; [done|]. simpl in Heq. by rewrite Heq.
Defined.

End entries.
