(* ===== verification/Json.v ===== *)
(** * [JSON.stringify], as [AIAssistant] calls it

    [handleGetFeedback] ([src/src/app.js], line 384) serialises the resume
    with [JSON.stringify(resumeData, null, 2)].  The file gives the JSON
    values the resume consists of, the serialisation with an indentation of
    two spaces, and the value [JSON.stringify] sees in a record of
    [ResumeData]: the keys of the record in the order [App] creates them, a
    hole or an [undefined] slot of an array as [null].

    Strings are quoted as ECMAScript's [QuoteJSONString] does for code units
    below 256: the double quote and the backslash are escaped, the control
    characters are written with their short escape or as [\u00XX].

    [read_string] reads a quoted string back, as a JSON parser does; the
    theorems state that it inverts the quoting, and that the JSON of a resume
    determines its leading text fields. *)

From Stdlib Require Import String Ascii.
From stdpp Require Import base tactics option list strings.
From S2P Require Import Prelude JsArray ResumeData.

(** ** Values *)

Inductive json : Type :=
| JNull
| JString (s : string)
| JArray (elements : list json)
| JObject (properties : list (string * json)).

(** ** Quoting *)

Definition dquote : ascii := "034"%char.
Definition backslash : ascii := "092"%char.
Definition newline : string := String "010"%char EmptyString.

Definition hex_digit (n : N) : ascii :=
  match n with
  | 0 => "0" | 1 => "1" | 2 => "2" | 3 => "3" | 4 => "4" | 5 => "5" | 6 => "6"
  | 7 => "7" | 8 => "8" | 9 => "9" | 10 => "a" | 11 => "b" | 12 => "c"
  | 13 => "d" | 14 => "e" | _ => "f"
  end%N%char.

(** The escape of one code unit. *)
Definition escape (c : ascii) : string :=
  let n := N_of_ascii c in
  if decide (c = dquote) then String backslash (String dquote EmptyString)
  else if decide (c = backslash) then String backslash (String backslash EmptyString)
  else if decide (n = 8%N) then String backslash "b"
  else if decide (n = 9%N) then String backslash "t"
  else if decide (n = 10%N) then String backslash "n"
  else if decide (n = 12%N) then String backslash "f"
  else if decide (n = 13%N) then String backslash "r"
  else if decide (n < 32)%N then
    String backslash
      (String "u" (String "0" (String "0"
        (String (hex_digit (n / 16)) (String (hex_digit (n mod 16)) EmptyString)))))
  else String c EmptyString.

Fixpoint escape_string (s : string) : string :=
  match s with
  | EmptyString => EmptyString
  | String c s' => escape c +:+ escape_string s'
  end.

(** [QuoteJSONString]. *)
Definition quote (s : string) : string :=
  String dquote (escape_string s +:+ String dquote EmptyString).

(** ** Serialisation *)

(** The strings of [l], separated by [sep]. *)
Fixpoint join (sep : string) (l : list string) : string :=
  match l with
  | [] => EmptyString
  | [s] => s
  | s :: l' => s +:+ sep +:+ join sep l'
  end.

(** [JSON.stringify(v, null, 2)] of a value nested at indentation
    [indent]. *)
Fixpoint stringify_at (indent : string) (v : json) : string :=
  let inner := indent +:+ "  " in
  match v with
  | JNull => "null"
  | JString s => quote s
  | JArray [] => "[]"
  | JArray elements =>
      "[" +:+ newline +:+
      join ("," +:+ newline)
        ((fix go (l : list json) : list string :=
            match l with
            | [] => []
            | x :: l' => (inner +:+ stringify_at inner x) :: go l'
            end) elements) +:+
      newline +:+ indent +:+ "]"
  | JObject [] => "{}"
  | JObject properties =>
      "{" +:+ newline +:+
      join ("," +:+ newline)
        ((fix go (l : list (string * json)) : list string :=
            match l with
            | [] => []
            | (k, x) :: l' =>
                (inner +:+ quote k +:+ ": " +:+ stringify_at inner x) :: go l'
            end) properties) +:+
      newline +:+ indent +:+ "}"
  end.

Definition stringify (v : json) : string := stringify_at EmptyString v.

(** ** The resume as a JSON value *)

Definition obj_json (o : obj) : json :=
  JObject ((λ kv, (Key.to_string kv.1, JString kv.2)) <$> o).

(** An element of an array: a hole and [undefined] are serialised as
    [null]. *)
Definition slot_json (s : slot obj) : json :=
  match s with
  | Item o => obj_json o
  | Hole | Undefined => JNull
  end.

Definition section_json (a : array obj) : json := JArray (slot_json <$> a).

(** The properties of the record, in the order [App] creates them (lines
    623-633). *)
Definition resume_json (r : ResumeData) : json :=
  JObject [
    ("fullName", JString (r_fullName r));
    ("email", JString (r_email r));
    ("phone", JString (r_phone r));
    ("website", JString (r_website r));
    ("summary", JString (r_summary r));
    ("experience", section_json (r_experience r));
    ("volunteer", section_json (r_volunteer r));
    ("extracurriculars", section_json (r_extracurriculars r));
    ("projects", section_json (r_projects r));
    ("education", section_json (r_education r));
    ("skills", JString (r_skills r))].

(** ** The shape of a value *)

(** The shapes of the values the record is made of: a string, an array of
    values of one shape, an object with the given properties in the given
    order. *)
Inductive shape : Type :=
| TString
| TArray (element : shape)
| TObject (properties : list (string * shape)).

(** The value [v] has the shape [t]. *)
Fixpoint has_shape (v : json) (t : shape) {struct v} : bool :=
  match v, t with
  | JString _, TString => true
  | JArray vs, TArray t => forallb (λ v, has_shape v t) vs
  | JObject ps, TObject fs =>
      all2 (λ '(k, v) '(k', t), String.eqb k k' && has_shape v t) ps fs
  | _, _ => false
  end.

(** The shape of an entry of a section: its keys, each a string. *)
Definition entry_shape (s : section_name) : shape :=
  TObject ((λ k, (Key.to_string k, TString)) <$> schema s).

(** The shape of the record: six texts and five sequences of entries. *)
Definition resume_shape : shape :=
  TObject [
    ("fullName", TString); ("email", TString); ("phone", TString);
    ("website", TString); ("summary", TString);
    ("experience", TArray (entry_shape experience));
    ("volunteer", TArray (entry_shape volunteer));
    ("extracurriculars", TArray (entry_shape extracurriculars));
    ("projects", TArray (entry_shape projects));
    ("education", TArray (entry_shape education));
    ("skills", TString)].

(** ** Reading a quoted string back *)

(** The value of a hexadecimal digit. *)
Definition of_hex (c : ascii) : option N :=
  let n := N_of_ascii c in
  if decide (48 ≤ n ∧ n ≤ 57)%N then Some (n - 48)%N
  else if decide (97 ≤ n ∧ n ≤ 102)%N then Some (n - 87)%N
  else None.

(** The code unit a one-letter escape stands for. *)
Definition of_escape (c : ascii) : option ascii :=
  if decide (c = dquote) then Some dquote
  else if decide (c = backslash) then Some backslash
  else
    match c with
    | "b" => Some "008"
    | "t" => Some "009"
    | "n" => Some "010"
    | "f" => Some "012"
    | "r" => Some "013"
    | _ => None
    end%char.

Definition cons_char (c : ascii) (r : option (string * string)) : option (string * string) :=
  match r with
  | Some (s, rest) => Some (String c s, rest)
  | None => None
  end.

(** The characters of a JSON string up to its closing quote, and what
    follows it: what a JSON parser reads after an opening quote. *)
Fixpoint read_chars (s : string) : option (string * string) :=
  match s with
  | EmptyString => None
  | String c s1 =>
      if decide (c = dquote) then Some (EmptyString, s1)
      else if decide (c = backslash) then
        match s1 with
        | String e s2 =>
            match of_escape e with
            | Some c' => cons_char c' (read_chars s2)
            | None =>
                match s2 with
                | String "0" (String "0" (String h (String l s3))) =>
                    if decide (e = "u"%char) then
                      match of_hex h, of_hex l with
                      | Some x, Some y => cons_char (ascii_of_N (16 * x + y)) (read_chars s3)
                      | _, _ => None
                      end
                    else None
                | _ => None
                end
            end
        | EmptyString => None
        end
      else cons_char c (read_chars s1)
  end.

(** A JSON string at the head of a text: the string and the rest of the
    text. *)
Definition read_string (s : string) : option (string * string) :=
  match s with
  | String c s' => if decide (c = dquote) then read_chars s' else None
  | EmptyString => None
  end.

(** ** Lemmas *)

Section quoting.
Implicit Types (c : ascii) (s t rest : string).

Lemma read_chars_escape c t : read_chars (escape c +:+ t) = cons_char c (read_chars t).
Proof.
  destruct c as [[] [] [] [] [] [] [] []]; reflexivity.
Qed.

Lemma read_chars_escape_string s rest :
  read_chars (escape_string s +:+ String dquote rest) = Some (s, rest).
Proof.
  induction s as [|c s IH]; simpl; [done|].
  by rewrite string_app_assoc, read_chars_escape, IH.
Qed.

(** A quoted string reads back as itself, whatever follows it in the text:
    the quoting loses nothing, and a quoted string ends at its closing
    quote. *)
Lemma read_string_quote s rest : read_string (quote s +:+ rest) = Some (s, rest).
Proof.
  unfold quote. rewrite string_app_cons. cbn [read_string]. rewrite decide_True by done.
  by rewrite string_app_assoc, string_app_cons, string_app_nil_l, read_chars_escape_string.
Qed.

(** Two texts that start with a quoted string start with the same string
    and continue alike. *)
Lemma quote_app_inj s t x y : quote s +:+ x = quote t +:+ y → s = t ∧ x = y.
Proof.
  unfold quote. rewrite !string_app_cons, !string_app_assoc. intros [= H].
  pose proof (read_chars_escape_string s x) as Hs.
  pose proof (read_chars_escape_string t y) as Ht.
  rewrite !string_app_cons, !string_app_nil_l in H. rewrite H in Hs.
  split; congruence.
Qed.

(** The JSON of a resume determines its leading text fields: two
    records with the same serialisation have the same full name, email
    address, phone number, website and summary. *)
Lemma stringify_resume_fields r r' :
  stringify (resume_json r) = stringify (resume_json r') →
  r_fullName r = r_fullName r' ∧ r_email r = r_email r' ∧ r_phone r = r_phone r' ∧
  r_website r = r_website r' ∧ r_summary r = r_summary r'.
Proof.
  unfold stringify, resume_json. cbn [stringify_at join]. intros H.
  rewrite !string_app_assoc in H.
  repeat first
    [ apply string_app_inv_head in H
    | apply quote_app_inj in H as [? H] ].
  by split_and!.
Qed.

End quoting.

Lemma stringify_resume_fields_witness :
  let r := set_section initialResumeData education [Hole] in
  let r' := set_section initialResumeData education [Undefined] in
  r_fullName r = r_fullName r' ∧ r_email r = r_email r' ∧ r_phone r = r_phone r' ∧
  r_website r = r_website r' ∧ r_summary r = r_summary r'.
Proof.
  apply (stringify_resume_fields (set_section initialResumeData education [Hole])
           (set_section initialResumeData education [Undefined])).
  reflexivity.
Defined.

(** ** The shape of the record *)

Section shapes.
Implicit Types (o : obj) (a : array obj) (s : section_name) (r : ResumeData).

#[global] Instance key_to_string_inj : Inj (=) (=) Key.to_string.
Proof. intros k k' H. destruct k; destruct k'; (done || discriminate H). Qed.

(** An entry has the shape of its section exactly when its keys are the
    keys of the section, in order. *)
Lemma obj_json_shape o (ks : list Key.t) :
  has_shape (obj_json o) (TObject ((λ k, (Key.to_string k, TString)) <$> ks)) = true ↔
  obj_keys o = ks.
Proof.
  unfold obj_json, obj_keys. cbn [has_shape]. rewrite all2_Forall2, Forall2_fmap.
  split.
  - intros H. induction H as [|[k v] k' o ks Hk _ IH]; [done|]. simpl in *.
    rewrite andb_true_r in Hk. apply String.eqb_eq, (inj _) in Hk. by f_equal.
  - intros <-. induction o as [|[k v] o IH]; constructor; [|done].
    simpl. by rewrite String.eqb_refl.
Qed.

(** A section has the shape of a sequence of entries exactly when it has no
    hole, no [undefined], and every entry has the keys of the section. *)
Lemma section_json_shape s a :
  has_shape (section_json a) (TArray (entry_shape s)) = true ↔ wf_section s a.
Proof.
  unfold section_json, wf_section, dense, entry_shape. simpl.
  induction a as [|[| |o] a IH]; simpl.
  - split; [by split; constructor|done].
  - split; [done|]. by intros [[[=] _]%Forall_cons _].
  - split; [done|]. by intros [[[=] _]%Forall_cons _].
  - rewrite andb_true_iff, IH, !Forall_cons.
    pose proof (obj_json_shape o (schema s)) as Ho. simpl in Ho. rewrite Ho.
    unfold wf_entry. naive_solver.
Qed.

(** C18: the record sent for review has the shape of the data model.  The
    JSON of a record is an object with the six texts and the five sequences
    of the model, each sequence an array of objects with the keys of its
    section and strings as values, exactly when the record is well-formed:
    a hole or an [undefined] element, serialised as [null], or an entry with
    other keys breaks the shape. *)
Theorem resume_json_shape r :
  has_shape (resume_json r) resume_shape = true ↔ wf r.
Proof.
  unfold resume_json, resume_shape.
  cbn [has_shape all2 String.eqb Ascii.eqb Bool.eqb andb].
  rewrite !andb_true_r, !andb_true_iff, !section_json_shape. split.
  - intros (? & ? & ? & ? & ?) []; done.
  - intros Hr. split_and!; first [apply (Hr experience)|apply (Hr volunteer)
      |apply (Hr extracurriculars)|apply (Hr projects)|apply (Hr education)].
Qed.

End shapes.

(** ** The record in its JSON value *)

Section injective.
Implicit Types (r : ResumeData) (o : obj) (a : array obj).

#[global] Instance property_json_inj :
  Inj (=) (=) (λ kv : Key.t * string, (Key.to_string kv.1, JString kv.2)).
Proof. intros [k v] [k' v'] [= Hk%(inj _) ->]. by subst. Qed.

#[global] Instance obj_json_inj : Inj (=) (=) obj_json.
Proof. intros o o' [= H]. by apply (inj _) in H. Qed.

(** Arrays without holes and [undefined] slots are told apart by their
    JSON: only those two are serialised alike. *)
Lemma section_json_inj a a' : dense a → dense a' → section_json a = section_json a' → a = a'.
Proof.
  intros Ha Ha'. rewrite (dense_items a Ha), (dense_items a' Ha').
  unfold section_json, of_list. rewrite <-!list_fmap_compose. intros [= H].
  f_equal. revert H. apply (inj _).
Qed.

Lemma resume_json_inj r r' : wf r → wf r' → resume_json r = resume_json r' → r = r'.
Proof.
  intros Hr Hr' H.
  assert (∀ s, section_json (get_section r s) = section_json (get_section r' s) →
    get_section r s = get_section r' s) as Hs
    by (intros s; apply section_json_inj; [apply (Hr s)|apply (Hr' s)]).
  pose proof (Hs experience) as H1. pose proof (Hs volunteer) as H2.
  pose proof (Hs extracurriculars) as H3. pose proof (Hs projects) as H4.
  pose proof (Hs education) as H5. clear Hs Hr Hr'.
  destruct r, r'. injection H as -> -> -> -> -> E1 E2 E3 E4 E5 ->.
  cbn in *. unfold section_json in *. f_equal; auto using f_equal.
Qed.

End injective.
