(* ===== verification/Assistant.v ===== *)
(** * [AIAssistant]: the chat session

    [AIAssistant] ([src/src/app.js], lines 304-501) keeps a transcript, the
    text being typed, the file selected and a loading flag in four state
    cells, here one record [state].  Its handlers enqueue updaters, as
    [React] models them, and start asynchronous work: a request to the
    completion service ([callGeminiAPI]) or the reading of the selected
    file.

    An asynchronous function is modelled by the part that runs when it is
    called ([callGeminiAPI_start]: up to the [fetch]) and the part that runs
    when the request settles ([callGeminiAPI_settle]: the rest of the [try],
    the [catch] and the [finally]).  What the service answers is an
    [outcome].  [session_step] interleaves the events of the interface, the renders
    and the completions of the pending work; a handler always runs against
    the state of the last render, and the handler of a completed file read
    against the state rendered when the read was started.

    The API key written in the source is a field of the environment and not
    a literal of the model: the handlers depend only on its being a
    non-empty string other than the placeholder.

    [perform] computes the steps of the session and [play] runs a list of
    them, so that a run is checked by evaluation.  The theorems give what
    [callGeminiAPI] appends for each outcome, the round trips of the three
    entry points from an idle session, the invariants of every interleaving
    and the runs in which the session does what its specification excludes:
    two requests in flight, and a transcript that loses entries. *)

From Stdlib Require Import String Ascii.
From stdpp Require Import base tactics option list strings relations.
From S2P Require Import Prelude JsArray ResumeData React Json.

(** ** Data *)

(** The [role] of a transcript entry: the literals ['user'] and ['ai']. *)
Inductive role : Type := user | ai.

Record message : Type := Message {
  msg_role : role;
  msg_text : string;
}.

(** What the handlers read of a [File]: its name and its MIME type. *)
Record file : Type := File {
  file_name : string;
  file_type : string;
}.

#[global] Instance role_eq_dec : EqDecision role.
Proof. solve_decision. Defined.
#[global] Instance message_eq_dec : EqDecision message.
Proof. solve_decision. Defined.
#[global] Instance file_eq_dec : EqDecision file.
Proof. solve_decision. Defined.

(** The four state cells (lines 305-310). *)
Record state : Type := State {
  messages : list message;
  userInput : string;
  uploadedFile : option file;
  isLoading : bool;
}.

#[global] Instance state_eq_dec : EqDecision state.
Proof. solve_decision. Defined.

(** The arguments of the four [useState] (lines 305-310). *)
Definition initialState : state := {|
  messages := [Message ai
    "Hello! Ask a question, get feedback on the resume you build here, or upload your own for analysis."];
  userInput := "";
  uploadedFile := None;
  isLoading := false;
|}.

(** ** Setters *)

Abbreviation chat_updater := (state → state).

(** [setMessages(f)] with an updater function. *)
Definition setMessages (f : list message → list message) : chat_updater :=
  λ s, State (f (messages s)) (userInput s) (uploadedFile s) (isLoading s).

(** [setMessages(prev => [...prev, m])]. *)
Definition appendMessage (m : message) : chat_updater :=
  setMessages (λ prev, prev ++ [m]).

(** [setMessages(newMessages)] with a value. *)
Definition replaceMessages (newMessages : list message) : chat_updater :=
  setMessages (λ _, newMessages).

Definition setUserInput (value : string) : chat_updater :=
  λ s, State (messages s) value (uploadedFile s) (isLoading s).

Definition setUploadedFile (f : file) : chat_updater :=
  λ s, State (messages s) (userInput s) (Some f) (isLoading s).

Definition setIsLoading (b : bool) : chat_updater :=
  λ s, State (messages s) (userInput s) (uploadedFile s) b.

(** The updaters of a list, applied oldest first. *)
Definition apply_all (us : list chat_updater) (s : state) : state :=
  foldl (λ s u, u s) s us.

(** ** The request *)

(** [process.env.REACT_APP_GEMINI_API_KEY], and the key the source falls
    back to (line 322). *)
Record env : Type := Env {
  REACT_APP_GEMINI_API_KEY : option string;
  literalKey : string;
}.

(** The [filePayload] built by [handleAnalyzeFile] (lines 410-413): [data]
    is [undefined] when the data URL has no comma. *)
Record payload : Type := Payload {
  mimeType : string;
  data : option string;
}.

(** An element of [parts] (lines 333-341). *)
Inductive part : Type :=
| PText (text : string)
| PInlineData (mime_type : string) (data : option string).

(** What [fetch] is called with (lines 331-350): the URL and the parts of
    the one content of the body. *)
Record request : Type := Request {
  apiUrl : string;
  parts : list part;
}.

#[global] Instance payload_eq_dec : EqDecision payload.
Proof. solve_decision. Defined.
#[global] Instance part_eq_dec : EqDecision part.
Proof. solve_decision. Defined.
#[global] Instance request_eq_dec : EqDecision request.
Proof. solve_decision. Defined.

(** How a request settles.  [Rejected]: [fetch] or [response.json()]
    rejects, with the message of the error.  [Failure]: the status is not
    2xx and the body is an object; the argument is
    [errorBody.error?.message].  [Success]: the status is 2xx and the body
    is an object; the argument is
    [result.candidates?.[0]?.content?.parts?.[0]?.text]. *)
Inductive outcome : Type :=
| Rejected (message : string)
| Failure (error_message : option string)
| Success (text : option string).

Definition placeholderKey : string := "YOUR_API_KEY_HERE".

Definition missingKeyMessage : string :=
  "API Key is missing. Please add your Gemini API key to a .env file (REACT_APP_GEMINI_API_KEY=...).".

Definition apiKey (e : env) : string :=
  js_or_opt (REACT_APP_GEMINI_API_KEY e) (literalKey e).

(** [callGeminiAPI] from its call to the [fetch] (lines 320-350): the
    updaters it enqueues and the request it sends, if any. *)
Definition callGeminiAPI_start (e : env) (prompt : string)
    (filePayload : option payload) : list chat_updater * option request :=
  if negb (truthy (apiKey e)) || bool_decide (apiKey e = placeholderKey) then
    ([setIsLoading true; appendMessage (Message ai missingKeyMessage);
      setIsLoading false], None)
  else
    ([setIsLoading true],
     Some (Request
       ("https://generativelanguage.googleapis.com/v1beta/models/gemini-1.5-flash:generateContent?key="
          +:+ apiKey e)
       (PText prompt ::
        match filePayload with
        | Some p => [PInlineData (mimeType p) (data p)]
        | None => []
        end))).

(** The [try] block once the request has settled (lines 352-364): the text
    of the answer, or the exception thrown. *)
Definition try_block (o : outcome) : result string :=
  match o with
  | Rejected message => Throw (Error message)
  | Failure error_message =>
      Throw (Error ("API request failed: " +:+ js_or_opt error_message "Unknown error"))
  | Success text =>
      match text with
      | Some aiResponse =>
          if truthy aiResponse then Ok aiResponse
          else Throw (Error "No valid content in AI response.")
      | None => Throw (Error "No valid content in AI response.")
      end
  end.

(** [error.message]. *)
Definition exn_message (x : exn) : string :=
  match x with
  | TypeError reading => "Cannot read properties of undefined (reading '" +:+ reading +:+ "')"
  | Error message => message
  end.

(** [callGeminiAPI] from the settling of the request on (lines 352-370):
    the [try], the [catch] and the [finally]. *)
Definition callGeminiAPI_settle (o : outcome) : list chat_updater :=
  match try_block o with
  | Ok aiResponse => [appendMessage (Message ai aiResponse)]
  | Throw error => [appendMessage (Message ai ("Error: " +:+ exn_message error))]
  end ++ [setIsLoading false].

(** ** Handlers *)

(** The prompt of [handleSendMessage] before the question (line 378). *)
Definition questionPrompt : string :=
  "You are a helpful and detailed career assistant for students. Your tone is encouraging and professional. Answer the following question thoroughly and provide a comprehensive, elongated response. If applicable, use examples or step-by-step lists. Format your answer using markdown. The user's question is: ".

(** The prompt of [handleGetFeedback] before the resume (line 385). *)
Definition feedbackPrompt : string :=
  "You are an expert resume reviewer and career coach. Your tone should be encouraging, professional, and very thorough. Analyze the following resume data, which is in JSON format. Provide a detailed, section-by-section review in a long, " +:+ String dquote "elongated" +:+ String dquote " format. For each section (Summary, Experience, etc.), first praise what is good, then provide specific, actionable suggestions for improvement. Explain the 'why' behind each suggestion to help the user learn. Conclude with a summary of the top 3 most impactful changes the user can make. Format the entire response using markdown for readability." +:+ newline +:+ newline +:+ "Here is the resume data:" +:+ newline +:+ newline.

(** The prompt of [handleAnalyzeFile] (line 415). *)
Definition filePrompt : string :=
  "You are an expert resume reviewer and career coach. Your tone should be encouraging, professional, and very thorough. Analyze this uploaded resume file (which could be an image, PDF, or document). Provide a detailed, section-by-section review in a long, 'elongated' format. For each section you identify, first praise what is good, then provide specific, actionable suggestions for improvement. Explain the 'why' behind each suggestion. Conclude with a summary of the top 3 most impactful changes the user can make. Format the entire response using markdown for readability.".

Definition feedbackRequestText : string :=
  "Please give me detailed feedback on the resume I built.".

(** What a handler does when it runs: the updaters it enqueues, in order,
    and the request it sends. *)
Abbreviation effects := (list chat_updater * option request)%type.

(** Lines 373-381.  [st] is the state of the render that created the
    handler: [userInput] and [messages] are read from it. *)
Definition handleSendMessage (e : env) (st : state) : effects :=
  if negb (truthy (trim (userInput st))) then ([], None)
  else
    let newMessages := messages st ++ [Message user (userInput st)] in
    let prompt := questionPrompt +:+ userInput st in
    let '(us, req) := callGeminiAPI_start e prompt None in
    ([replaceMessages newMessages] ++ us ++ [setUserInput ""], req).

(** Lines 383-389. *)
Definition handleGetFeedback (e : env) (resumeData : ResumeData) (st : state) : effects :=
  let resumeJson := stringify (resume_json resumeData) in
  let prompt := feedbackPrompt +:+ resumeJson in
  let newMessages := messages st ++ [Message user feedbackRequestText] in
  let '(us, req) := callGeminiAPI_start e prompt None in
  ([replaceMessages newMessages] ++ us, req).

(** Lines 391-396: [e.target.files[0]] is [undefined] when the dialog is
    closed without a file. *)
Definition handleFileChange (f : option file) : list chat_updater :=
  match f with
  | Some f => [setUploadedFile f]
  | None => []
  end.

(** The pieces of [s] between the occurrences of [sep]: [s.split(sep)]. *)
Fixpoint split_on (sep : ascii) (s : string) : list string :=
  match s with
  | EmptyString => [EmptyString]
  | String c s' =>
      if decide (c = sep) then EmptyString :: split_on sep s'
      else match split_on sep s' with
           | piece :: pieces => String c piece :: pieces
           | [] => [String c EmptyString]
           end
  end.

(** Lines 398-407, up to [readAsDataURL]: the updaters enqueued, and the
    file whose reading starts. *)
Definition handleAnalyzeFile (st : state) : list chat_updater * option file :=
  match uploadedFile st with
  | None => ([appendMessage (Message ai "Please upload a file first.")], None)
  | Some f => ([], Some f)
  end.

(** [reader.onloadend] (lines 408-420), for the handler created by the
    render of [st] for the file [f].  [result] is [reader.result]: the data
    URL, or [null] when the reading failed, in which case [split] is read
    off [null] and the handler throws before it does anything. *)
Definition onloadend (e : env) (st : state) (f : file) (result : option string) :
    effects :=
  match result with
  | None => ([], None)
  | Some dataURL =>
      let base64Data := split_on "," dataURL !! 1 in
      let filePayload := Payload (file_type f) base64Data in
      let newMessages :=
        messages st ++ [Message user ("Reviewing uploaded file: " +:+ file_name f)] in
      let '(us, req) := callGeminiAPI_start e filePrompt (Some filePayload) in
      ([replaceMessages newMessages] ++ us, req)
  end.

(** [reader.onerror] (lines 421-424). *)
Definition onerror : list chat_updater :=
  [appendMessage (Message ai "Sorry, there was an error reading your file.")].

(** ** Events and the session *)

(** The events of the interface (lines 427-500): typing in the text input,
    submitting the form, pressing "Get Feedback on Built Resume" (with the
    resume [App] passes down), choosing a file, pressing "Analyze
    Uploaded". *)
Inductive chat_event : Type :=
| InputChange (value : string)
| SendMessage
| GetFeedback (resumeData : ResumeData)
| FileChange (f : option file)
| AnalyzeFile.

(** The [disabled] attributes (lines 470-496): the two buttons, the text
    input and the submit button are disabled while [isLoading], and "Analyze
    Uploaded" also while no file is selected.  The file input (lines
    431-437) has no [disabled] attribute: its dialog is opened by "Upload
    Resume", and the choice arrives when the user makes it, whatever the
    state is by then. *)
Definition control_enabled (st : state) (ev : chat_event) : Prop :=
  match ev with
  | FileChange _ => True
  | AnalyzeFile => isLoading st = false ∧ is_Some (uploadedFile st)
  | InputChange _ | SendMessage | GetFeedback _ => isLoading st = false
  end.

#[global] Instance control_enabled_dec st ev : Decision (control_enabled st ev).
Proof. unfold control_enabled. destruct ev; apply _. Defined.

(** A file being read, with the state its [onloadend] handler closes
    over. *)
Record reading : Type := Reading {
  rd_closure : state;
  rd_file : file;
}.

(** The session: the state cells, the requests in flight and the files being
    read. *)
Record world : Type := World {
  ui : cell state;
  requests : list request;
  readings : list reading;
}.

(** What the handler of an event does, run against the state [st] its
    closure holds: the updaters, the request sent, the file whose reading
    starts. *)
Definition chat_handle (e : env) (st : state) (ev : chat_event) :
    list chat_updater * option request * option file :=
  match ev with
  | InputChange value => ([setUserInput value], None, None)
  | SendMessage => (handleSendMessage e st, None)
  | GetFeedback resumeData => (handleGetFeedback e resumeData st, None)
  | FileChange f => (handleFileChange f, None, None)
  | AnalyzeFile => let '(us, f) := handleAnalyzeFile st in (us, None, f)
  end.

Definition enqueue (us : list chat_updater) (c : cell state) : cell state :=
  foldl (λ c u, setState u c) c us.

Definition on_event (e : env) (ev : chat_event) (w : world) : world :=
  let st := rendered (ui w) in
  let '(us, req, f) := chat_handle e st ev in
  World (enqueue us (ui w)) (requests w ++ option_list req)
    (readings w ++ option_list (Reading st <$> f)).

(** The [i]-th request in flight settles with outcome [o]. *)
Definition on_settle (i : nat) (o : outcome) (w : world) : world :=
  World (enqueue (callGeminiAPI_settle o) (ui w)) (delete i (requests w)) (readings w).

(** The [i]-th reading ends.  With a data URL, [loadend] fires; without,
    [error] fires and then [loadend] with a [null] result. *)
Definition on_read (e : env) (i : nat) (rd : reading) (result : option string)
    (w : world) : world :=
  let '(us, req) := onloadend e (rd_closure rd) (rd_file rd) result in
  let us := match result with Some _ => us | None => onerror ++ us end in
  World (enqueue us (ui w)) (requests w ++ option_list req) (delete i (readings w)).

Definition on_render (w : world) : world :=
  World (render (ui w)) (requests w) (readings w).

Inductive session_step (e : env) : world → world → Prop :=
| session_event w ev :
    control_enabled (rendered (ui w)) ev → session_step e w (on_event e ev w)
| session_render w : session_step e w (on_render w)
| session_settle w i req o :
    requests w !! i = Some req → session_step e w (on_settle i o w)
| session_read w i rd result :
    readings w !! i = Some rd → session_step e w (on_read e i rd result w).

Definition initialWorld : world := World (mount initialState) [] [].

Definition session_reachable (e : env) (w : world) : Prop :=
  rtc (session_step e) initialWorld w.

(** The state the next render shows. *)
Definition next (w : world) : state := flush (ui w).

(** ** What the session promises *)

(** The outcomes on which the [try] block returns a text. *)
Definition answered (o : outcome) : option string :=
  match o with
  | Success (Some t) => if truthy t then Some t else None
  | _ => None
  end.

(** The key check of [callGeminiAPI] passes. *)
Definition usable_key (e : env) : Prop :=
  truthy (apiKey e) = true ∧ apiKey e ≠ placeholderKey.

#[global] Instance usable_key_dec e : Decision (usable_key e).
Proof. unfold usable_key. apply _. Defined.

(** The code unit [c] occurs in [s]. *)
Fixpoint occurs (c : ascii) (s : string) : bool :=
  match s with
  | EmptyString => false
  | String c' s' => bool_decide (c' = c) || occurs c s'
  end.

Arguments flush {S} !c /.

(** The state on the screen. *)
Definition shown (w : world) : state := rendered (ui w).

(** The transcript opens with the greeting. *)
Definition greeted (s : state) : Prop := head (messages s) = head (messages initialState).

(** Nothing is pending: no chat_updater, no request, no reading, and the
    controls are enabled. *)
Definition idle (w : world) : Prop :=
  queue (ui w) = [] ∧ requests w = [] ∧ readings w = [] ∧ isLoading (shown w) = false.

(** [P] holds of the state on the screen and of the state every pending
    handler closes over, and every pending chat_updater preserves it. *)
Definition world_ok (P : state → Prop) (w : world) : Prop :=
  cell_ok P (ui w) ∧ Forall (λ rd, P (rd_closure rd)) (readings w).

#[global] Instance idle_dec w : Decision (idle w).
Proof. unfold idle. apply _. Defined.

(** What happens next in a session: a control is used, the component
    renders, the [i]-th request settles, the [i]-th reading ends. *)
Inductive action : Type :=
| Press (ev : chat_event)
| Render
| Settle (i : nat) (o : outcome)
| Read (i : nat) (result : option string).

#[global] Instance outcome_eq_dec : EqDecision outcome.
Proof. solve_decision. Defined.
#[global] Instance chat_event_eq_dec : EqDecision chat_event.
Proof. solve_decision. Defined.
#[global] Instance action_eq_dec : EqDecision action.
Proof. solve_decision. Defined.

(** The world after an action, when the action is possible. *)
Definition perform (e : env) (a : action) (w : world) : option world :=
  match a with
  | Press ev =>
      if decide (control_enabled (rendered (ui w)) ev) then Some (on_event e ev w) else None
  | Render => Some (on_render w)
  | Settle i o => _ ← requests w !! i; Some (on_settle i o w)
  | Read i result => rd ← readings w !! i; Some (on_read e i rd result w)
  end.

Fixpoint play (e : env) (acts : list action) (w : world) : option world :=
  match acts with
  | [] => Some w
  | a :: acts => w' ← perform e a w; play e acts w'
  end.

(** An action followed by the render React schedules after it. *)
Definition perform_render (e : env) (a : action) (w : world) : option world :=
  on_render <$> perform e a w.

Fixpoint play_rendered (e : env) (acts : list action) (w : world) : option world :=
  match acts with
  | [] => Some w
  | a :: acts => w' ← perform_render e a w; play_rendered e acts w'
  end.

(** The loading flag tells whether a request is in flight, and there is at
    most one; nothing waits to be rendered and no file is being read. *)
Definition one_request (w : world) : Prop :=
  queue (ui w) = [] ∧ readings w = [] ∧
  length (requests w) = if isLoading (shown w) then 1 else 0.

(** ** Setters and queues *)

Section setters.
Implicit Types (s st : state) (m : message) (us vs : list chat_updater) (c : cell state).

Lemma apply_all_app us vs s : apply_all (us ++ vs) s = apply_all vs (apply_all us s).
Proof. apply foldl_app. Qed.

Lemma apply_all_cons (u : chat_updater) us s : apply_all (u :: us) s = apply_all us (u s).
Proof. done. Qed.

Lemma apply_all_nil s : apply_all [] s = s.
Proof. done. Qed.

Lemma rendered_enqueue us c : rendered (enqueue us c) = rendered c.
Proof. revert c. induction us as [|u us IH]; intros c; [done|]. simpl. by rewrite IH. Qed.

Lemma queue_enqueue us c : queue (enqueue us c) = queue c ++ us.
Proof.
  revert c. induction us as [|u us IH]; intros c; simpl; [by rewrite app_nil_r|].
  rewrite IH. simpl. by rewrite <-app_assoc.
Qed.

Lemma flush_enqueue us c : flush (enqueue us c) = apply_all us (flush c).
Proof. unfold flush. by rewrite rendered_enqueue, queue_enqueue, foldl_app. Qed.

Lemma messages_appendMessage m s : messages (appendMessage m s) = messages s ++ [m].
Proof. done. Qed.

Lemma messages_replaceMessages l s : messages (replaceMessages l s) = l.
Proof. done. Qed.

Lemma try_block_answered o t : answered o = Some t → try_block o = Ok t.
Proof. destruct o as [?|?|[t'|]]; simpl; [done..| |done]. by destruct (truthy t'); intros [= ->]. Qed.

Lemma try_block_unanswered o :
  answered o = None → ∃ msg, try_block o = Throw (Error msg).
Proof.
  destruct o as [?|?|[t'|]]; simpl; eauto. destruct (truthy t'); [done|eauto].
Qed.

Lemma callGeminiAPI_start_usable e prompt fp :
  usable_key e →
  callGeminiAPI_start e prompt fp =
    ([setIsLoading true],
     Some (Request
       ("https://generativelanguage.googleapis.com/v1beta/models/gemini-1.5-flash:generateContent?key="
          +:+ apiKey e)
       (PText prompt ::
        match fp with Some p => [PInlineData (mimeType p) (data p)] | None => [] end))).
Proof.
  intros [Ht Hp]. unfold callGeminiAPI_start. rewrite Ht.
  by rewrite bool_decide_eq_false_2 by done.
Qed.

Lemma callGeminiAPI_start_unusable e prompt fp :
  ¬ usable_key e →
  callGeminiAPI_start e prompt fp =
    ([setIsLoading true; appendMessage (Message ai missingKeyMessage);
      setIsLoading false], None).
Proof.
  intros Hn. unfold callGeminiAPI_start, usable_key in *.
  destruct (truthy (apiKey e)); simpl; [|done].
  rewrite bool_decide_eq_true_2; [done|]. destruct (decide (apiKey e = placeholderKey)); naive_solver.
Qed.

End setters.

(** ** The request and its settling *)

Section request_lemmas.
Implicit Types (e : env) (s : state) (o : outcome).

Lemma settle_updaters o :
  ∃ txt, callGeminiAPI_settle o = [appendMessage (Message ai txt); setIsLoading false] ∧
    match answered o with
    | Some t => txt = t
    | None => starts_with "Error: " txt = true
    end.
Proof.
  unfold callGeminiAPI_settle. destruct (answered o) as [t|] eqn:Ho.
  - rewrite (try_block_answered _ _ Ho). eauto.
  - destruct (try_block_unanswered _ Ho) as [msg ->]. eexists; split; [done|].
    apply prefix_app.
Qed.

(** Whatever the service answers, the settling of a request appends
    exactly one assistant entry to the transcript, clears the loading flag and
    leaves the typed text and the selected file alone. *)
Lemma settle_appends_one o s :
  ∃ txt, apply_all (callGeminiAPI_settle o) s =
    State (messages s ++ [Message ai txt]) (userInput s) (uploadedFile s) false.
Proof. destruct (settle_updaters o) as (txt & -> & _). by exists txt. Qed.

(** C12: when the request does not end in a 2xx answer with a non-empty
    text (the transport fails, the status is an error, or the answer has no
    text), the entry appended has the role [ai] and a text that starts with
    "Error: ", and the loading flag is cleared. *)
Theorem settle_error o s :
  answered o = None →
  ∃ txt, messages (apply_all (callGeminiAPI_settle o) s) = messages s ++ [Message ai txt] ∧
         starts_with "Error: " txt = true ∧
         isLoading (apply_all (callGeminiAPI_settle o) s) = false.
Proof.
  intros Ho. destruct (settle_updaters o) as (txt & -> & Ht).
  rewrite Ho in Ht. by exists txt.
Qed.

Lemma settle_error_witness :
  ∃ txt, messages (apply_all (callGeminiAPI_settle (Failure None)) initialState)
           = messages initialState ++ [Message ai txt] ∧
         starts_with "Error: " txt = true ∧
         isLoading (apply_all (callGeminiAPI_settle (Failure None)) initialState) = false.
Proof. apply settle_error. reflexivity. Defined.

(** The text surfaced for each failure: the message of a transport
    error as it is, the message of the service after "API request failed: "
    ("Unknown error" when the body has none), and a fixed text when a 2xx
    answer has no text. *)
Lemma settle_error_text o :
  try_block o =
    match o with
    | Rejected m => Throw (Error m)
    | Failure (Some m) =>
        Throw (Error ("API request failed: " +:+ (if truthy m then m else "Unknown error")))
    | Failure None => Throw (Error "API request failed: Unknown error")
    | Success t =>
        if truthy_opt t then Ok (default "" t)
        else Throw (Error "No valid content in AI response.")
    end.
Proof. by destruct o as [m|[[|??]|]|[[|??]|]]. Qed.

(** With the placeholder or an empty key, [callGeminiAPI] sends no
    request; it appends the instruction to configure the key and leaves the
    loading flag cleared. *)
Lemma placeholder_key_short_circuits e prompt fp s :
  apiKey e = placeholderKey ∨ apiKey e = "" →
  (callGeminiAPI_start e prompt fp).2 = None ∧
  apply_all (callGeminiAPI_start e prompt fp).1 s =
    State (messages s ++ [Message ai missingKeyMessage]) (userInput s) (uploadedFile s) false.
Proof.
  intros He. rewrite callGeminiAPI_start_unusable; [done|].
  intros [Ht Hp]. destruct He as [He|He]; [done|]. by rewrite He in Ht.
Qed.

Lemma placeholder_key_short_circuits_witness :
  let e := Env (Some "YOUR_API_KEY_HERE") "fallback" in
  (callGeminiAPI_start e "hello" None).2 = None ∧
  apply_all (callGeminiAPI_start e "hello" None).1 initialState =
    State (messages initialState ++ [Message ai missingKeyMessage]) "" None false.
Proof. apply (placeholder_key_short_circuits (Env (Some "YOUR_API_KEY_HERE") "fallback")). by left. Defined.

(** C37: when the environment defines no key, the key written in the source
    is used: if that one is a non-empty string other than the placeholder, the
    request is sent, to a URL that ends with it. *)
Theorem missing_credential_falls_back e prompt fp :
  truthy_opt (REACT_APP_GEMINI_API_KEY e) = false →
  truthy (literalKey e) = true → literalKey e ≠ placeholderKey →
  ∃ req, callGeminiAPI_start e prompt fp = ([setIsLoading true], Some req) ∧
    apiUrl req =
      "https://generativelanguage.googleapis.com/v1beta/models/gemini-1.5-flash:generateContent?key="
        +:+ literalKey e.
Proof.
  intros He Ht Hp.
  assert (apiKey e = literalKey e) as Hk.
  { unfold apiKey. destruct (REACT_APP_GEMINI_API_KEY e) as [[|??]|]; done. }
  unfold callGeminiAPI_start. rewrite Hk, Ht, bool_decide_eq_false_2 by done.
  simpl. eauto.
Qed.

Lemma missing_credential_falls_back_witness :
  ∃ req, callGeminiAPI_start (Env None "fallback") "hello" None
           = ([setIsLoading true], Some req) ∧
    apiUrl req =
      "https://generativelanguage.googleapis.com/v1beta/models/gemini-1.5-flash:generateContent?key="
        +:+ "fallback".
Proof. by apply (missing_credential_falls_back (Env None "fallback")). Defined.

End request_lemmas.

(** ** The handlers *)

Section handlers.
Context (e : env).
Implicit Types (st s : state) (w : world) (o : outcome) (r : ResumeData).

Lemma handleSendMessage_blank st :
  blank (userInput st) = true → handleSendMessage e st = ([], None).
Proof. intros Hb. unfold handleSendMessage. by rewrite truthy_trim, Hb. Qed.

Lemma handleSendMessage_usable st :
  usable_key e → blank (userInput st) = false →
  ∃ req, handleSendMessage e st =
      ([replaceMessages (messages st ++ [Message user (userInput st)]);
        setIsLoading true; setUserInput ""], Some req) ∧
    parts req = [PText (questionPrompt +:+ userInput st)].
Proof.
  intros He Hb. unfold handleSendMessage. rewrite truthy_trim, Hb. simpl.
  rewrite (callGeminiAPI_start_usable e _ _ He). eauto.
Qed.

Lemma handleGetFeedback_usable r st :
  usable_key e →
  ∃ req, handleGetFeedback e r st =
      ([replaceMessages (messages st ++ [Message user feedbackRequestText]);
        setIsLoading true], Some req) ∧
    parts req = [PText (feedbackPrompt +:+ stringify (resume_json r))].
Proof.
  intros He. unfold handleGetFeedback.
  rewrite (callGeminiAPI_start_usable e _ _ He). eauto.
Qed.

Lemma onloadend_usable st f dataURL :
  usable_key e →
  ∃ req, onloadend e st f (Some dataURL) =
      ([replaceMessages
          (messages st ++ [Message user ("Reviewing uploaded file: " +:+ file_name f)]);
        setIsLoading true], Some req) ∧
    parts req = [PText filePrompt; PInlineData (file_type f) (split_on "," dataURL !! 1)].
Proof.
  intros He. unfold onloadend.
  rewrite (callGeminiAPI_start_usable e _ _ He). eauto.
Qed.

(** The updaters of the two handlers that ask for a completion. *)
Lemma handleSendMessage_updaters st :
  blank (userInput st) = false →
  (handleSendMessage e st).1 =
    replaceMessages (messages st ++ [Message user (userInput st)]) ::
    (callGeminiAPI_start e (questionPrompt +:+ userInput st) None).1 ++ [setUserInput ""].
Proof.
  intros Hb. unfold handleSendMessage. rewrite truthy_trim, Hb. simpl.
  by destruct (callGeminiAPI_start e _ None).
Qed.

Lemma handleGetFeedback_updaters r st :
  (handleGetFeedback e r st).1 =
    replaceMessages (messages st ++ [Message user feedbackRequestText]) ::
    (callGeminiAPI_start e (feedbackPrompt +:+ stringify (resume_json r)) None).1.
Proof. unfold handleGetFeedback. by destruct (callGeminiAPI_start e _ None). Qed.

Lemma world_eta w : World (ui w) (requests w) (readings w) = w.
Proof. by destruct w. Qed.

Lemma cell_eta (c : cell state) : Cell (rendered c) (queue c) = c.
Proof. by destruct c. Qed.

Lemma only_file_while_loading st ev :
  isLoading st = true → control_enabled st ev → ∃ f, ev = FileChange f.
Proof. intros Hl. destruct ev; simpl; [congruence..|by eauto|intros [? _]; congruence]. Qed.

(** C11: submitting a text that is empty or only white space does nothing:
    no chat_updater is enqueued, so the transcript does not change, and no request
    is sent. *)
Theorem send_blank_noop w :
  blank (userInput (shown w)) = true → on_event e SendMessage w = w.
Proof.
  intros Hb. unfold on_event, chat_handle, shown in *.
  rewrite (handleSendMessage_blank _ Hb). simpl. by rewrite !app_nil_r, world_eta.
Qed.

End handlers.

Lemma send_blank_noop_witness :
  let e := Env None "fallback" in
  let w := on_render (on_event e (InputChange "  ") initialWorld) in
  on_event e SendMessage w = w.
Proof. apply send_blank_noop. reflexivity. Defined.

(** ** Round trips of a session with a usable key *)

Section cycles.
Context (e : env) (He : usable_key e).
Implicit Types (w : world) (o : outcome) (r : ResumeData) (f : file).

#[local] Arguments onloadend : simpl never.
#[local] Arguments callGeminiAPI_start : simpl never.

Ltac start w :=
  let st := fresh "st" in
  intros (Hq & Hr & Hd & Hl); destruct w as [[st ?] ? ?];
  unfold shown, on_event, on_read, on_settle, chat_handle in *; simpl in *; subst.

(** A question sent from an idle session.  Once rendered, the loading
    flag is set, one request is in flight and no control but the file input
    can be used;
    when the request settles, whatever the outcome, the session is idle
    again, the input is cleared and the transcript has grown by the question
    and one assistant entry. *)
Lemma send_cycle w o :
  idle w → blank (userInput (shown w)) = false →
  let w1 := on_render (on_event e SendMessage w) in
  let w2 := on_render (on_settle 0 o w1) in
  (∀ ev, control_enabled (shown w1) ev → ∃ c, ev = FileChange c) ∧
  length (requests w1) = 1 ∧
  idle w2 ∧ userInput (shown w2) = "" ∧
  ∃ txt, messages (shown w2) =
    messages (shown w) ++ [Message user (userInput (shown w)); Message ai txt].
Proof.
  start w. intros Hb.
  destruct (handleSendMessage_usable e st He Hb) as (req & -> & _).
  destruct (settle_updaters o) as (txt & -> & _). simpl.
  split; [by intros ev; apply only_file_while_loading|].
  repeat split. exists txt. by rewrite <-app_assoc.
Qed.

(** C9: feedback asked from an idle session on the resume [r].  The
    request carries one text part, the review prompt followed by the resume as
    JSON; when the service answers with the text [t], the transcript has
    grown by exactly one user entry and one assistant entry with the text
    [t], and the session is idle again. *)
Theorem feedback_round_trip w r o t :
  idle w → answered o = Some t →
  let w1 := on_render (on_event e (GetFeedback r) w) in
  let w2 := on_render (on_settle 0 o w1) in
  (∃ req, requests w1 = [req] ∧
          parts req = [PText (feedbackPrompt +:+ stringify (resume_json r))]) ∧
  isLoading (shown w1) = true ∧ idle w2 ∧
  messages (shown w2) =
    messages (shown w) ++ [Message user feedbackRequestText; Message ai t].
Proof.
  start w. intros Ho.
  destruct (handleGetFeedback_usable e r st He) as (req & -> & Hreq).
  destruct (settle_updaters o) as (txt & -> & Ht). rewrite Ho in Ht. subst txt. simpl.
  split; [eauto|]. repeat split. by rewrite <-app_assoc.
Qed.

(** C38: the analysis of the selected file [f] from an idle session, with
    a usable key, when the reading yields [dataURL].  The transcript grows by the entry that
    names the file, the loading flag is set, and the request carries the
    review prompt and the file inline: its MIME type, and as data what
    follows the first comma of the data URL, up to the next. *)
Theorem analyze_cycle w f dataURL :
  idle w → uploadedFile (shown w) = Some f →
  let w1 := on_event e AnalyzeFile w in
  let w2 := on_render (on_read e 0 (Reading (shown w) f) (Some dataURL) w1) in
  readings w1 = [Reading (shown w) f] ∧ requests w1 = [] ∧ readings w2 = [] ∧
  (∃ req, requests w2 = [req] ∧
     parts req = [PText filePrompt; PInlineData (file_type f) (split_on "," dataURL !! 1)]) ∧
  isLoading (shown w2) = true ∧
  messages (shown w2) =
    messages (shown w) ++ [Message user ("Reviewing uploaded file: " +:+ file_name f)].
Proof.
  start w. intros Hf. unfold handleAnalyzeFile. rewrite Hf. simpl.
  destruct (onloadend_usable e st f dataURL He) as (req & -> & Hreq). simpl.
  repeat split. eauto.
Qed.

End cycles.

Lemma send_cycle_witness :
  let e := Env None "fallback" in
  let w := on_render (on_event e (InputChange "How long should it be?") initialWorld) in
  let w1 := on_render (on_event e SendMessage w) in
  let w2 := on_render (on_settle 0 (Rejected "Failed to fetch") w1) in
  (∀ ev, control_enabled (shown w1) ev → ∃ c, ev = FileChange c) ∧
  length (requests w1) = 1 ∧
  idle w2 ∧ userInput (shown w2) = "" ∧
  ∃ txt, messages (shown w2) =
    messages (shown w) ++ [Message user (userInput (shown w)); Message ai txt].
Proof.
  apply (send_cycle (Env None "fallback")); [|by repeat split|reflexivity].
  by apply (bool_decide_unpack _).
Defined.

Lemma feedback_round_trip_witness :
  let e := Env (Some "key") "fallback" in
  let w1 := on_render (on_event e (GetFeedback initialResumeData) initialWorld) in
  let w2 := on_render (on_settle 0 (Success (Some "Great start!")) w1) in
  (∃ req, requests w1 = [req] ∧
     parts req = [PText (feedbackPrompt +:+ stringify (resume_json initialResumeData))]) ∧
  isLoading (shown w1) = true ∧ idle w2 ∧
  messages (shown w2) =
    messages (shown initialWorld) ++
      [Message user feedbackRequestText; Message ai "Great start!"].
Proof.
  apply (feedback_round_trip (Env (Some "key") "fallback")); [|by repeat split|reflexivity].
  by apply (bool_decide_unpack _).
Defined.

Lemma analyze_cycle_witness :
  let e := Env (Some "key") "fallback" in
  let f := File "cv.pdf" "application/pdf" in
  let w := on_render (on_event e (FileChange (Some f)) initialWorld) in
  let w1 := on_event e AnalyzeFile w in
  let w2 := on_render
    (on_read e 0 (Reading (shown w) f) (Some "data:application/pdf;base64,JVBERi0=") w1) in
  readings w1 = [Reading (shown w) f] ∧ requests w1 = [] ∧ readings w2 = [] ∧
  (∃ req, requests w2 = [req] ∧
     parts req = [PText filePrompt;
       PInlineData (file_type f)
         (split_on "," "data:application/pdf;base64,JVBERi0=" !! 1)]) ∧
  isLoading (shown w2) = true ∧
  messages (shown w2) =
    messages (shown w) ++ [Message user ("Reviewing uploaded file: " +:+ file_name f)].
Proof.
  apply (analyze_cycle (Env (Some "key") "fallback")); [|by repeat split|reflexivity].
  by apply (bool_decide_unpack _).
Defined.

(** ** Data URLs *)

Section split.
Implicit Types (c sep : ascii) (s t : string).

Lemma split_on_ne_nil sep s : split_on sep s ≠ [].
Proof. induction s as [|c s IH]; simpl; [done|]. case_decide; [done|]. by destruct (split_on sep s). Qed.

Lemma split_on_absent sep s : occurs sep s = false → split_on sep s = [s].
Proof.
  induction s as [|c s IH]; simpl; [done|]. intros [Hc Hs]%orb_false_elim.
  apply bool_decide_eq_false in Hc. rewrite decide_False, IH by done. done.
Qed.

Lemma split_on_first sep s t :
  occurs sep s = false → split_on sep (s +:+ String sep t) = s :: split_on sep t.
Proof.
  induction s as [|c s IH]; intros Hs.
  - rewrite string_app_nil_l. simpl. by rewrite decide_True.
  - simpl in Hs. apply orb_false_elim in Hs as [Hc Hs]. apply bool_decide_eq_false in Hc.
    rewrite string_app_cons. simpl. by rewrite decide_False, IH.
Qed.

(** The data part of the payload.  For a data URL made of a header
    without a comma, a comma and a body without a comma (the form
    [readAsDataURL] produces: the base64 alphabet has no comma),
    [dataURL.split(',')[1]] is the body. *)
Lemma split_data_url header body :
  occurs "," header = false → occurs "," body = false →
  split_on "," (header +:+ "," +:+ body) !! 1 = Some body.
Proof.
  intros Hh Hb. change ("," +:+ body) with (String "," body).
  by rewrite split_on_first, split_on_absent.
Qed.

End split.

Lemma split_data_url_witness :
  split_on "," ("data:application/pdf;base64" +:+ "," +:+ "JVBERi0=") !! 1 = Some "JVBERi0=".
Proof. by apply split_data_url. Defined.

(** ** The session as a transition system *)

Section session.
Context (e : env).
Implicit Types (w : world) (a : action) (P : state → Prop) (us : list chat_updater).

(** [perform] computes exactly the steps of the session. *)
Lemma perform_step a w w' : perform e a w = Some w' → session_step e w w'.
Proof.
  destruct a as [ev| |i o|i result]; simpl.
  - case_decide; [|done]. intros [= <-]. by constructor.
  - intros [= <-]. constructor.
  - destruct (requests w !! i) as [req|] eqn:Hi; [|done]. intros [= <-].
    by econstructor.
  - destruct (readings w !! i) as [rd|] eqn:Hi; [|done]. intros [= <-].
    by econstructor.
Qed.

Lemma step_perform w w' : session_step e w w' → ∃ a, perform e a w = Some w'.
Proof.
  intros [w0 ev Hev|w0|w0 i req o Hi|w0 i rd result Hi].
  - exists (Press ev). simpl. by rewrite decide_True.
  - by exists Render.
  - exists (Settle i o). simpl. by rewrite Hi.
  - exists (Read i result). simpl. by rewrite Hi.
Qed.

Lemma play_steps acts w w' : play e acts w = Some w' → rtc (session_step e) w w'.
Proof.
  revert w. induction acts as [|a acts IH]; intros w; simpl; [by intros [= <-]|].
  destruct (perform e a w) as [w1|] eqn:Ha; [|done]. simpl. intros Hp.
  eapply rtc_l; [exact (perform_step _ _ _ Ha)|]. by apply IH.
Qed.

Lemma play_reachable acts w : play e acts initialWorld = Some w → session_reachable e w.
Proof. apply play_steps. Qed.

Lemma cell_ok_enqueue P us c : Forall (stable P) us → cell_ok P c → cell_ok P (enqueue us c).
Proof.
  revert c. induction us as [|u us IH]; intros c Hus Hc; [done|].
  apply Forall_cons in Hus as [Hu Hus]. simpl. by apply IH, cell_ok_setState.
Qed.

End session.

(** ** The greeting is never lost *)

Section greeting.
Context (e : env).
Implicit Types (w : world) (st s : state) (m : message) (us : list chat_updater).

Lemma greeted_snoc st m s : greeted st → greeted (replaceMessages (messages st ++ [m]) s).
Proof. unfold greeted. simpl. by destruct (messages st). Qed.

Lemma stable_appendMessage m : stable greeted (appendMessage m).
Proof. intros s Hs. by apply greeted_snoc. Qed.

Lemma stable_replaceMessages st m :
  greeted st → stable greeted (replaceMessages (messages st ++ [m])).
Proof. intros Hst s _. by apply greeted_snoc. Qed.

Lemma stable_setUserInput v : stable greeted (setUserInput v).
Proof. by intros s Hs. Qed.

Lemma stable_setUploadedFile f : stable greeted (setUploadedFile f).
Proof. by intros s Hs. Qed.

Lemma stable_setIsLoading b : stable greeted (setIsLoading b).
Proof. by intros s Hs. Qed.

Hint Resolve stable_appendMessage stable_replaceMessages stable_setUserInput
  stable_setUploadedFile stable_setIsLoading : core.

Lemma stable_start prompt fp : Forall (stable greeted) (callGeminiAPI_start e prompt fp).1.
Proof. unfold callGeminiAPI_start. case_match; simpl; repeat constructor; auto. Qed.

Lemma stable_settle o : Forall (stable greeted) (callGeminiAPI_settle o).
Proof. destruct (settle_updaters o) as (txt & -> & _). repeat constructor; auto. Qed.

Lemma stable_onloadend st f result :
  greeted st → Forall (stable greeted) (onloadend e st f result).1.
Proof.
  intros Hst. destruct result as [dataURL|]; simpl; [|done].
  pose proof (stable_start filePrompt
    (Some (Payload (file_type f) (split_on "," dataURL !! 1)))) as Hs.
  destruct (callGeminiAPI_start _ _ _) as [us req]. simpl in *. constructor; auto.
Qed.

Lemma stable_handle st ev : greeted st → Forall (stable greeted) (chat_handle e st ev).1.1.
Proof.
  intros Hst. destruct ev as [v| |r|[f|]|]; simpl; [repeat constructor; auto| | |
    repeat constructor; auto|done|].
  - unfold handleSendMessage. case_match; [done|].
    pose proof (stable_start (questionPrompt +:+ userInput st) None) as Hs.
    destruct (callGeminiAPI_start _ _ _) as [us req]. simpl in *.
    constructor; [auto|]. apply Forall_app. split; [done|]. repeat constructor; auto.
  - unfold handleGetFeedback.
    pose proof (stable_start (feedbackPrompt +:+ stringify (resume_json r)) None) as Hs.
    destruct (callGeminiAPI_start _ _ _) as [us req]. simpl in *. constructor; auto.
  - unfold handleAnalyzeFile. destruct (uploadedFile st); simpl; repeat constructor; auto.
Qed.

Lemma world_ok_step w w' : world_ok greeted w → session_step e w w' → world_ok greeted w'.
Proof.
  intros [Hc Hr] Hs. destruct Hs as [w ev Hev|w|w i req o Hi|w i rd result Hi].
  - unfold on_event. pose proof (stable_handle (rendered (ui w)) ev (proj1 Hc)) as Hh.
    destruct (chat_handle e _ ev) as [[us req] f]. split; simpl in *.
    + by apply cell_ok_enqueue.
    + apply Forall_app. split; [done|]. destruct f; repeat constructor. apply Hc.
  - split; [by apply cell_ok_render|done].
  - split; [|done]. apply cell_ok_enqueue; [apply stable_settle|done].
  - unfold on_read. apply (Forall_lookup_1 _ _ _ _ Hr) in Hi as Hrd.
    pose proof (stable_onloadend _ (rd_file rd) result Hrd) as Hh.
    destruct (onloadend e _ _ result) as [us req]. split; simpl in *.
    + apply cell_ok_enqueue; [|done]. destruct result; [done|].
      constructor; auto.
    + by apply Forall_delete.
Qed.

Lemma world_ok_reachable w : session_reachable e w → world_ok greeted w.
Proof.
  intros Hw. assert (world_ok greeted initialWorld) as H0.
  { split; [by apply cell_ok_mount|constructor]. }
  unfold session_reachable in Hw. induction Hw; eauto using world_ok_step.
Qed.

(** C24: in every state a session reaches, under any interleaving of the
    controls, the renders, the settling of requests and the end of readings,
    the transcript on the screen and the transcript of the next render open
    with the greeting: no handler, not even one that overwrites the transcript
    from the state of an earlier render, loses it. *)
Theorem session_greeted w :
  session_reachable e w → greeted (shown w) ∧ greeted (next w).
Proof.
  intros [Hc _]%world_ok_reachable. split; [apply Hc|exact (cell_ok_flush _ _ Hc)].
Qed.

End greeting.

Lemma session_greeted_witness :
  let e := Env (Some "key") "fallback" in
  let w := on_event e (GetFeedback initialResumeData) initialWorld in
  greeted (shown w) ∧ greeted (next w).
Proof.
  apply (session_greeted (Env (Some "key") "fallback")).
  apply (play_reachable _ [Press (GetFeedback initialResumeData)]). reflexivity.
Defined.

(** ** What the session does not maintain *)

Section interleavings.
Context (e : env) (He : usable_key e).

#[local] Arguments callGeminiAPI_start : simpl never.

(** Evaluates [play] when the key is usable. *)
Ltac play_usable :=
  simpl; unfold on_read, on_event, on_settle; simpl;
  unfold handleGetFeedback, handleSendMessage, onloadend, callGeminiAPI_settle; simpl;
  repeat (rewrite (callGeminiAPI_start_usable e _ _ He); simpl).

(** C25: with a usable key, more than one request can be in flight.
    "Analyze Uploaded" stays enabled while the file is being read, since the
    loading flag is set only when the reading ends; pressed twice, it starts
    two readings, and each sends its request. *)
Theorem two_requests_in_flight (f : file) (dataURL : string) :
  ∃ w, play e [Press (FileChange (Some f)); Render; Press AnalyzeFile; Render;
               Press AnalyzeFile; Render; Read 0 (Some dataURL); Render;
               Read 0 (Some dataURL); Render] initialWorld = Some w ∧
       length (requests w) = 2.
Proof.
  eexists. split; [by play_usable|done].
Qed.

(** C26: with a usable key, the transcript is not append-only.  The
    handler that runs when a reading ends overwrites the transcript with the one of the render that
    started the reading, plus its own entry: the entries appended in between,
    here a feedback request and its answer, are lost. *)
Theorem stale_reading_drops_entries (f : file) (dataURL t : string) (r : ResumeData) :
  truthy t = true →
  ∃ w w',
    play e [Press (FileChange (Some f)); Render; Press AnalyzeFile; Render;
            Press (GetFeedback r); Render; Settle 0 (Success (Some t)); Render]
      initialWorld = Some w ∧
    play e [Read 0 (Some dataURL); Render] w = Some w' ∧
    messages (shown w) =
      messages initialState ++ [Message user feedbackRequestText; Message ai t] ∧
    messages (shown w') =
      messages initialState ++
        [Message user ("Reviewing uploaded file: " +:+ file_name f)].
Proof.
  intros Ht. do 2 eexists.
  split; [play_usable; by rewrite Ht|].
  split; [by play_usable|done].
Qed.

End interleavings.

Lemma two_requests_in_flight_witness :
  let e := Env (Some "key") "fallback" in
  let f := File "cv.pdf" "application/pdf" in
  let dataURL := "data:application/pdf;base64,JVBERi0=" in
  ∃ w, play e [Press (FileChange (Some f)); Render; Press AnalyzeFile; Render;
               Press AnalyzeFile; Render; Read 0 (Some dataURL); Render;
               Read 0 (Some dataURL); Render] initialWorld = Some w ∧
       length (requests w) = 2.
Proof.
  apply (two_requests_in_flight (Env (Some "key") "fallback")).
  by apply (bool_decide_unpack _).
Defined.

Lemma stale_reading_drops_entries_witness :
  let e := Env (Some "key") "fallback" in
  let f := File "cv.pdf" "application/pdf" in
  ∃ w w',
    play e [Press (FileChange (Some f)); Render; Press AnalyzeFile; Render;
            Press (GetFeedback initialResumeData); Render;
            Settle 0 (Success (Some "Great start!")); Render]
      initialWorld = Some w ∧
    play e [Read 0 (Some "data:application/pdf;base64,JVBERi0="); Render] w = Some w' ∧
    messages (shown w) =
      messages initialState ++
        [Message user feedbackRequestText; Message ai "Great start!"] ∧
    messages (shown w') =
      messages initialState ++
        [Message user ("Reviewing uploaded file: " +:+ file_name f)].
Proof.
  apply (stale_reading_drops_entries (Env (Some "key") "fallback"));
    [by apply (bool_decide_unpack _)|reflexivity].
Defined.

(** ** One request at a time, as long as no file is analysed *)

Section one_request_lemmas.
Context (e : env).
Implicit Types (w : world) (a : action) (ev : chat_event).

#[local] Arguments callGeminiAPI_start : simpl never.

Lemma start_cases prompt fp :
  (∃ req, callGeminiAPI_start e prompt fp = ([setIsLoading true], Some req)) ∨
  callGeminiAPI_start e prompt fp =
    ([setIsLoading true; appendMessage (Message ai missingKeyMessage);
      setIsLoading false], None).
Proof.
  destruct (decide (usable_key e)) as [He|He].
  - left. rewrite (callGeminiAPI_start_usable e _ _ He). eauto.
  - right. by apply callGeminiAPI_start_unusable.
Qed.

Lemma one_request_event w ev :
  one_request w → control_enabled (shown w) ev → ev ≠ AnalyzeFile →
  one_request (on_render (on_event e ev w)).
Proof.
  intros (Hq & Hd & Hr) Hl Hev. destruct w as [[st q] rs rds].
  unfold one_request, shown, on_event in *. simpl in *. subst.
  destruct ev as [v| |r|[f|]|]; simpl in *; [| | |by rewrite !app_nil_r..|done];
    rewrite Hl in Hr; apply nil_length_inv in Hr as ->; [by rewrite Hl|..].
  - unfold handleSendMessage. rewrite truthy_trim.
    destruct (blank (userInput st)); simpl; [by rewrite Hl|].
    by destruct (start_cases (questionPrompt +:+ userInput st) None) as [[req ->]| ->].
  - unfold handleGetFeedback.
    by destruct (start_cases (feedbackPrompt +:+ stringify (resume_json r)) None)
      as [[req ->]| ->].
Qed.

Lemma one_request_settle w i o req :
  one_request w → requests w !! i = Some req →
  one_request (on_render (on_settle i o w)).
Proof.
  intros (Hq & Hd & Hr) Hi. destruct w as [[st q] rs rds].
  unfold one_request, shown, on_settle in *. simpl in *. subst.
  destruct (settle_updaters o) as (txt & -> & _). simpl.
  destruct rs as [|req0 [|??]]; [done| |by destruct (isLoading st)]. by destruct i.
Qed.

Lemma one_request_perform w w' a :
  one_request w → a ≠ Press AnalyzeFile → perform_render e a w = Some w' → one_request w'.
Proof.
  intros Hw Ha. unfold perform_render. destruct a as [ev| |i o|i result]; simpl.
  - case_decide as Hev; [|done]. intros [= <-]. apply one_request_event; [done..|congruence].
  - intros [= <-]. destruct Hw as (Hq & Hd & Hr). unfold one_request, shown in *.
    destruct w as [[st q] rs rds]. simpl in *. by subst.
  - destruct (requests w !! i) as [req|] eqn:Hi; [|done]. intros [= <-].
    by eapply one_request_settle.
  - destruct Hw as (_ & -> & _). done.
Qed.

(** In a session that renders after every action and in which
    "Analyze Uploaded" is never pressed, at most one request is in flight, and
    one is exactly when the loading flag is set. *)
Lemma one_request_without_analysis acts w :
  Press AnalyzeFile ∉ acts → play_rendered e acts initialWorld = Some w →
  length (requests w) ≤ 1 ∧ (isLoading (shown w) = true ↔ requests w ≠ []).
Proof.
  intros Hacts Hp. assert (one_request w) as (_ & _ & Hr).
  { assert (one_request initialWorld) as H0 by done. revert Hacts Hp H0.
    generalize initialWorld. induction acts as [|a acts IH]; intros w0 Hacts; simpl.
    - by intros [= <-].
    - apply not_elem_of_cons in Hacts as [Ha Hacts].
      destruct (perform_render e a w0) as [w1|] eqn:H1; [|done]. simpl.
      intros Hp H0. apply (IH w1); [done..|]. by eapply one_request_perform. }
  destruct (isLoading (shown w)), (requests w); simpl in *; split; try lia; by split.
Qed.

End one_request_lemmas.

Lemma one_request_without_analysis_witness :
  let e := Env (Some "key") "fallback" in
  let w := on_render (on_event e SendMessage
             (on_render (on_event e (InputChange "Which verbs?") initialWorld))) in
  length (requests w) ≤ 1 ∧ (isLoading (shown w) = true ↔ requests w ≠ []).
Proof.
  apply (one_request_without_analysis (Env (Some "key") "fallback")
           [Press (InputChange "Which verbs?"); Press SendMessage]);
    [|reflexivity].
  rewrite !elem_of_cons, elem_of_nil. by intros [|[|[]]].
Defined.

(** ** A reading that fails *)

Section read_error.
Context (e : env).

(** C39: when the reading of the selected file fails, the [error] handler
    appends its apology to the transcript; the [loadend] handler that follows
    reads [split] off a [null] result and throws before it enqueues anything,
    so no request is sent, the loading flag stays cleared and the session is
    idle again. *)
Theorem analyze_read_error w f :
  idle w → uploadedFile (shown w) = Some f →
  let w' := on_render (on_read e 0 (Reading (shown w) f) None (on_event e AnalyzeFile w)) in
  idle w' ∧
  messages (shown w') =
    messages (shown w) ++ [Message ai "Sorry, there was an error reading your file."].
Proof.
  intros (Hq & Hr & Hd & Hl) Hf. destruct w as [[st q] rs rds].
  unfold idle, shown, on_event, on_read, chat_handle, handleAnalyzeFile in *. simpl in *.
  subst. by rewrite Hf.
Qed.

(** "Analyze Uploaded" without a selected file appends the request to
    upload one and starts nothing: no reading and no request. *)
Lemma analyze_without_file w :
  uploadedFile (shown w) = None →
  requests (on_event e AnalyzeFile w) = requests w ∧
  readings (on_event e AnalyzeFile w) = readings w ∧
  next (on_event e AnalyzeFile w) =
    appendMessage (Message ai "Please upload a file first.") (next w).
Proof.
  intros Hf. unfold next, shown, on_event, chat_handle, handleAnalyzeFile in *. rewrite Hf. simpl.
  rewrite !app_nil_r. repeat split. apply flush_setState.
Qed.

End read_error.

Lemma analyze_read_error_witness :
  let e := Env (Some "key") "fallback" in
  let f := File "cv.pdf" "application/pdf" in
  let w := on_render (on_event e (FileChange (Some f)) initialWorld) in
  let w' := on_render (on_read e 0 (Reading (shown w) f) None (on_event e AnalyzeFile w)) in
  idle w' ∧
  messages (shown w') =
    messages (shown w) ++ [Message ai "Sorry, there was an error reading your file."].
Proof. by apply (analyze_read_error (Env (Some "key") "fallback")). Defined.

Lemma analyze_without_file_witness :
  let e := Env (Some "key") "fallback" in
  requests (on_event e AnalyzeFile initialWorld) = [] ∧
  readings (on_event e AnalyzeFile initialWorld) = [] ∧
  next (on_event e AnalyzeFile initialWorld) =
    appendMessage (Message ai "Please upload a file first.") (next initialWorld).
Proof. by apply (analyze_without_file (Env (Some "key") "fallback")). Defined.
