(* ===== verification/JsonRead.v ===== *)
(** * Reading the serialised record back

    The service receives the record as the text [JSON.stringify(resumeData,
    null, 2)] after the instructions of the prompt ([src/src/app.js], lines
    384-387).  This file has a reader of JSON texts, for the part of the
    JSON grammar the serialisation uses ([null], strings, arrays, objects,
    white space between the tokens), and shows that it reads every
    serialised value back: the indentation, the separators and the quoting
    lose nothing, so the text determines the value, and for well-formed
    records the record.  The reader is a reference definition, the inverse
    the serialisation is measured against; it models no code of the
    program.

    The reader recurses on a fuel; [size] is a fuel that is enough for a
    value (not the least), more fuel changes no result, and the theorems hold
    for every fuel from [size] on. *)

From Stdlib Require Import String Ascii.
From stdpp Require Import base tactics option list strings.
From S2P Require Import Prelude JsArray ResumeData React Json Assistant.

(** ** The reader *)

(** The white space of the JSON grammar: space, tab, line feed, carriage
    return. *)
Definition is_ws (c : ascii) : bool :=
  match c with
  | " "%char | "009"%char | "010"%char | "013"%char => true
  | _ => false
  end.

Fixpoint skip_ws (s : string) : string :=
  match s with
  | EmptyString => EmptyString
  | String c s' => if is_ws c then skip_ws s' else s
  end.

(** Every code unit of [s] is white space. *)
Fixpoint all_ws (s : string) : bool :=
  match s with
  | EmptyString => true
  | String c s' => is_ws c && all_ws s'
  end.

(** [s] without the prefix [p], when it starts with it. *)
Fixpoint strip_prefix (p s : string) : option string :=
  match p, s with
  | EmptyString, _ => Some s
  | String c p', String c' s' => if decide (c = c') then strip_prefix p' s' else None
  | String _ _, EmptyString => None
  end.

(** The text after the token [c], when [c] is the next token of [s]. *)
Definition token (c : ascii) (s : string) : option string :=
  match skip_ws s with
  | String c' rest => if decide (c' = c) then Some rest else None
  | EmptyString => None
  end.

(** A value at the head of a text, after white space: the value and the
    rest of the text.  [read_elements] reads the elements of an array after
    its bracket up to the closing one, [read_members] the properties of an
    object. *)
Fixpoint read_value (fuel : nat) (s : string) : option (json * string) :=
  match fuel with
  | 0 => None
  | S fuel =>
      match skip_ws s with
      | EmptyString => None
      | String c rest =>
          if decide (c = "["%char) then
            match token "]" rest with
            | Some rest' => Some (JArray [], rest')
            | None => '(vs, rest') ← read_elements fuel rest; Some (JArray vs, rest')
            end
          else if decide (c = "{"%char) then
            match token "}" rest with
            | Some rest' => Some (JObject [], rest')
            | None => '(ms, rest') ← read_members fuel rest; Some (JObject ms, rest')
            end
          else if decide (c = dquote) then
            '(str, rest') ← read_chars rest; Some (JString str, rest')
          else rest' ← strip_prefix "null" (String c rest); Some (JNull, rest')
      end
  end
with read_elements (fuel : nat) (s : string) : option (list json * string) :=
  match fuel with
  | 0 => None
  | S fuel =>
      '(v, rest) ← read_value fuel s;
      match token "," rest with
      | Some rest' => '(vs, rest'') ← read_elements fuel rest'; Some (v :: vs, rest'')
      | None => rest' ← token "]" rest; Some ([v], rest')
      end
  end
with read_members (fuel : nat) (s : string) : option (list (string * json) * string) :=
  match fuel with
  | 0 => None
  | S fuel =>
      '(k, rest) ← read_string (skip_ws s);
      rest1 ← token ":" rest;
      '(v, rest2) ← read_value fuel rest1;
      match token "," rest2 with
      | Some rest3 => '(ms, rest4) ← read_members fuel rest3; Some ((k, v) :: ms, rest4)
      | None => rest3 ← token "}" rest2; Some ([(k, v)], rest3)
      end
  end.

(** [JSON.parse]: the value of a text that holds one value and white
    space. *)
Definition parse (fuel : nat) (s : string) : option json :=
  '(v, rest) ← read_value fuel s;
  if all_ws rest then Some v else None.

(** A fuel that is enough for a value: one unit for the value and one for
    each of its elements or properties.  The reader spends a unit per
    nesting step and passes the rest to each element, so less can be
    enough. *)
Fixpoint size (v : json) : nat :=
  match v with
  | JNull | JString _ => 1
  | JArray vs =>
      S ((fix go (l : list json) : nat :=
            match l with
            | [] => 0
            | x :: l' => S (size x + go l')
            end) vs)
  | JObject ms =>
      S ((fix go (l : list (string * json)) : nat :=
            match l with
            | [] => 0
            | (_, x) :: l' => S (size x + go l')
            end) ms)
  end.

Definition sizes (vs : list json) : nat := sum_list_with (λ v, S (size v)) vs.

Definition member_sizes (ms : list (string * json)) : nat :=
  sum_list_with (λ m, S (size m.2)) ms.

(** The elements of an array and the properties of an object as
    [stringify_at] writes them, one per line at the indentation [inner]. *)
Definition element_lines (inner : string) (vs : list json) : list string :=
  (λ v, inner +:+ stringify_at inner v) <$> vs.

Definition member_lines (inner : string) (ms : list (string * json)) : list string :=
  (λ m, inner +:+ quote m.1 +:+ ": " +:+ stringify_at inner m.2) <$> ms.

(** The first code unit of a serialised value. *)
Definition opens (c : ascii) : Prop :=
  c = "n"%char ∨ c = dquote ∨ c = "["%char ∨ c = "{"%char.

(** ** What a reader of the request finds *)

(** The text part of a request: the prompt. *)
Definition request_text (req : request) : option string :=
  match parts req with
  | PText t :: _ => Some t
  | _ => None
  end.

(** The JSON value after the instructions of the request for feedback. *)
Definition record_of_request (fuel : nat) (req : request) : option json :=
  t ← request_text req; s ← strip_prefix feedbackPrompt t; parse fuel s.

(** The separator of the lines of an array or an object. *)
Definition separator : string := "," +:+ newline.

(** The reader reads the value [v] back from its text at any indentation,
    after any white space and before any rest, with any fuel from [size v]
    on. *)
Definition reads (v : json) : Prop :=
  ∀ fuel indent ws rest,
    all_ws indent = true → all_ws ws = true → size v ≤ fuel →
    read_value fuel (ws +:+ stringify_at indent v +:+ rest) = Some (v, rest).

(** ** White space and tokens *)

Section tokens.
Implicit Types (c : ascii) (s t ws rest : string).

Lemma skip_ws_app ws s : all_ws ws = true → skip_ws (ws +:+ s) = skip_ws s.
Proof.
  induction ws as [|c ws IH]; [done|]. simpl. intros [Hc Hws]%andb_true_iff.
  rewrite Hc. by apply IH.
Qed.

Lemma skip_ws_head c s : is_ws c = false → skip_ws (String c s) = String c s.
Proof. intros Hc. simpl. by rewrite Hc. Qed.

Lemma all_ws_app s t : all_ws (s +:+ t) = all_ws s && all_ws t.
Proof. induction s as [|c s IH]; [done|]. simpl. by rewrite IH, andb_assoc. Qed.

Lemma token_ws ws c t : all_ws ws = true → is_ws c = false → token c (ws +:+ String c t) = Some t.
Proof.
  intros Hws Hc. unfold token. rewrite (skip_ws_app _ _ Hws), (skip_ws_head _ _ Hc).
  by rewrite decide_True.
Qed.

Lemma token_other ws c c' t :
  all_ws ws = true → is_ws c' = false → c' ≠ c → token c (ws +:+ String c' t) = None.
Proof.
  intros Hws Hc Hne. unfold token. rewrite (skip_ws_app _ _ Hws), (skip_ws_head _ _ Hc).
  by rewrite decide_False.
Qed.

Lemma opens_not_ws c : opens c → is_ws c = false.
Proof. by intros [->|[->|[->| ->]]]. Qed.

End tokens.

(** ** The text of arrays and objects *)

Lemma json_ind_nested (P : json → Prop) :
  P JNull → (∀ s, P (JString s)) →
  (∀ vs, Forall P vs → P (JArray vs)) →
  (∀ ms, Forall (λ m, P m.2) ms → P (JObject ms)) →
  ∀ v, P v.
Proof.
  intros Hn Hs Ha Ho. fix IH 1. intros [|s|vs|ms]; [apply Hn|apply Hs|apply Ha|apply Ho].
  - induction vs as [|v vs IHvs]; constructor; [apply IH|apply IHvs].
  - induction ms as [|[k v] ms IHms]; constructor; [apply IH|apply IHms].
Qed.

Section text.
Implicit Types (c : ascii) (s t ws rest indent inner : string) (v : json).

Lemma stringify_at_array indent v vs :
  stringify_at indent (JArray (v :: vs)) =
    "[" +:+ newline +:+ join separator (element_lines (indent +:+ "  ") (v :: vs)) +:+
    newline +:+ indent +:+ "]".
Proof.
  reflexivity.
Qed.

Lemma stringify_at_object indent m ms :
  stringify_at indent (JObject (m :: ms)) =
    "{" +:+ newline +:+ join separator (member_lines (indent +:+ "  ") (m :: ms)) +:+
    newline +:+ indent +:+ "}".
Proof.
  destruct m as [k v]. cbn [stringify_at]. unfold member_lines, separator.
  cbn [fmap list_fmap fst snd]. do 3 f_equal. apply (f_equal (join _)), (f_equal (cons _)).
  induction ms as [|[k' x] l IH]; [done|]. cbn [fmap list_fmap fst snd]. by f_equal.
Qed.

Lemma size_array vs : size (JArray vs) = S (sizes vs).
Proof. reflexivity. Qed.

Lemma size_object ms : size (JObject ms) = S (member_sizes ms).
Proof. cbn [size]. f_equal. induction ms as [|[k v] ms IH]; [done|]. simpl. by rewrite IH. Qed.

(** A serialised value starts with the token of its kind. *)
Lemma stringify_at_opens indent v : ∃ c t, stringify_at indent v = String c t ∧ opens c.
Proof.
  destruct v as [|s|[|x vs]|[|m ms]]; [| |
    |rewrite stringify_at_array| |rewrite stringify_at_object];
    eexists _, _; (split; [reflexivity|unfold opens; auto]).
Qed.

Lemma join_cons2 sep a b (l : list string) :
  join sep (a :: b :: l) = a +:+ sep +:+ join sep (b :: l).
Proof. done. Qed.

End text.

(** ** The reader on serialised values *)

Section round_trip.
Implicit Types (c : ascii) (s t ws rest indent inner : string) (v : json).

Lemma all_ws_inner indent : all_ws indent = true → all_ws (indent +:+ "  ") = true.
Proof. intros H. by rewrite all_ws_app, H. Qed.

Lemma all_ws_line inner : all_ws inner = true → all_ws (newline +:+ inner) = true.
Proof. intros H. by rewrite all_ws_app, H. Qed.

(** The value of a line of an array. *)
Lemma read_value_line v fuel inner rest :
  reads v → all_ws inner = true → size v ≤ fuel →
  read_value fuel (newline +:+ (inner +:+ stringify_at inner v) +:+ rest) = Some (v, rest).
Proof.
  intros Hv Hi Hf. rewrite string_app_assoc, <-(string_app_assoc newline).
  apply Hv; [done|by apply all_ws_line|done].
Qed.

(** The closing token after the last line. *)
Lemma token_closing c indent rest :
  is_ws c = false → all_ws indent = true →
  token c (newline +:+ indent +:+ String c EmptyString +:+ rest) = Some rest.
Proof.
  intros Hc Hi. rewrite <-string_app_assoc. apply token_ws; [by apply all_ws_line|done].
Qed.

Lemma token_not_closing c c' indent rest :
  is_ws c' = false → c' ≠ c → all_ws indent = true →
  token c (newline +:+ indent +:+ String c' EmptyString +:+ rest) = None.
Proof.
  intros Hc Hne Hi. rewrite <-string_app_assoc. apply token_other; [by apply all_ws_line|done..].
Qed.

Lemma token_separator t : token "," (separator +:+ t) = Some (newline +:+ t).
Proof. done. Qed.

Lemma read_elements_lines vs :
  Forall reads vs → vs ≠ [] →
  ∀ fuel indent inner rest,
    all_ws inner = true → all_ws indent = true → sizes vs ≤ fuel →
    read_elements fuel
      (newline +:+ join separator (element_lines inner vs) +:+ newline +:+ indent +:+ "]" +:+ rest)
    = Some (vs, rest).
Proof.
  induction vs as [|v vs IH]; [done|]. intros [Hv Hvs]%Forall_cons _ fuel indent inner rest Hi Hd.
  destruct fuel as [|fuel]; [simpl; lia|]. intros Hf. cbn [read_elements].
  unfold element_lines in *. cbn [fmap list_fmap sizes sum_list_with] in *.
  destruct vs as [|v' vs].
  - cbn [fmap list_fmap join]. rewrite read_value_line by (done || simpl in Hf; lia).
    cbn [mbind option_bind]. by rewrite token_not_closing, token_closing.
  - cbn [fmap list_fmap]. rewrite join_cons2, !string_app_assoc.
    rewrite <-(string_app_assoc inner), read_value_line by (done || simpl in Hf; lia).
    cbn [mbind option_bind]. rewrite token_separator.
    specialize (IH Hvs ltac:(done) fuel indent inner rest Hi Hd). cbn [fmap list_fmap] in IH.
    rewrite IH; [done|]. unfold sizes. lia.
Qed.

Lemma skip_ws_quote s t : skip_ws (quote s +:+ t) = quote s +:+ t.
Proof. done. Qed.

(** One property of an object, up to the separator or the closing brace. *)
Lemma read_members_line k v fuel inner rest :
  reads v → all_ws inner = true → size v ≤ fuel →
  read_members (S fuel)
    (newline +:+ (inner +:+ quote k +:+ ": " +:+ stringify_at inner v) +:+ rest) =
    match token "," rest with
    | Some rest3 => '(ms, rest4) ← read_members fuel rest3; Some ((k, v) :: ms, rest4)
    | None => rest3 ← token "}" rest; Some ([(k, v)], rest3)
    end.
Proof.
  intros Hv Hi Hf. cbn [read_members].
  rewrite !string_app_assoc, <-(string_app_assoc newline), skip_ws_app by by apply all_ws_line.
  rewrite skip_ws_quote, read_string_quote. cbn [mbind option_bind].
  change (token ":" (": " +:+ ?t)) with (Some (" " +:+ t)). cbn [mbind option_bind].
  by rewrite (Hv fuel inner " " rest).
Qed.

Lemma read_members_lines ms :
  Forall (λ m, reads m.2) ms → ms ≠ [] →
  ∀ fuel indent inner rest,
    all_ws inner = true → all_ws indent = true → member_sizes ms ≤ fuel →
    read_members fuel
      (newline +:+ join separator (member_lines inner ms) +:+ newline +:+ indent +:+ "}" +:+ rest)
    = Some (ms, rest).
Proof.
  induction ms as [|[k v] ms IH]; [done|].
  intros [Hv Hms]%Forall_cons _ fuel indent inner rest Hi Hd.
  destruct fuel as [|fuel]; [simpl; lia|]. unfold member_sizes. cbn [sum_list_with snd].
  intros Hf. unfold member_lines in *. cbn [fmap list_fmap fst snd] in *.
  destruct ms as [|m ms].
  - cbn [fmap list_fmap join]. rewrite read_members_line by (done || lia).
    by rewrite token_not_closing, token_closing.
  - cbn [fmap list_fmap]. rewrite join_cons2, (string_app_assoc (inner +:+ _)).
    rewrite read_members_line by (done || lia).
    rewrite (string_app_assoc separator), token_separator.
    specialize (IH Hms ltac:(done) fuel indent inner rest Hi Hd). cbn [fmap list_fmap] in IH.
    rewrite IH; [done|]. unfold member_sizes. lia.
Qed.

(** No line of an array or an object starts with the closing token. *)
Lemma token_line c c' inner t rest :
  all_ws inner = true → is_ws c' = false → c' ≠ c →
  token c (newline +:+ (inner +:+ String c' t) +:+ rest) = None.
Proof.
  intros Hi Hc Hne. rewrite string_app_assoc, <-(string_app_assoc newline), string_app_cons.
  apply token_other; [by apply all_ws_line|done..].
Qed.

Lemma token_element_lines inner v vs rest :
  all_ws inner = true → token "]" (newline +:+ join separator (element_lines inner (v :: vs)) +:+ rest) = None.
Proof.
  intros Hi. destruct (stringify_at_opens inner v) as (c & t & Hv & Hc).
  unfold element_lines. cbn [fmap list_fmap]. rewrite Hv.
  destruct vs as [|v' vs]; cbn [fmap list_fmap];
    [cbn [join]|rewrite join_cons2, (string_app_assoc (inner +:+ _))];
    (apply token_line; [done|by apply opens_not_ws|by destruct Hc as [->|[->|[->| ->]]]]).
Qed.

Lemma token_member_lines inner m ms rest :
  all_ws inner = true → token "}" (newline +:+ join separator (member_lines inner (m :: ms)) +:+ rest) = None.
Proof.
  intros Hi. unfold member_lines. cbn [fmap list_fmap]. unfold quote at 1. rewrite string_app_cons.
  destruct ms as [|m' ms]; cbn [fmap list_fmap];
    [cbn [join]|rewrite join_cons2, (string_app_assoc (inner +:+ _))];
    by apply token_line.
Qed.

Lemma reads_all v : reads v.
Proof.
  induction v as [|s|vs IH|ms IH] using json_ind_nested;
    intros fuel indent ws rest Hi Hws Hf; (destruct fuel as [|fuel]; [simpl in Hf; lia|]);
    cbn [read_value]; rewrite skip_ws_app by done.
  - done.
  - cbn [stringify_at]. rewrite skip_ws_quote. unfold quote.
    rewrite string_app_cons, string_app_assoc, string_app_cons, string_app_nil_l.
    cbv beta match. rewrite !decide_False, decide_True by done.
    by rewrite read_chars_escape_string.
  - destruct vs as [|v vs]; [done|]. rewrite stringify_at_array, size_array in *.
    rewrite !string_app_cons, string_app_nil_l, skip_ws_head by done.
    cbv beta match. rewrite decide_True by done.
    rewrite !string_app_assoc, token_element_lines by by apply all_ws_inner.
    rewrite read_elements_lines; [done..|by apply all_ws_inner|done|lia].
  - destruct ms as [|m ms]; [done|]. rewrite stringify_at_object, size_object in *.
    rewrite !string_app_cons, string_app_nil_l, skip_ws_head by done.
    cbv beta match. rewrite decide_False, decide_True by done.
    rewrite !string_app_assoc, token_member_lines by by apply all_ws_inner.
    rewrite read_members_lines; [done..|by apply all_ws_inner|done|lia].
Qed.

End round_trip.

(** ** Fuel *)

Section fuel.
Implicit Types (s rest : string) (fuel : nat).

(** The readers with fuel left. *)
Lemma read_value_S fuel s :
  read_value (S fuel) s =
    match skip_ws s with
    | EmptyString => None
    | String c rest =>
        if decide (c = "["%char) then
          match token "]" rest with
          | Some rest' => Some (JArray [], rest')
          | None => '(vs, rest') ← read_elements fuel rest; Some (JArray vs, rest')
          end
        else if decide (c = "{"%char) then
          match token "}" rest with
          | Some rest' => Some (JObject [], rest')
          | None => '(ms, rest') ← read_members fuel rest; Some (JObject ms, rest')
          end
        else if decide (c = dquote) then
          '(str, rest') ← read_chars rest; Some (JString str, rest')
        else rest' ← strip_prefix "null" (String c rest); Some (JNull, rest')
    end.
Proof. done. Qed.

Lemma read_elements_S fuel s :
  read_elements (S fuel) s =
    '(v, rest) ← read_value fuel s;
    match token "," rest with
    | Some rest' => '(vs, rest'') ← read_elements fuel rest'; Some (v :: vs, rest'')
    | None => rest' ← token "]" rest; Some ([v], rest')
    end.
Proof. done. Qed.

Lemma read_members_S fuel s :
  read_members (S fuel) s =
    '(k, rest) ← read_string (skip_ws s);
    rest1 ← token ":" rest;
    '(v, rest2) ← read_value fuel rest1;
    match token "," rest2 with
    | Some rest3 => '(ms, rest4) ← read_members fuel rest3; Some ((k, v) :: ms, rest4)
    | None => rest3 ← token "}" rest2; Some ([(k, v)], rest3)
    end.
Proof. done. Qed.

(** A bind that succeeds keeps its result when its argument does. *)
Lemma bind_mono {A B} (f : A → option B) (m m' : option A) (y : B) :
  (∀ x, m = Some x → m' = Some x) → m ≫= f = Some y → m' ≫= f = Some y.
Proof. intros Hm. destruct m as [x|]; [|done]. by rewrite (Hm x). Qed.

(** A unit of fuel more changes no result. *)
Lemma read_mono_step fuel :
  (∀ s x, read_value fuel s = Some x → read_value (S fuel) s = Some x) ∧
  (∀ s x, read_elements fuel s = Some x → read_elements (S fuel) s = Some x) ∧
  (∀ s x, read_members fuel s = Some x → read_members (S fuel) s = Some x).
Proof.
  induction fuel as [|fuel (IHv & IHe & IHm)]; [done|].
  split_and!; intros s x.
  - rewrite (read_value_S (S fuel)), (read_value_S fuel s).
    destruct (skip_ws s) as [|c rest]; [done|].
    repeat case_decide; try done; case_match; try done; apply bind_mono; auto.
  - rewrite (read_elements_S (S fuel)), (read_elements_S fuel s).
    destruct (read_value fuel s) as [[v rest]|] eqn:E; [|done]. rewrite (IHv _ _ E).
    cbn [mbind option_bind]. case_match; [|done]. apply bind_mono; auto.
  - rewrite (read_members_S (S fuel)), (read_members_S fuel s).
    destruct (read_string (skip_ws s)) as [[k rest]|]; [|done]. cbn [mbind option_bind].
    destruct (token ":" rest) as [rest1|]; [|done]. cbn [mbind option_bind].
    destruct (read_value fuel rest1) as [[v rest2]|] eqn:E; [|done]. rewrite (IHv _ _ E).
    cbn [mbind option_bind]. case_match; [|done]. apply bind_mono; auto.
Qed.

Lemma read_value_mono fuel fuel' s x :
  fuel ≤ fuel' → read_value fuel s = Some x → read_value fuel' s = Some x.
Proof.
  induction 1 as [|fuel' _ IH]; [done|]. intros H. by apply read_mono_step, IH.
Qed.

End fuel.

(** ** Round trips *)

Section claims.
Implicit Types (s ws rest : string) (v : json) (r : ResumeData).

Lemma parse_mono fuel fuel' s v : fuel ≤ fuel' → parse fuel s = Some v → parse fuel' s = Some v.
Proof.
  unfold parse. intros Hf. apply bind_mono. intros x. by apply read_value_mono.
Qed.

Lemma parse_stringify_enough v fuel ws ws' :
  all_ws ws = true → all_ws ws' = true → size v ≤ fuel →
  parse fuel (ws +:+ stringify v +:+ ws') = Some v.
Proof.
  intros Hws Hws' Hf. unfold parse, stringify.
  rewrite (reads_all v fuel EmptyString ws ws') by done. simpl. by rewrite Hws'.
Qed.

(** C21: the reader inverts [JSON.stringify(v, null, 2)].  Between any white
    space, the text of a value reads back as the value with any fuel from
    [size v] on; with any fuel at all, the reader returns that value or
    nothing, never another value.  [size v] is enough, it is not the least
    fuel that is. *)
Theorem parse_stringify v fuel ws ws' :
  all_ws ws = true → all_ws ws' = true →
  (size v ≤ fuel → parse fuel (ws +:+ stringify v +:+ ws') = Some v) ∧
  (∀ v', parse fuel (ws +:+ stringify v +:+ ws') = Some v' → v' = v).
Proof.
  intros Hws Hws'. split; [by apply parse_stringify_enough|]. intros v' H.
  apply (parse_mono fuel (fuel `max` size v)) in H; [|lia].
  rewrite parse_stringify_enough in H by (done || lia). by injection H.
Qed.

(** Values with the same text are the same value. *)
#[global] Instance stringify_inj : Inj (=) (=) stringify.
Proof.
  intros v v' H.
  pose proof (parse_stringify_enough v (size v `max` size v') EmptyString EmptyString
    eq_refl eq_refl ltac:(lia)) as Hv.
  pose proof (parse_stringify_enough v' (size v `max` size v') EmptyString EmptyString
    eq_refl eq_refl ltac:(lia)) as Hv'.
  rewrite H in Hv. congruence.
Qed.

Lemma strip_prefix_app p s : strip_prefix p (p +:+ s) = Some s.
Proof.
  induction p as [|c p IH]; [by destruct s|]. rewrite string_app_cons. simpl.
  by rewrite decide_True.
Qed.

(** The request for feedback, when the key is usable. *)
Lemma handleGetFeedback_request e r st :
  usable_key e →
  ∃ url, (handleGetFeedback e r st).2 =
    Some (Request url [PText (feedbackPrompt +:+ stringify (resume_json r))]).
Proof.
  intros He. unfold handleGetFeedback. rewrite (callGeminiAPI_start_usable e _ _ He). eauto.
Qed.

(** C20: the request for feedback carries the whole record.  With a usable
    key, [handleGetFeedback] sends a request whose text, after the
    instructions, reads back as the JSON of the record of the form and of no
    other well-formed record: nothing of a well-formed record is lost on the
    way to the service. *)
Theorem feedback_request_carries_record e r st fuel :
  usable_key e → wf r → size (resume_json r) ≤ fuel →
  ∃ req, (handleGetFeedback e r st).2 = Some req ∧
    ∀ r', wf r' → record_of_request fuel req = Some (resume_json r') ↔ r' = r.
Proof.
  intros He Hr Hf. destruct (handleGetFeedback_request e r st He) as [url ->].
  eexists; split; [done|]. intros r' Hr'.
  unfold record_of_request, request_text. cbn [parts mbind option_bind].
  rewrite strip_prefix_app. cbn [mbind option_bind].
  pose proof (parse_stringify_enough (resume_json r) fuel EmptyString EmptyString
    eq_refl eq_refl Hf) as Hp.
  rewrite string_app_nil_l, string_app_nil_r in Hp. rewrite Hp.
  split; [intros H%(inj Some); symmetry; by apply resume_json_inj|by intros ->].
Qed.

End claims.

Lemma parse_stringify_witness :
  let v := resume_json initialResumeData in
  let text := " " +:+ stringify v +:+ newline in
  parse (size v) text = Some v ∧ (∀ v', parse (size v) text = Some v' → v' = v) ∧
  size v = 71 ∧ parse 8 text = None.
Proof.
  destruct (parse_stringify (resume_json initialResumeData)
    (size (resume_json initialResumeData)) " " newline eq_refl eq_refl) as [H1 H2].
  split_and!; [by apply H1|exact H2|reflexivity|reflexivity].
Defined.

Lemma feedback_request_carries_record_witness :
  let e := Env (Some "key") "fallback" in
  let r := set_scalar initialResumeData fullName "Ada" in
  ∃ req, (handleGetFeedback e r initialState).2 = Some req ∧
    ∀ r', wf r' → record_of_request 80 req = Some (resume_json r') ↔ r' = r.
Proof.
  apply (feedback_request_carries_record (Env (Some "key") "fallback")
    (set_scalar initialResumeData fullName "Ada") initialState 80).
  - by apply (bool_decide_unpack _).
  - by apply (bool_decide_unpack _).
  - vm_compute. lia.
Defined.
