(* ===== verification/AssistantView.v ===== *)
(** * What [AIAssistant] renders

    The JSX of [AIAssistant] ([src/src/app.js], lines 427-499) as the tree it
    renders from the state of a render: the hidden file input, the
    transcript with one bubble per message and the indicator shown while a
    request is loading, and the controls with their [disabled] attributes and
    the functions they call.  The text of an assistant message is handed to
    the markdown component, which is a leaf here holding the source text.

    The theorems read the tree: the controls the user can trigger are those
    [Assistant.control_enabled] allows, which justifies the guard of the
    session's steps; the transcript shows every message, in order, and the
    indicator exactly while loading. *)

From Stdlib Require Import String Ascii.
From stdpp Require Import base tactics option list strings.
From S2P Require Import Prelude JsArray ResumeData React Dom Widgets Assistant.

(** ** The tree *)

(** The avatar of the assistant (lines 442 and 456). *)
Definition avatar : node :=
  Elem "div" [ClassName "w-8 h-8 rounded-full bg-gray-700 flex-shrink-0"] [].

(** One message of the transcript (lines 441-453). *)
Definition bubble (index : nat) (msg : message) : node :=
  Elem "div"
    [Key index;
     ClassName ("flex items-start gap-3 " +:+
                (if decide (msg_role msg = user) then "justify-end" else "justify-start"))]
    (when (bool_decide (msg_role msg = ai)) [avatar] ++
     [Elem "div"
        [ClassName ("p-4 rounded-lg max-w-lg break-words " +:+
                    (if decide (msg_role msg = user)
                     then "bg-blue-600 text-white rounded-br-none"
                     else "bg-gray-100 text-gray-800 rounded-bl-none"))]
        (if decide (msg_role msg = ai) then
           [Elem "div" [ClassName "prose prose-sm max-w-none text-gray-800"]
              [Elem "ReactMarkdown" [] (text (msg_text msg))]]
         else text (msg_text msg))]).

(** The indicator of a request in flight (lines 455-464). *)
Definition loading_indicator : node :=
  Elem "div" [ClassName "flex items-start gap-3 justify-start"] [
    avatar;
    Elem "div" [ClassName "bg-gray-100 text-gray-800 p-4 rounded-lg rounded-bl-none"] [
      Elem "div" [ClassName "flex items-center gap-2"] [
        Elem "div" [ClassName "w-2 h-2 bg-blue-500 rounded-full animate-pulse"] [];
        Elem "div" [ClassName "w-2 h-2 bg-blue-500 rounded-full animate-pulse delay-75"] [];
        Elem "div" [ClassName "w-2 h-2 bg-blue-500 rounded-full animate-pulse delay-150"] []]]].

(** The transcript (lines 439-466). *)
Definition transcript (st : state) : node :=
  Elem "div"
    [Ref "chatContainerRef";
     ClassName "flex-grow overflow-y-auto mb-4 -mr-4 pr-4 space-y-4 min-h-96"]
    (imap bubble (messages st) ++ when (isLoading st) [loading_indicator]).

(** The hidden file input (lines 431-437). *)
Definition file_input : node :=
  Elem "input"
    [InputType "file"; Ref "fileInputRef"; On "change" "handleFileChange";
     Style [("display", "none")]; Accept "image/*,application/pdf,.doc,.docx"] [].

(** The line that names the selected file (lines 477-481). *)
Definition selected_file (st : state) : list node :=
  match uploadedFile st with
  | Some f =>
      [Elem "div" [ClassName "text-xs text-center text-gray-500"]
         (Text "Selected: " :: text (file_name f))]
  | None => []
  end.

(** The question form (lines 487-497). *)
Definition question_form (st : state) : node :=
  Elem "form" [On "submit" "handleSendMessage"; ClassName "flex gap-2"] [
    Elem "input"
      [InputType "text"; Value (userInput st); On "change" "setUserInput";
       Placeholder "Ask a general question...";
       ClassName "flex-grow rounded-md border-gray-200 bg-gray-50 p-2.5 text-sm shadow-sm focus:border-blue-500 focus:ring-blue-500";
       Disabled (isLoading st)] [];
    Ui.Button None None "submit" "primary" (isLoading st) true].

(** The controls under the transcript (lines 468-498). *)
Definition controls (st : state) : node :=
  Elem "div" [ClassName "flex-shrink-0 border-t pt-6 mt-4 space-y-4"]
    ([Elem "div" [ClassName "grid grid-cols-1 sm:grid-cols-2 gap-4"] [
        Ui.Button (Some "Upload Resume") (Some "fileInputRef.current.click") "button"
          "tertiary" (isLoading st) true;
        Ui.Button (Some "Analyze Uploaded") (Some "handleAnalyzeFile") "button" "primary"
          (isLoading st || negb (bool_decide (is_Some (uploadedFile st)))) false]]
     ++ selected_file st ++
     [Ui.Button (Some "Get Feedback on Built Resume") (Some "handleGetFeedback") "button"
        "primary" (isLoading st) true;
      question_form st]).

(** Lines 427-499. *)
Definition AIAssistant (st : state) : node :=
  Elem "div"
    [Id "chatbot";
     ClassName "bg-white p-8 rounded-xl shadow-lg border border-gray-100 flex flex-col h-full"] [
    Ui.SectionHeader (Ui.icon "text-blue-600") "AI Assistant";
    file_input;
    transcript st;
    controls st].

(** ** Reading the tree *)

(** The listener an event of the session goes through: the event of the
    element and the function called (lines 434, 473, 483, 487, 491). *)
Definition event_listener (ev : chat_event) : string * string :=
  match ev with
  | InputChange _ => ("change", "setUserInput")
  | SendMessage => ("submit", "handleSendMessage")
  | GetFeedback _ => ("click", "handleGetFeedback")
  | FileChange _ => ("change", "handleFileChange")
  | AnalyzeFile => ("click", "handleAnalyzeFile")
  end.

(** The user can trigger [ev] on the tree [doc]. *)
Definition triggers (doc : node) (ev : chat_event) : Prop :=
  event_listener ev ∈ listeners doc.

#[global] Instance triggers_dec doc ev : Decision (triggers doc ev).
Proof. unfold triggers. apply _. Defined.

(** The bubbles of a transcript element: the children rendered from the
    array, which have a key. *)
Definition bubbles (t : node) : list node :=
  filter (λ n, is_Some (key_of n)) (children t).

(** The text a bubble shows. *)
Definition bubble_text (b : node) : string := text_content b.

(** ** Lemmas *)

Section view.
Implicit Types (st : state) (msg : message) (ev : chat_event) (i : nat).

Lemma listeners_bubble i msg : listeners (bubble i msg) = [].
Proof.
  unfold bubble. destruct msg as [[] t]; cbn; unfold text; by destruct (truthy t).
Qed.

Lemma listeners_bubbles (l : list message) : concat (listeners <$> imap bubble l) = [].
Proof.
  rewrite fmap_imap. apply concat_imap_nil. intros i msg. apply listeners_bubble.
Qed.

Lemma listeners_transcript st : listeners (transcript st) = [].
Proof.
  unfold transcript. rewrite listeners_Elem, fmap_app, concat_app.
  rewrite listeners_bubbles. by destruct (isLoading st).
Qed.

Lemma listeners_selected_file st : concat (listeners <$> selected_file st) = [].
Proof.
  unfold selected_file. destruct (uploadedFile st) as [f|]; [|done].
  cbn. unfold text. by destruct (truthy _).
Qed.

(** The listeners of the view the user can trigger, by the flags of the
    state. *)
Lemma listeners_AIAssistant st :
  listeners (AIAssistant st) =
    ("change", "handleFileChange") ::
    (if isLoading st then []
     else [("click", "fileInputRef.current.click")] ++
          (if uploadedFile st then [("click", "handleAnalyzeFile")] else []) ++
          [("click", "handleGetFeedback"); ("submit", "handleSendMessage");
           ("change", "setUserInput")]).
Proof.
  unfold AIAssistant, controls. rewrite listeners_Elem.
  cbn [fmap list_fmap concat]. rewrite listeners_transcript.
  rewrite listeners_Elem, !fmap_app, !concat_app, listeners_selected_file.
  by destruct st as [ms v [f|] []].
Qed.

Lemma bubbles_imap (l : list message) i :
  filter (λ n, is_Some (key_of n)) (imap (λ j, bubble (i + j)) l) =
    imap (λ j, bubble (i + j)) l.
Proof.
  revert i. induction l as [|msg l IH]; intros i; [done|]. cbn [imap].
  rewrite filter_cons_True by (by eexists). f_equal.
  rewrite (imap_ext _ (λ j, bubble (S i + j))); [apply IH|].
  intros j ? _. simpl. f_equal. lia.
Qed.

Lemma bubbles_transcript st : bubbles (transcript st) = imap bubble (messages st).
Proof.
  unfold bubbles, transcript. simpl. rewrite filter_app, (bubbles_imap _ 0).
  destruct (isLoading st); simpl; [|by rewrite app_nil_r].
  rewrite filter_cons_False, filter_nil, app_nil_r; [done|]. by intros [? [=]].
Qed.

Lemma bubble_text_bubble i msg : bubble_text (bubble i msg) = msg_text msg.
Proof.
  unfold bubble_text, bubble. destruct msg as [[] t]; simpl; text_simpl; done.
Qed.

Lemma ids_of_bubble i msg : ids_of (bubble i msg) = [].
Proof.
  unfold bubble. destruct msg as [[] t]; cbn; unfold text; by destruct (truthy t).
Qed.

Lemma ids_of_bubbles (l : list message) : concat (ids_of <$> imap bubble l) = [].
Proof.
  rewrite fmap_imap. apply concat_imap_nil. intros i msg. apply ids_of_bubble.
Qed.

(** The only id of the tree is the one of its root. *)
Lemma ids_of_AIAssistant st : ids_of (AIAssistant st) = ["chatbot"].
Proof.
  unfold AIAssistant, transcript, controls, selected_file.
  rewrite ids_of_Elem. cbn [fmap list_fmap concat].
  rewrite (ids_of_Elem _ _ (imap bubble _ ++ _)), fmap_app, concat_app, ids_of_bubbles.
  destruct st as [ms v [f|] []]; cbn; unfold text; try done; by destruct (truthy _).
Qed.

Lemma children_transcript st :
  children (transcript st) = imap bubble (messages st) ++ when (isLoading st) [loading_indicator].
Proof. done. Qed.

Lemma indicator_not_bubble (l : list message) : loading_indicator ∉ imap bubble l.
Proof.
  intros (i & msg & H & _)%elem_of_lookup_imap.
  unfold loading_indicator, bubble in H. congruence.
Qed.

(** C19: the controls of the rendered assistant are the ones the session's
    guard allows.  On the tree [AIAssistant] renders from a state, the user
    can trigger the listener of an event exactly when [control_enabled]
    holds of the state and the event: the buttons, the text field and the
    submission of the form only while no request is loading, "Analyze
    Uploaded" only with a file selected, and the file input always. *)
Theorem view_triggers_iff st ev :
  triggers (AIAssistant st) ev ↔ control_enabled st ev.
Proof.
  unfold triggers. rewrite listeners_AIAssistant.
  destruct st as [ms v [f|] []], ev; simpl; rewrite ?elem_of_cons, ?elem_of_nil;
    unfold is_Some; naive_solver.
Qed.

(** C31: the transcript on the screen is the list of messages.  The element
    has one bubble per message, in order, each showing the text of its
    message, followed by the loading indicator exactly while a request is
    loading. *)
Theorem transcript_shows_messages st :
  bubble_text <$> bubbles (transcript st) = msg_text <$> messages st ∧
  length (children (transcript st)) =
    length (messages st) + (if isLoading st then 1 else 0) ∧
  (loading_indicator ∈ children (transcript st) ↔ isLoading st = true).
Proof.
  rewrite bubbles_transcript, children_transcript, length_app, length_imap. split_and!.
  - rewrite fmap_imap. apply list_eq. intros i.
    rewrite list_lookup_imap, list_lookup_fmap.
    destruct (messages st !! i) as [msg|]; [|done]. apply (f_equal Some), bubble_text_bubble.
  - by destruct (isLoading st).
  - rewrite elem_of_app. destruct (isLoading st); simpl.
    + split; [done|]. intros _. right. apply list_elem_of_here.
    + split; [|done]. intros [H|[]%elem_of_nil]. by apply indicator_not_bubble in H.
Qed.

End view.
