(* ===== verification/Progress.v ===== *)
(** * Progress of the assistant's session

    What the session does when the user leaves it alone: React applies the
    pending updaters, the requests in flight settle and the files being read
    are read, in any order and with any outcome.  A [completion] is one such
    step of [Assistant.session_step].

    The lemmas on the player relate the executable [play] to the step
    relation.  The theorems: every sequence of completions ends, within a
    bound read off the world; and from every world a session reaches, the
    completions end in an idle world, so that no outcome of a request or of
    a reading leaves the controls disabled. *)

From stdpp Require Import base tactics option list strings relations well_founded.
From S2P Require Import Prelude JsArray ResumeData React Json Assistant.

(** ** Completions *)

(** A step of the session the user takes no part in: a render that has
    something to apply, the settling of a request, the end of a reading. *)
Inductive completion (e : env) : world → world → Prop :=
| completion_render w :
    queue (ui w) ≠ [] → completion e w (on_render w)
| completion_settle w i req o :
    requests w !! i = Some req → completion e w (on_settle i o w)
| completion_read w i rd result :
    readings w !! i = Some rd → completion e w (on_read e i rd result w).

(** The action is a completion in the world [w]: not the use of a control,
    and a render only when an updater is pending. *)
Definition completes (a : action) (w : world) : bool :=
  match a with
  | Press _ => false
  | Render => bool_decide (queue (ui w) ≠ [])
  | Settle _ _ | Read _ _ => true
  end.

(** Nothing is left to complete. *)
Definition quiet (w : world) : Prop :=
  queue (ui w) = [] ∧ requests w = [] ∧ readings w = [].

#[global] Instance quiet_dec w : Decision (quiet w).
Proof. unfold quiet. apply _. Defined.

(** The work a world still has to do: a reading can send a request, a
    request enqueues updaters when it settles, and a render applies them. *)
Definition queue_weight (c : cell state) : nat :=
  if queue c is [] then 0 else 1.

Definition pending (w : world) : nat :=
  4 * length (readings w) + 2 * length (requests w) + queue_weight (ui w).

(** A request in flight accounts for the loading flag the next render
    shows. *)
Definition loading_accounted (w : world) : Prop :=
  requests w = [] → isLoading (next w) = false.

(** ** The player and the step relation *)

Section player.
Context (e : env).
Implicit Types (w : world) (acts : list action).

Lemma play_app acts1 acts2 w :
  play e (acts1 ++ acts2) w = w' ← play e acts1 w; play e acts2 w'.
Proof.
  revert w. induction acts1 as [|a acts1 IH]; intros w; simpl; [done|].
  destruct (perform e a w) as [w1|]; simpl; [apply IH|done].
Qed.

Lemma steps_play w w' :
  rtc (session_step e) w w' → ∃ acts, play e acts w = Some w'.
Proof.
  induction 1 as [w|w w1 w' Hs _ [acts IH]]; [by exists []|].
  destruct (step_perform e _ _ Hs) as [a Ha]. exists (a :: acts). simpl. by rewrite Ha.
Qed.

Lemma completion_perform w w' :
  completion e w w' ↔ ∃ a, completes a w = true ∧ perform e a w = Some w'.
Proof.
  split.
  - intros [w0 Hq|w0 i req o Hi|w0 i rd result Hi].
    + exists Render. by rewrite <-(bool_decide_eq_true (queue (ui w0) ≠ [])) in Hq.
    + exists (Settle i o). simpl. by rewrite Hi.
    + exists (Read i result). simpl. by rewrite Hi.
  - intros ([ev| |i o|i result] & Hc & Hp); simpl in *; [done|..].
    + injection Hp as <-. apply completion_render. by apply bool_decide_eq_true in Hc.
    + destruct (requests w !! i) as [req|] eqn:Hi; [|done]. injection Hp as <-.
      by eapply completion_settle.
    + destruct (readings w !! i) as [rd|] eqn:Hi; [|done]. injection Hp as <-.
      by eapply completion_read.
Qed.

End player.

(** ** Termination of the completions *)

Section termination.
Context (e : env).
Implicit Types (w : world) (us : list chat_updater).

Lemma completion_step w w' : completion e w w' → session_step e w w'.
Proof. intros [w0 _|w0 i req o Hi|w0 i rd result Hi]; by econstructor. Qed.

Lemma queue_weight_le (c : cell state) : queue_weight c ≤ 1.
Proof. unfold queue_weight. destruct (queue c); lia. Qed.

Lemma queue_weight_render (c : cell state) :
  queue c ≠ [] → queue_weight (render c) < queue_weight c.
Proof. unfold queue_weight. simpl. destruct (queue c); [done|lia]. Qed.

Lemma length_option_list {A} (o : option A) : length (option_list o) ≤ 1.
Proof. destruct o; simpl; lia. Qed.

(** Every completion uses up some of the pending work. *)
Lemma completion_pending w w' : completion e w w' → pending w' < pending w.
Proof.
  intros [w0 Hq|w0 i req o Hi|w0 i rd result Hi]; unfold pending, on_read;
    [|apply lookup_lt_Some in Hi..]; try destruct (onloadend _ _ _ _) as [us req'];
    cbn [on_render on_settle ui requests readings];
    rewrite ?length_delete, ?length_app by eauto using lookup_lt_is_Some_2.
  - apply queue_weight_render in Hq. lia.
  - pose proof (queue_weight_le (enqueue (callGeminiAPI_settle o) (ui w0))). lia.
  - pose proof (length_option_list req').
    pose proof (queue_weight_le
      (enqueue (match result with Some _ => us | None => onerror ++ us end) (ui w0))).
    lia.
Qed.

Lemma completions_bounded n w w' :
  nsteps (completion e) n w w' → n + pending w' ≤ pending w.
Proof.
  induction 1 as [w|n w w1 w' Hs _ IH]; [done|].
  apply completion_pending in Hs. lia.
Qed.

Lemma completion_sn w : sn (completion e) w.
Proof.
  apply (wf_projected (<) pending); [|apply lt_wf].
  intros w1 w2 H. by apply completion_pending.
Qed.

(** C15: the completions end.  Whatever the outcomes of the requests and of
    the readings and whatever the order in which they complete, no sequence
    of completions is infinite, and a sequence from [w] has at most
    [pending w] steps: four for each file being read, two for each request
    in flight and one for the pending updaters. *)
Theorem completions_terminate w :
  sn (completion e) w ∧
  ∀ n w', nsteps (completion e) n w w' → n ≤ pending w.
Proof.
  split; [apply completion_sn|]. intros n w' H%completions_bounded. lia.
Qed.

End termination.

(** ** The session comes to rest *)

Section rest.
Context (e : env).
Implicit Types (w : world) (us : list chat_updater) (st : state).

#[local] Arguments callGeminiAPI_start : simpl never.

Lemma red_completion w : red (completion e) w ↔ ¬ quiet w.
Proof.
  unfold red, quiet. split.
  - intros [w' [w0 Hq|w0 i req o Hi|w0 i rd result Hi]] (Hq' & Hr & Hd);
      [done|by rewrite Hr in Hi|by rewrite Hd in Hi].
  - intros Hn. destruct (queue (ui w)) as [|u q] eqn:Hq.
    + destruct (requests w) as [|req rs] eqn:Hr.
      * destruct (readings w) as [|rd rds] eqn:Hd; [by destruct Hn|].
        exists (on_read e 0 rd None w). apply completion_read. by rewrite Hd.
      * exists (on_settle 0 (Success None) w). eapply completion_settle. by rewrite Hr.
    + exists (on_render w). apply completion_render. by rewrite Hq.
Qed.

#[local] Instance red_completion_dec w : Decision (red (completion e) w).
Proof.
  refine (cast_if (decide (¬ quiet w))); abstract (by rewrite red_completion).
Defined.

Lemma nf_completion w : nf (completion e) w ↔ quiet w.
Proof.
  unfold nf. rewrite red_completion. split; [|by intros ? ?].
  intros H. by destruct (decide (quiet w)).
Qed.

(** The updaters [us] leave the loading flag as it is. *)
Definition keeps_loading us : Prop := ∀ st, isLoading (apply_all us st) = isLoading st.

(** A handler that sends no request leaves the flag cleared. *)
Definition quiet_effect (eff : effects) : Prop :=
  eff.2 = None → ∀ st, isLoading st = false → isLoading (apply_all eff.1 st) = false.

(** A call of the service sets the flag when it sends a request, and clears
    it when the key check fails. *)
Lemma quiet_effect_start prompt fp us vs ws req :
  callGeminiAPI_start e prompt fp = (vs, req) →
  keeps_loading us → keeps_loading ws → quiet_effect (us ++ vs ++ ws, req).
Proof.
  intros Hs Hus Hws. destruct (start_cases e prompt fp) as [[req' H]|H];
    rewrite H in Hs; injection Hs as <- <-; [done|].
  intros _ st _. cbn [fst]. by rewrite !apply_all_app, Hws.
Qed.

Lemma quiet_effect_start_last prompt fp us vs req :
  callGeminiAPI_start e prompt fp = (vs, req) →
  keeps_loading us → quiet_effect (us ++ vs, req).
Proof.
  intros Hs Hus. rewrite <-(app_nil_r vs). by apply (quiet_effect_start prompt fp).
Qed.

Lemma quiet_effect_keeps us : keeps_loading us → quiet_effect (us, None).
Proof. intros Hus _ st Hst. simpl. by rewrite Hus. Qed.

Lemma quiet_effect_handle st ev : quiet_effect (chat_handle e st ev).1.
Proof.
  destruct ev as [v| |r|[f|]|]; simpl; try by apply quiet_effect_keeps.
  - unfold handleSendMessage. destruct (negb _); [by apply quiet_effect_keeps|].
    destruct (callGeminiAPI_start e _ None) as [vs req] eqn:Hs.
    by apply (quiet_effect_start _ _ [_] vs [_] req Hs).
  - unfold handleGetFeedback. destruct (callGeminiAPI_start e _ None) as [vs req] eqn:Hs.
    by apply (quiet_effect_start_last _ _ [_] vs req Hs).
  - unfold handleAnalyzeFile. destruct (uploadedFile st); by apply quiet_effect_keeps.
Qed.

Lemma quiet_effect_onloadend st f result :
  quiet_effect (let '(us, req) := onloadend e st f result in
                (match result with Some _ => us | None => onerror ++ us end, req)).
Proof.
  destruct result as [dataURL|]; simpl; [|by apply quiet_effect_keeps].
  destruct (callGeminiAPI_start e _ _) as [vs req] eqn:Hs.
  by apply (quiet_effect_start_last _ _ [_] vs req Hs).
Qed.

(** A handler that accounts for the flag keeps the world accounted. *)
Lemma loading_accounted_enqueue w us req rds :
  quiet_effect (us, req) → loading_accounted w →
  loading_accounted (World (enqueue us (ui w)) (requests w ++ option_list req) rds).
Proof.
  unfold loading_accounted, next. simpl. intros Hq Hw [Hr Hreq]%app_eq_nil.
  rewrite flush_enqueue. apply Hq; [by destruct req|by apply Hw].
Qed.

Lemma loading_accounted_event w ev :
  loading_accounted w → loading_accounted (on_event e ev w).
Proof.
  unfold on_event. pose proof (quiet_effect_handle (rendered (ui w)) ev) as H.
  destruct (chat_handle e _ ev) as [[us req] f]. by apply loading_accounted_enqueue.
Qed.

Lemma loading_accounted_read w i rd result :
  loading_accounted w → loading_accounted (on_read e i rd result w).
Proof.
  unfold on_read. pose proof (quiet_effect_onloadend (rd_closure rd) (rd_file rd) result) as H.
  destruct (onloadend e _ _ result) as [us req]. by apply loading_accounted_enqueue.
Qed.

Lemma loading_accounted_step w w' :
  loading_accounted w → session_step e w w' → loading_accounted w'.
Proof.
  intros Hw Hs. destruct Hs as [w ev Hev|w|w i req o Hi|w i rd result Hi].
  - by apply loading_accounted_event.
  - exact Hw.
  - unfold loading_accounted, next. simpl. intros _. rewrite flush_enqueue.
    by destruct (settle_updaters o) as (txt & -> & _).
  - by apply loading_accounted_read.
Qed.

Lemma loading_accounted_reachable w : session_reachable e w → loading_accounted w.
Proof.
  intros Hw. by apply (rtc_preserves _ _ _ _ loading_accounted_step Hw).
Qed.

Lemma completions_reachable w w' :
  session_reachable e w → rtc (completion e) w w' → session_reachable e w'.
Proof.
  unfold session_reachable. intros Hw Hs. etrans; [exact Hw|].
  eapply rtc_subrel; [|exact Hs]. apply completion_step.
Qed.

(** C14: the session comes to rest.  From every world a session reaches, the
    completions can run out, and however they run out, with whatever
    outcomes, the world they end in is idle: nothing pending, the loading
    flag cleared and the controls enabled again. *)
Theorem session_quiesces w :
  session_reachable e w →
  (∃ w', rtc (completion e) w w' ∧ idle w') ∧
  (∀ w', rtc (completion e) w w' → nf (completion e) w' → idle w').
Proof.
  intros Hw.
  assert (∀ w', rtc (completion e) w w' → nf (completion e) w' → idle w') as Hnf.
  { intros w' Hs (Hq & Hr & Hd)%nf_completion. unfold idle. split_and!; [done..|].
    pose proof (loading_accounted_reachable _ (completions_reachable _ _ Hw Hs) Hr) as Hl.
    unfold next, flush in Hl. by rewrite Hq in Hl. }
  split; [|done].
  destruct (sn_wn w (completion_sn e w)) as (w' & Hs & Hn). eauto.
Qed.

End rest.

Lemma session_quiesces_witness :
  let e := Env (Some "key") "fallback" in
  let w := on_event e SendMessage
             (on_render (on_event e (InputChange "Which verbs?") initialWorld)) in
  (∃ w', rtc (completion e) w w' ∧ idle w') ∧
  (∀ w', rtc (completion e) w w' → nf (completion e) w' → idle w').
Proof.
  apply (session_quiesces (Env (Some "key") "fallback")).
  apply (play_reachable _ [Press (InputChange "Which verbs?"); Render; Press SendMessage]).
  reflexivity.
Defined.
