(* ===== verification/Transcript.v ===== *)
(** * The transcript of the assistant over a session

    The handlers of [AIAssistant] write the transcript in two ways
    ([src/src/app.js], lines 326, 361, 367 against lines 376-377, 386-387 and
    416-417): with an updater that appends to the transcript of the moment,
    or with the transcript of the render that created the handler plus one
    entry.  The second way overwrites what was appended since that render
    ([Assistant.stale_reading_drops_entries]).

    This file shows when the transcript is nevertheless append-only: in a
    session that renders after every action and never analyses a file, every
    handler runs against the transcript on the screen, and the transcript of
    an earlier moment is a prefix of the transcript of every later one. *)

From stdpp Require Import base tactics option list strings relations.
From S2P Require Import Prelude JsArray ResumeData React Json Assistant.

(** ** Growth *)

(** The updaters [us], applied to the state [st], only append to its
    transcript. *)
Definition appends (us : list chat_updater) (st : state) : Prop :=
  messages st `prefix_of` messages (apply_all us st).

(** The transcript of [w] is the beginning of the transcript of [w']. *)
Definition grown (w w' : world) : Prop :=
  messages (shown w) `prefix_of` messages (shown w').

(** The updaters [us] leave the transcript as it is. *)
Definition keeps_messages (us : list chat_updater) : Prop :=
  ∀ st, messages (apply_all us st) = messages st.

(** The action is a press of "Analyze Uploaded". *)
Definition is_analysis (a : action) : bool :=
  match a with
  | Press AnalyzeFile => true
  | _ => false
  end.

(** A session without file analysis. *)
Definition no_analysis (acts : list action) : Prop :=
  Forall (λ a, is_analysis a = false) acts.

#[global] Instance no_analysis_dec acts : Decision (no_analysis acts).
Proof. unfold no_analysis. apply _. Defined.

#[global] Instance grown_preorder : PreOrder grown.
Proof.
  split; [intros w; by unfold grown|].
  intros w1 w2 w3. unfold grown. intros H1 H2. by etrans.
Qed.

(** ** The handlers on the state of the screen *)

Section handlers.
Context (e : env).
Implicit Types (st : state) (w : world) (ev : chat_event) (a : action).

#[local] Arguments callGeminiAPI_start : simpl never.

(** What a call of the service enqueues appends at most the error of the key
    check. *)
Lemma appends_start prompt fp m us st :
  keeps_messages us →
  appends (replaceMessages (messages st ++ [m]) :: (callGeminiAPI_start e prompt fp).1 ++ us) st.
Proof.
  intros Hus. unfold appends.
  destruct (start_cases e prompt fp) as [[req ->]| ->]; simpl; rewrite Hus; simpl.
  - by apply prefix_app_r.
  - rewrite <-app_assoc. by apply prefix_app_r.
Qed.

Lemma appends_keeps us st : keeps_messages us → appends us st.
Proof. intros Hus. unfold appends. by rewrite Hus. Qed.

(** The handler of an event, run against the state it closes over, only
    appends. *)
Lemma appends_handle st ev : appends (chat_handle e st ev).1.1 st.
Proof.
  destruct ev as [v| |r|[f|]|]; simpl; try by apply appends_keeps.
  - unfold handleSendMessage. destruct (negb _); [by apply appends_keeps|].
    pose proof (appends_start (questionPrompt +:+ userInput st) None
      (Message user (userInput st)) [setUserInput ""] st) as H.
    destruct (callGeminiAPI_start e _ None) as [vs req]. by apply H.
  - unfold handleGetFeedback.
    pose proof (appends_start (feedbackPrompt +:+ stringify (resume_json r)) None
      (Message user feedbackRequestText) [] st) as H.
    destruct (callGeminiAPI_start e _ None) as [vs req]. simpl in *.
    rewrite app_nil_r in H. by apply H.
  - unfold handleAnalyzeFile. destruct (uploadedFile st); [by apply appends_keeps|].
    by apply prefix_app_r.
Qed.

(** The settling of a request appends, whatever the state. *)
Lemma appends_settle o st : appends (callGeminiAPI_settle o) st.
Proof.
  unfold appends. destruct (settle_updaters o) as (txt & -> & _). by apply prefix_app_r.
Qed.

(** One action followed by its render, in a world that has nothing to render
    and reads no file. *)
Lemma grown_perform w w' a :
  one_request w → a ≠ Press AnalyzeFile → perform_render e a w = Some w' → grown w w'.
Proof.
  intros (Hq & Hd & _) Ha. unfold perform_render, grown, shown.
  destruct w as [[st q] rs rds]. simpl in *. subst.
  destruct a as [ev| |i o|i result]; simpl.
  - case_decide as Hev; [|done]. intros [= <-]. unfold on_event. simpl.
    pose proof (appends_handle st ev) as H.
    destruct (chat_handle e st ev) as [[us req] f]. simpl.
    by rewrite flush_enqueue.
  - by intros [= <-].
  - destruct (rs !! i); [|done]. intros [= <-]. simpl. rewrite flush_enqueue.
    apply appends_settle.
  - done.
Qed.

Lemma is_analysis_false a : is_analysis a = false → a ≠ Press AnalyzeFile.
Proof. by intros H ->. Qed.

Lemma grown_play acts w w' :
  one_request w → no_analysis acts → play_rendered e acts w = Some w' →
  grown w w' ∧ one_request w'.
Proof.
  revert w. induction acts as [|a acts IH]; intros w Hw Hacts; simpl.
  - by intros [= <-].
  - apply Forall_cons in Hacts as [Ha%is_analysis_false Hacts].
    destruct (perform_render e a w) as [w1|] eqn:H1; [|done]. simpl. intros Hp.
    destruct (IH w1) as [Hg Ho]; [by eapply one_request_perform|done..|].
    split; [|done]. etrans; [|exact Hg]. by eapply grown_perform.
Qed.

Lemma play_rendered_app acts1 acts2 w :
  play_rendered e (acts1 ++ acts2) w =
    w1 ← play_rendered e acts1 w; play_rendered e acts2 w1.
Proof.
  revert w. induction acts1 as [|a acts1 IH]; intros w; simpl; [done|].
  destruct (perform_render e a w) as [w1|]; simpl; [apply IH|done].
Qed.

(** The transcript is append-only in a session that renders after every
    action and analyses no file.  The transcript at any moment of such a
    session is the beginning of the transcript at every later moment: no
    entry is dropped or changed, whatever the service answers. *)
Lemma transcript_append_only acts1 acts2 w :
  no_analysis (acts1 ++ acts2) →
  play_rendered e (acts1 ++ acts2) initialWorld = Some w →
  ∃ w1, play_rendered e acts1 initialWorld = Some w1 ∧ grown initialWorld w1 ∧ grown w1 w.
Proof.
  unfold no_analysis. rewrite Forall_app, play_rendered_app. intros [H1 H2] Hp.
  destruct (play_rendered e acts1 initialWorld) as [w1|] eqn:Hw1; [|done]. simpl in Hp.
  exists w1. destruct (grown_play acts1 initialWorld w1) as [Hg Ho]; [done..|].
  split_and!; [done..|]. by destruct (grown_play acts2 w1 w).
Qed.

End handlers.

Lemma transcript_append_only_witness :
  let e := Env (Some "key") "fallback" in
  let acts1 := [Press (InputChange "Which verbs?"); Press SendMessage] in
  let acts2 := [Settle 0 (Success (Some "Strong ones.")); Press (GetFeedback initialResumeData)] in
  ∃ w w1, play_rendered e (acts1 ++ acts2) initialWorld = Some w ∧
    play_rendered e acts1 initialWorld = Some w1 ∧
    grown initialWorld w1 ∧ grown w1 w ∧ length (messages (shown w)) = 4.
Proof.
  eexists.
  destruct (transcript_append_only (Env (Some "key") "fallback")
    [Press (InputChange "Which verbs?"); Press SendMessage]
    [Settle 0 (Success (Some "Strong ones.")); Press (GetFeedback initialResumeData)] _
    ltac:(by apply (bool_decide_unpack _)) eq_refl) as (w1 & H1 & Hg0 & Hg).
  exists w1. split_and!; [reflexivity|exact H1|exact Hg0|exact Hg|reflexivity].
Defined.
