(* ===== verification/SessionSpec.v ===== *)
(** * The assistant session against its specification

    The specification describes the assistant as a state machine with two
    phases, idle and waiting, over a transcript: a question or a request for
    feedback appends the entry of the user and waits, the answer of the
    service appends one entry of the assistant and returns to idle, a failure
    appends an entry that starts with "Error:", and a missing credential is
    reported without waiting.  [assistant_step] is that machine, a reducer over
    the actions of the session.

    The component of [src/src/app.js] (lines 304-425) reaches the same
    states by other means: updaters batched until the next render, handlers
    that close over the state of the render that created them, requests cut
    at their [await].  This file shows that a session that renders after
    every action and analyses no file is a run of the specification, step by
    step, that the actions the specification allows are possible in the
    component, and what the component inherits: every entry of the user is
    answered by exactly one entry of the assistant. *)

From stdpp Require Import base tactics option list strings relations.
From S2P Require Import Prelude JsArray ResumeData React Json Assistant Transcript.

(** ** The specification *)

Inductive phase : Type := Idle | Waiting.

#[global] Instance phase_eq_dec : EqDecision phase.
Proof. solve_decision. Defined.

(** The session of the specification: the phase, the transcript, the text
    being typed and the file selected. *)
Record session : Type := Session {
  phase_of : phase;
  history : list message;
  draft : string;
  selected : option file;
}.

#[global] Instance session_eq_dec : EqDecision session.
Proof. solve_decision. Defined.

Definition initialSession : session := Session Idle (messages initialState) "" None.

(** A completion is requested after the entry [m] of the user.  With a
    credential the session waits; without one the instruction to configure
    it is appended and the session stays idle. *)
Definition ask (credential : bool) (m : message) (s : session) : session :=
  if credential then Session Waiting (history s ++ [m]) (draft s) (selected s)
  else Session Idle (history s ++ [m; Message ai missingKeyMessage]) (draft s) (selected s).

(** The request resolves: one entry of the assistant, and idle again. *)
Definition resolve (text : string) (s : session) : session :=
  Session Idle (history s ++ [Message ai text]) (draft s) (selected s).

(** The file of a dialog, or the file selected before when the dialog was
    closed without one. *)
Definition choose (f : option file) (s : session) : session :=
  Session (phase_of s) (history s) (draft s)
    (match f with Some f => Some f | None => selected s end).

(** The steps of the specification, labelled with the actions of the
    session.  Typing and asking need an idle session; a file can be selected
    at any time; only a waiting session resolves, with the text of the answer
    or with a text that starts with "Error: ". *)
Inductive assistant_step (credential : bool) : session → action → session → Prop :=
| spec_type s value :
    phase_of s = Idle →
    assistant_step credential s (Press (InputChange value))
      (Session Idle (history s) value (selected s))
| spec_choose s f :
    assistant_step credential s (Press (FileChange f)) (choose f s)
| spec_blank s :
    phase_of s = Idle → blank (draft s) = true →
    assistant_step credential s (Press SendMessage) s
| spec_send s :
    phase_of s = Idle → blank (draft s) = false →
    assistant_step credential s (Press SendMessage)
      (ask credential (Message user (draft s)) (Session Idle (history s) "" (selected s)))
| spec_feedback s r :
    phase_of s = Idle →
    assistant_step credential s (Press (GetFeedback r))
      (ask credential (Message user feedbackRequestText) s)
| spec_render s :
    assistant_step credential s Render s
| spec_answer s o text :
    phase_of s = Waiting → answered o = Some text →
    assistant_step credential s (Settle 0 o) (resolve text s)
| spec_error s o text :
    phase_of s = Waiting → answered o = None → starts_with "Error: " text = true →
    assistant_step credential s (Settle 0 o) (resolve text s).

(** A run of the specification over a list of actions. *)
Inductive assistant_run (credential : bool) : session → list action → session → Prop :=
| run_nil s : assistant_run credential s [] s
| run_cons s a s' acts s'' :
    assistant_step credential s a s' → assistant_run credential s' acts s'' →
    assistant_run credential s (a :: acts) s''.

(** ** The component as a session of the specification *)

(** What the screen of a world shows of the session. *)
Definition session_of (w : world) : session :=
  Session (if isLoading (shown w) then Waiting else Idle)
    (messages (shown w)) (userInput (shown w)) (uploadedFile (shown w)).

(** The entries of a role in a transcript. *)
Definition entries (r : role) (l : list message) : nat :=
  length (filter (λ m, msg_role m = r) l).

(** Every entry of the user has its entry of the assistant, after the
    greeting, except the one the session waits for. *)
Definition balanced (s : session) : Prop :=
  entries ai (history s) + (if phase_of s is Waiting then 1 else 0) =
    entries user (history s) + 1.

#[global] Instance balanced_dec s : Decision (balanced s).
Proof. unfold balanced. apply _. Defined.

(** ** Properties of the specification *)

Section specification.
Context (credential : bool).
Implicit Types (s : session) (a : action) (acts : list action).

Lemma entries_app r (l1 l2 : list message) : entries r (l1 ++ l2) = entries r l1 + entries r l2.
Proof. unfold entries. by rewrite filter_app, length_app. Qed.

Lemma balanced_ask m s :
  msg_role m = user → phase_of s = Idle → balanced s → balanced (ask credential m s).
Proof.
  unfold balanced, ask. destruct m as [[] txt]; [|done]. intros _ -> Hs.
  destruct credential; simpl; rewrite !entries_app; simpl in *; unfold entries at 2 4; simpl; lia.
Qed.

Lemma balanced_resolve text s : phase_of s = Waiting → balanced s → balanced (resolve text s).
Proof.
  unfold balanced, resolve. intros -> Hs. simpl. rewrite !entries_app.
  unfold entries at 2 4. simpl. lia.
Qed.

(** The steps of the specification keep the entries balanced. *)
Lemma balanced_step s a s' : assistant_step credential s a s' → balanced s → balanced s'.
Proof.
  destruct 1 as [s v Hp|s f|s Hp Hb|s Hp Hb|s r Hp|s|s o t Hp Ho|s o t Hp Ho Ht];
    intros Hs; try done.
  - unfold balanced in *. simpl. by rewrite Hp in Hs.
  - by apply balanced_ask; [..|unfold balanced in *; simpl; rewrite Hp in Hs].
  - by apply balanced_ask.
  - by apply balanced_resolve.
  - by apply balanced_resolve.
Qed.

(** They only append to the transcript. *)
Lemma transcript_step s a s' :
  assistant_step credential s a s' → history s `prefix_of` history s'.
Proof.
  destruct 1; unfold ask, resolve; simpl; try done;
    try (destruct credential; simpl); by apply prefix_app_r.
Qed.

(** A waiting session only selects files, renders and resolves. *)
Lemma waiting_step s a s' :
  assistant_step credential s a s' → phase_of s = Waiting →
  (∃ f, a = Press (FileChange f)) ∨ a = Render ∨ ∃ o, a = Settle 0 o.
Proof. destruct 1; intros Hp; try congruence; eauto. Qed.

(** A run keeps what its steps keep. *)
Lemma assistant_run_preserves (P : session → Prop) s acts s' :
  (∀ s a s', assistant_step credential s a s' → P s → P s') →
  assistant_run credential s acts s' → P s → P s'.
Proof. intros HP. induction 1; eauto. Qed.

Lemma assistant_run_app s acts1 s1 acts2 s2 :
  assistant_run credential s acts1 s1 → assistant_run credential s1 acts2 s2 →
  assistant_run credential s (acts1 ++ acts2) s2.
Proof. induction 1; simpl; [done|]. intros H2. econstructor; eauto. Qed.

End specification.

(** ** The screen after an action *)

Section screens.
Context (e : env).
Implicit Types (st : state) (w : world) (ev : chat_event) (a : action) (s : session).

#[local] Arguments callGeminiAPI_start : simpl never.

(** In a world with nothing to render, the render after an event shows
    the updaters of its handler applied to the state on the screen. *)
Lemma shown_event w ev :
  queue (ui w) = [] →
  shown (on_render (on_event e ev w)) = apply_all (chat_handle e (shown w) ev).1.1 (shown w).
Proof.
  intros Hq. unfold shown, on_event. destruct w as [[st q] rs rds]. simpl in *. subst.
  destruct (chat_handle e st ev) as [[us req] f]. simpl. by rewrite flush_enqueue.
Qed.

Lemma shown_settle w i o :
  queue (ui w) = [] →
  shown (on_render (on_settle i o w)) = apply_all (callGeminiAPI_settle o) (shown w).
Proof.
  intros Hq. unfold shown, on_settle. destruct w as [[st q] rs rds]. simpl in *. subst.
  by rewrite flush_enqueue.
Qed.

Lemma shown_render w : queue (ui w) = [] → shown (on_render (on_render w)) = shown w.
Proof. intros Hq. unfold shown. destruct w as [[st q] rs rds]. simpl in *. by subst. Qed.

(** The state after the updaters [callGeminiAPI] enqueues before its
    request. *)
Lemma start_state prompt fp st :
  apply_all (callGeminiAPI_start e prompt fp).1 st =
    if bool_decide (usable_key e)
    then State (messages st) (userInput st) (uploadedFile st) true
    else State (messages st ++ [Message ai missingKeyMessage]) (userInput st)
           (uploadedFile st) false.
Proof.
  case_bool_decide as He.
  - by rewrite (callGeminiAPI_start_usable e _ _ He).
  - by rewrite (callGeminiAPI_start_unusable e _ _ He).
Qed.

End screens.

(** ** The simulation *)

Section simulation.
Context (e : env).
Implicit Types (st : state) (w : world) (ev : chat_event) (a : action) (s : session).

#[local] Arguments callGeminiAPI_start : simpl never.

Notation credential := (bool_decide (usable_key e)).

Lemma refines_event w ev :
  one_request w → control_enabled (shown w) ev → ev ≠ AnalyzeFile →
  assistant_step credential (session_of w) (Press ev) (session_of (on_render (on_event e ev w))).
Proof.
  intros (Hq & _ & _) Hev Hne. unfold session_of. rewrite (shown_event e w ev Hq).
  destruct (shown w) as [ms value f l] eqn:Hw.
  destruct ev as [v| |r|c|]; simpl in Hev; [subst l..|clear Hev|done]; cbn [chat_handle fst].
  - by apply (spec_type _ (Session Idle ms value f)).
  - destruct (blank value) eqn:Hb.
    { rewrite handleSendMessage_blank by done. by apply spec_blank. }
    rewrite handleSendMessage_updaters, apply_all_cons, apply_all_app, start_state by done.
    pose proof (spec_send credential (Session Idle ms value f) eq_refl Hb) as H.
    unfold ask in H. destruct credential; simpl in *; [done|]. by rewrite <-app_assoc.
  - rewrite handleGetFeedback_updaters, apply_all_cons, start_state.
    pose proof (spec_feedback credential (Session Idle ms value f) r eq_refl) as H.
    unfold ask in H. destruct credential; simpl in *; [done|]. by rewrite <-app_assoc.
  - pose proof (spec_choose credential (Session (if l then Waiting else Idle) ms value f) c) as H.
    by destruct c.
Qed.

Lemma refines_settle w i o req :
  one_request w → requests w !! i = Some req →
  assistant_step credential (session_of w) (Settle i o) (session_of (on_render (on_settle i o w))).
Proof.
  intros (Hq & _ & Hr) Hi. unfold session_of. rewrite (shown_settle w i o Hq).
  destruct (shown w) as [ms value f l] eqn:Hw. simpl in Hr.
  assert (i = 0 ∧ l = true) as [-> ->].
  { apply lookup_lt_Some in Hi. destruct l; simpl in *; [split; [lia|done]|lia]. }
  destruct (settle_updaters o) as (text & -> & Ht). simpl.
  destruct (answered o) as [t|] eqn:Ho; [subst text|].
  - by apply (spec_answer _ (Session Waiting ms value f)).
  - by apply (spec_error _ (Session Waiting ms value f)).
Qed.

(** One action of the component, followed by its render, is one step of
    the specification. *)
Lemma refines_step w w' a :
  one_request w → is_analysis a = false → perform_render e a w = Some w' →
  assistant_step credential (session_of w) a (session_of w').
Proof.
  intros Hw Ha. unfold perform_render. destruct a as [ev| |i o|i result]; simpl.
  - case_decide as Hev; [|done]. intros [= <-].
    apply refines_event; [done..|]. by intros ->.
  - intros [= <-]. unfold session_of. rewrite shown_render by apply Hw. apply spec_render.
  - destruct (requests w !! i) as [req|] eqn:Hi; [|done]. intros [= <-].
    by eapply refines_settle.
  - destruct Hw as (_ & -> & _). done.
Qed.

(** A session of the component is a run of the specification. *)
Lemma refines_run acts w w' :
  one_request w → no_analysis acts → play_rendered e acts w = Some w' →
  assistant_run credential (session_of w) acts (session_of w').
Proof.
  revert w. induction acts as [|a acts IH]; intros w Hw Hacts; simpl.
  - intros [= <-]. constructor.
  - apply Forall_cons in Hacts as [Ha Hacts].
    destruct (perform_render e a w) as [w1|] eqn:H1; [|done]. simpl. intros Hp.
    econstructor; [by apply refines_step|].
    apply IH; [|done..]. eapply one_request_perform; [done| |done]. by apply is_analysis_false.
Qed.

Lemma one_request_initial : one_request initialWorld.
Proof. done. Qed.

(** What the specification allows from the session on the screen, the
    component can do. *)
Lemma assistant_step_enabled w a s' :
  one_request w → assistant_step credential (session_of w) a s' → is_Some (perform_render e a w).
Proof.
  intros (Hq & Hd & Hr) Hs. unfold perform_render. apply fmap_is_Some.
  assert (∀ ev, (isLoading (shown w) = false ∨ ∃ f, ev = FileChange f) → ev ≠ AnalyzeFile →
    is_Some (perform e (Press ev) w)) as Hev.
  { intros ev Hl Hne. simpl. rewrite decide_True; [done|]. fold (shown w).
    destruct ev, Hl as [Hl|[? ?]]; simpl; done. }
  assert (∀ p, (if isLoading (shown w) then Waiting else Idle) = p →
    isLoading (shown w) = bool_decide (p = Waiting)) as Hp by (intros ? <-; by destruct (isLoading _)).
  remember (session_of w) as s eqn:Es.
  destruct Hs as [s v Hi|s f|s Hi Hb|s Hi Hb|s r Hi|s|s o t Hi Ho|s o t Hi Ho Ht]; subst s;
    try (apply Hp in Hi; simpl in Hi); try (apply Hev; [eauto|done]); [done|..];
    simpl; rewrite Hi in Hr; by destruct (requests w).
Qed.

(** C10: a session of the component is a run of the specification.  When the
    component renders after every action and no file is analysed, the
    sessions the screens show, one after the other, are related by the steps
    of the specification: idle and waiting alternate as it says, and the
    transcript receives the entries it says. *)
Theorem session_refines_spec acts w :
  no_analysis acts → play_rendered e acts initialWorld = Some w →
  assistant_run credential initialSession acts (session_of w).
Proof. intros Hacts Hp. by apply (refines_run acts initialWorld w one_request_initial). Qed.

(** C22: every entry of the user is answered once.  In a session that
    renders after every action and analyses no file, the transcript on the
    screen has one entry of the assistant for the greeting and one for every
    entry of the user, except the entry whose answer the session waits
    for. *)
Theorem answers_balanced acts w :
  no_analysis acts → play_rendered e acts initialWorld = Some w →
  entries ai (messages (shown w)) + (if isLoading (shown w) then 1 else 0) =
    entries user (messages (shown w)) + 1.
Proof.
  intros Hacts Hp. pose proof (refines_run acts initialWorld w one_request_initial Hacts Hp) as Hr.
  apply (assistant_run_preserves _ balanced) in Hr; [|apply balanced_step|done].
  unfold balanced, session_of in Hr. simpl in Hr. by destruct (isLoading (shown w)).
Qed.

(** C23: the component can do what the specification allows, and does what
    it says.  From a world with at most one request and nothing to render,
    an action the specification allows from the session on the screen is
    possible in the component, and the screen after it is again related by
    the step of the specification. *)
Theorem spec_actions_possible w a s' :
  one_request w → assistant_step credential (session_of w) a s' →
  ∃ w', perform_render e a w = Some w' ∧ assistant_step credential (session_of w) a (session_of w') ∧
    one_request w'.
Proof.
  intros Hw Hs. destruct (assistant_step_enabled w a s' Hw Hs) as [w' Hp].
  assert (is_analysis a = false) as Ha by (by inversion Hs).
  exists w'. split_and!; [done|by apply refines_step|].
  eapply one_request_perform; [done| |done]. by apply is_analysis_false.
Qed.

End simulation.

Lemma session_refines_spec_witness :
  let e := Env (Some "key") "fallback" in
  let acts := [Press (InputChange "Which verbs?"); Press SendMessage;
               Settle 0 (Success (Some "Strong ones."));
               Press (GetFeedback initialResumeData); Settle 0 (Failure None)] in
  ∃ w, play_rendered e acts initialWorld = Some w ∧
    assistant_run true initialSession acts (session_of w) ∧
    phase_of (session_of w) = Idle ∧ length (history (session_of w)) = 5.
Proof.
  eexists. split; [reflexivity|].
  split; [|split; reflexivity].
  apply (session_refines_spec (Env (Some "key") "fallback")
    [Press (InputChange "Which verbs?"); Press SendMessage;
     Settle 0 (Success (Some "Strong ones."));
     Press (GetFeedback initialResumeData); Settle 0 (Failure None)]).
  - by apply (bool_decide_unpack _).
  - reflexivity.
Defined.

Lemma answers_balanced_witness :
  let e := Env (Some "YOUR_API_KEY_HERE") "fallback" in
  let acts := [Press (InputChange "Which verbs?"); Press SendMessage;
               Press (GetFeedback initialResumeData)] in
  ∃ w, play_rendered e acts initialWorld = Some w ∧
    entries ai (messages (shown w)) + (if isLoading (shown w) then 1 else 0) =
      entries user (messages (shown w)) + 1 ∧
    entries user (messages (shown w)) = 2 ∧ isLoading (shown w) = false.
Proof.
  eexists. split; [reflexivity|]. split; [|split; reflexivity].
  apply (answers_balanced (Env (Some "YOUR_API_KEY_HERE") "fallback")
    [Press (InputChange "Which verbs?"); Press SendMessage;
     Press (GetFeedback initialResumeData)]).
  - by apply (bool_decide_unpack _).
  - reflexivity.
Defined.

Lemma spec_actions_possible_witness :
  let e := Env (Some "key") "fallback" in
  let a := Press (GetFeedback initialResumeData) in
  ∃ w', perform_render e a initialWorld = Some w' ∧
    assistant_step true (session_of initialWorld) a (session_of w') ∧ one_request w'.
Proof.
  apply (spec_actions_possible (Env (Some "key") "fallback") initialWorld
    (Press (GetFeedback initialResumeData))
    (ask true (Message user feedbackRequestText) initialSession)).
  - done.
  - by apply (spec_feedback true initialSession initialResumeData).
Defined.

(** With a file analysed the component leaves the specification.  A
    question is asked while the file is read; the end of the reading
    replaces the transcript and sends a second request; both requests
    resolve.  The question is gone, one entry of the user has two answers,
    and no run of the specification reaches the session on the screen. *)
Lemma analysis_leaves_spec :
  let e := Env (Some "key") "fallback" in
  let acts := [Press (FileChange (Some (File "cv.pdf" "application/pdf")));
               Press AnalyzeFile; Press (InputChange "Which verbs?"); Press SendMessage;
               Read 0 (Some "data:application/pdf;base64,AAAA");
               Settle 0 (Success (Some "Strong ones.")); Settle 0 (Success (Some "A fine resume."))] in
  ∃ w, play_rendered e acts initialWorld = Some w ∧
    entries user (messages (shown w)) = 1 ∧ entries ai (messages (shown w)) = 3 ∧
    ∀ credential acts', ¬ assistant_run credential initialSession acts' (session_of w).
Proof.
  eexists. split; [reflexivity|]. split; [reflexivity|]. split; [reflexivity|].
  intros credential acts' Hr.
  apply (assistant_run_preserves _ balanced) in Hr; [|apply balanced_step|done].
  by vm_compute in Hr.
Qed.
