(* ===== verification/Scroll.v ===== *)
(** * The scroll effect of the assistant

    [AIAssistant] keeps the transcript in a scrolling container and, in an
    effect that depends on [messages], moves the container to its end
    ([src/src/app.js], lines 311-318 and 439).  The loading indicator is a
    child of the same container and [isLoading] is not among the
    dependencies of the effect.

    The file gives the container with its scroll position, the assignment to
    [scrollTop] as the browser clamps it, the effect, and the session with the
    container: a [scene].  React compares the dependencies of an effect by
    identity, and every [setMessages] of the component stores a new array, so
    the effect is due at a render exactly when a handler has called
    [setMessages] since the render before: [writes] tells which actions do.
    The sizes of the container are those the browser computes for the tree
    rendered, a parameter of the development.

    The theorems show that [writes] tells the actions whose handler enqueues
    an updater made by [setMessages], and that the dependencies are enough:
    in every interleaving, whenever a render changes what the container
    shows, the effect runs, and as long as the user does not scroll the
    container is at its end after every step. *)

From Stdlib Require Import ZArith Lia.
From stdpp Require Import base tactics option list strings.
From S2P Require Import Prelude JsArray ResumeData React Dom Json Assistant AssistantView.

#[local] Open Scope Z_scope.

(** ** The container *)

(** What the effect reads and writes of the element: its scroll position,
    the height of its content and the height of its box. *)
Record scroller : Type := Scroller {
  scrollTop : Z;
  scrollHeight : Z;
  clientHeight : Z;
}.

(** The largest scroll position: the content that does not fit the box. *)
Definition max_scroll (el : scroller) : Z := Z.max 0 (scrollHeight el - clientHeight el).

(** [el.scrollTop = v]: the browser clamps the position to the scrollable
    range. *)
Definition set_scrollTop (v : Z) (el : scroller) : scroller :=
  Scroller (Z.max 0 (Z.min v (max_scroll el))) (scrollHeight el) (clientHeight el).

(** The body of the effect (lines 315-317), on [chatContainerRef.current]. *)
Definition scroll_effect (current : option scroller) : option scroller :=
  match current with
  | Some el => Some (set_scrollTop (scrollHeight el) el)
  | None => None
  end.

(** The element after a render that gave it the sizes [size]: the position
    is kept, within the new range. *)
Definition relayout (size : Z * Z) (el : scroller) : scroller :=
  set_scrollTop (scrollTop el) (Scroller (scrollTop el) size.1 size.2).

(** ** The session with its container *)

(** The handler an action runs calls [setMessages]: a new array is stored,
    and the effect is due at the next render (line 318).  [handleSendMessage]
    does when the text is not blank (lines 374-377), [handleGetFeedback]
    always (line 387), [handleAnalyzeFile] when no file is selected (line
    400), the settling of a request (lines 361 and 367) and the end of a
    reading (lines 417 and 422) always. *)
Definition writes (a : action) (w : world) : bool :=
  match a with
  | Press (InputChange _) | Press (FileChange _) | Render => false
  | Press SendMessage => truthy (trim (userInput (shown w)))
  | Press (GetFeedback _) => true
  | Press AnalyzeFile => bool_decide (uploadedFile (shown w) = None)
  | Settle _ _ | Read _ _ => true
  end.

(** The updater was made by [setMessages]. *)
Definition stores_transcript (u : chat_updater) : Prop := ∃ f, u = setMessages f.

(** The updaters an action enqueues. *)
Definition enqueued (e : env) (a : action) (w : world) : list chat_updater :=
  match a with
  | Press ev => (chat_handle e (shown w) ev).1.1
  | Render => []
  | Settle _ o => callGeminiAPI_settle o
  | Read i result =>
      match readings w !! i with
      | Some rd =>
          let us := (onloadend e (rd_closure rd) (rd_file rd) result).1 in
          match result with Some _ => us | None => onerror ++ us end
      | None => []
      end
  end.

(** The session, the element [chatContainerRef] holds, and whether the
    effect is due. *)
Record scene : Type := Scene {
  sc_world : world;
  sc_container : option scroller;
  sc_due : bool;
}.

(** What happens next: an action of the session, or the user scrolls. *)
Inductive gesture : Type :=
| Act (a : action)
| Wheel (position : Z).

(** The states of the component the container shows the same for. *)
Definition same_content (st st' : state) : Prop :=
  messages st = messages st' ∧ isLoading st = isLoading st'.

Section scenes.
(** The content height and the box height the browser computes for the
    container rendered as [n]. *)
Context (measure : node → Z * Z).
Context (e : env).
Implicit Types (el : scroller) (w : world) (a : action) (g : gesture) (sc : scene).

(** The commit of a render: the container gets the sizes of the new tree, and
    the effect runs if it is due. *)
Definition commit (w' : world) (sc : scene) : scene :=
  let el := relayout (measure (transcript (shown w'))) <$> sc_container sc in
  Scene w' (if sc_due sc then scroll_effect el else el) false.

Definition scene_perform (g : gesture) (sc : scene) : option scene :=
  match g with
  | Act a =>
      w' ← perform e a (sc_world sc);
      Some (match a with
            | Render => commit w' sc
            | _ => Scene w' (sc_container sc) (sc_due sc || writes a (sc_world sc))
            end)
  | Wheel position =>
      Some (Scene (sc_world sc) (set_scrollTop position <$> sc_container sc) (sc_due sc))
  end.

Fixpoint scene_play (gs : list gesture) (sc : scene) : option scene :=
  match gs with
  | [] => Some sc
  | g :: gs => sc' ← scene_perform g sc; scene_play gs sc'
  end.

(** After the mount: the first render is committed and the effect has
    run. *)
Definition initialScene : scene :=
  commit initialWorld (Scene initialWorld (Some (Scroller 0 0 0)) true).

(** The container is at its end, with the sizes of the tree on the
    screen. *)
Definition at_end (sc : scene) : Prop :=
  ∃ el, sc_container sc = Some el ∧
    (scrollHeight el, clientHeight el) = measure (transcript (shown (sc_world sc))) ∧
    scrollTop el = max_scroll el.

(** When no effect is due, the updaters waiting for the next render change
    nothing of what the container shows. *)
Definition due_tracked (sc : scene) : Prop :=
  sc_due sc = false → same_content (next (sc_world sc)) (shown (sc_world sc)).

(** The user does not scroll. *)
Definition no_wheel (gs : list gesture) : Prop :=
  Forall (λ g, if g is Wheel _ then False else True) gs.

(** The container has an element, within its scrollable range. *)
Definition in_range (sc : scene) : Prop :=
  ∃ el, sc_container sc = Some el ∧ 0 ≤ scrollTop el ≤ max_scroll el.

End scenes.

(** A layout for the examples: a hundred pixels for each child of the
    container, in a box of a hundred and fifty. *)
Definition rows (n : node) : Z * Z := (100 * Z.of_nat (length (children n)), 150).

(** ** The element *)

Section element.
Implicit Types (el : scroller) (v : Z).

Lemma max_scroll_nonneg el : 0 ≤ max_scroll el.
Proof. unfold max_scroll. lia. Qed.

Lemma max_scroll_set v el : max_scroll (set_scrollTop v el) = max_scroll el.
Proof. done. Qed.

(** An assignment leaves the position within the range, and where it was
    asked to be when that is within the range. *)
Lemma set_scrollTop_range v el : 0 ≤ scrollTop (set_scrollTop v el) ≤ max_scroll el.
Proof. pose proof (max_scroll_nonneg el). simpl. lia. Qed.

Lemma set_scrollTop_in_range v el :
  0 ≤ scrollTop (set_scrollTop v el) ≤ max_scroll (set_scrollTop v el).
Proof. rewrite max_scroll_set. apply set_scrollTop_range. Qed.

Lemma set_scrollTop_within v el :
  0 ≤ v ≤ max_scroll el → scrollTop (set_scrollTop v el) = v.
Proof. simpl. lia. Qed.

(** The effect moves an element whose box has a height to its end. *)
Lemma scroll_effect_end el :
  0 ≤ clientHeight el →
  ∃ el', scroll_effect (Some el) = Some el' ∧ scrollTop el' = max_scroll el' ∧
    scrollHeight el' = scrollHeight el ∧ clientHeight el' = clientHeight el.
Proof.
  intros Hc. eexists; split; [done|]. unfold max_scroll. simpl. unfold max_scroll. lia.
Qed.

(** A render that gives an element at its end the sizes it has leaves it
    where it is. *)
Lemma relayout_same el :
  scrollTop el = max_scroll el →
  relayout (scrollHeight el, clientHeight el) el = el.
Proof.
  intros Ht. destruct el as [t h c]. unfold relayout, set_scrollTop, max_scroll in *.
  simpl in *. f_equal. lia.
Qed.

End element.

(** ** The effect is due when the content changes *)

Section tracked.
Context (measure : node → Z * Z) (e : env).
Implicit Types (el : scroller) (st : state) (w : world) (a : action) (g : gesture) (sc : scene).

#[local] Arguments callGeminiAPI_start : simpl never.

Lemma same_content_transcript st st' : same_content st st' → transcript st = transcript st'.
Proof. intros [Hm Hl]. unfold transcript. by rewrite Hm, Hl. Qed.

#[local] Instance same_content_equiv : Equivalence same_content.
Proof.
  split; [done|by intros ?? [??]|]. intros ??? [??] [??]. split; congruence.
Qed.

(** The other setters store no transcript. *)
Lemma stores_transcript_setUserInput v : ¬ stores_transcript (setUserInput v).
Proof.
  intros [f H].
  pose proof (f_equal (λ u, userInput (u (State [] "" None false))) H) as H1.
  pose proof (f_equal (λ u, userInput (u (State [] "x" None false))) H) as H2.
  simpl in *. congruence.
Qed.

Lemma stores_transcript_setUploadedFile f : ¬ stores_transcript (setUploadedFile f).
Proof. intros [g H]. by apply (f_equal (λ u, uploadedFile (u initialState))) in H. Qed.

Lemma stores_transcript_setIsLoading b : ¬ stores_transcript (setIsLoading b).
Proof.
  intros [f H]. apply (f_equal (λ u, isLoading (u (State [] "" None (negb b))))) in H.
  by destruct b.
Qed.

Lemma stores_transcript_setMessages f : stores_transcript (setMessages f).
Proof. by exists f. Qed.

(** [enqueued] is what an action adds to the queue of the component. *)
Lemma next_enqueued a w w' :
  perform e a w = Some w' → a ≠ Render → next w' = apply_all (enqueued e a w) (next w).
Proof.
  unfold next. destruct a as [ev| |i o|i result]; simpl; [|done|..].
  - case_decide; [|done]. intros [= <-] _. unfold on_event. fold (shown w).
    destruct (chat_handle e _ ev) as [[us req] f]. apply flush_enqueue.
  - destruct (requests w !! i); [|done]. intros [= <-] _. apply flush_enqueue.
  - destruct (readings w !! i) as [rd|]; [|done]. intros [= <-] _. unfold on_read.
    destruct (onloadend e _ _ result) as [us req]. apply flush_enqueue.
Qed.

(** [writes] tells the actions whose handler calls [setMessages]. *)
Lemma writes_iff a w w' :
  perform e a w = Some w' →
  writes a w = true ↔ Exists stores_transcript (enqueued e a w).
Proof.
  destruct a as [[v| |r|[f|]|]| |i o|i result]; simpl.
  - intros _. split; [done|]. intros [[]%stores_transcript_setUserInput|[]%Exists_nil]%Exists_cons.
  - intros _. unfold handleSendMessage. destruct (truthy (trim _)); simpl.
    + split; [intros _|done]. destruct (callGeminiAPI_start e _ None). simpl.
      apply Exists_cons_hd, stores_transcript_setMessages.
    + split; [done|]. by intros []%Exists_nil.
  - intros _. split; [intros _|done]. unfold handleGetFeedback.
    destruct (callGeminiAPI_start e _ None). simpl.
    apply Exists_cons_hd, stores_transcript_setMessages.
  - intros _. split; [done|].
    intros [[]%stores_transcript_setUploadedFile|[]%Exists_nil]%Exists_cons.
  - intros _. split; [done|]. by intros []%Exists_nil.
  - intros _. unfold handleAnalyzeFile. destruct (uploadedFile (shown w)); simpl.
    + split; [done|]. by intros []%Exists_nil.
    + split; [intros _|done]. apply Exists_cons_hd, stores_transcript_setMessages.
  - intros _. split; [done|]. by intros []%Exists_nil.
  - intros _. split; [intros _|done]. destruct (settle_updaters o) as (txt & -> & _).
    apply Exists_cons_hd, stores_transcript_setMessages.
  - destruct (readings w !! i) as [rd|]; [|done]. intros _. split; [intros _|done].
    destruct result as [dataURL|]; simpl.
    + destruct (callGeminiAPI_start e _ _). simpl.
      apply Exists_cons_hd, stores_transcript_setMessages.
    + apply Exists_cons_hd, stores_transcript_setMessages.
Qed.

(** What is on the screen changes at renders only. *)
Lemma shown_perform a w w' : perform e a w = Some w' → a ≠ Render → shown w' = shown w.
Proof.
  unfold shown. destruct a as [ev| |i o|i result]; simpl; [|done|..].
  - case_decide; [|done]. intros [= <-] _. unfold on_event.
    destruct (chat_handle e _ ev) as [[us req] f]. apply rendered_enqueue.
  - destruct (requests w !! i); [|done]. intros [= <-] _. apply rendered_enqueue.
  - destruct (readings w !! i) as [rd|]; [|done]. intros [= <-] _. unfold on_read.
    destruct (onloadend e _ _ result) as [us req]. apply rendered_enqueue.
Qed.

(** The handlers that do not call [setMessages] do not call [setIsLoading]
    either: their updaters change nothing of what the container shows. *)
Lemma quiet_handle w ev st :
  writes (Press ev) w = false →
  same_content (apply_all (chat_handle e (shown w) ev).1.1 st) st.
Proof.
  destruct ev as [v| |r|[f|]|]; simpl; try done.
  - intros Hb. unfold handleSendMessage. by rewrite Hb.
  - intros Hf%bool_decide_eq_false. unfold handleAnalyzeFile.
    by destruct (uploadedFile (shown w)).
Qed.

Lemma quiet_perform a w w' :
  perform e a w = Some w' → a ≠ Render → writes a w = false →
  same_content (next w') (next w).
Proof.
  destruct a as [ev| |i o|i result]; simpl; [|done..].
  case_decide; [|done]. intros [= <-] _ Hq. unfold next, on_event. fold (shown w).
  pose proof (quiet_handle w ev (flush (ui w)) Hq) as Hk.
  destruct (chat_handle e _ ev) as [[us req] f]. simpl in *. by rewrite flush_enqueue.
Qed.

Lemma next_render w : next (on_render w) = shown (on_render w).
Proof. done. Qed.

Lemma due_tracked_perform g sc sc' :
  scene_perform measure e g sc = Some sc' → due_tracked sc → due_tracked sc'.
Proof.
  destruct g as [a|v]; simpl; [|by intros [= <-]].
  destruct (perform e a (sc_world sc)) as [w'|] eqn:Hp; [|done]. simpl.
  destruct (decide (a = Render)) as [->|Ha].
  { intros [= <-] _ _. injection Hp as <-. done. }
  intros Hs Hd. assert (sc' = Scene w' (sc_container sc) (sc_due sc || writes a (sc_world sc)))
    as -> by (by destruct a; simplify_eq).
  intros [Hdue Hw]%orb_false_elim. simpl in *.
  rewrite (shown_perform a _ _ Hp Ha). etrans; [by apply (quiet_perform a)|by apply Hd].
Qed.

Lemma due_tracked_initial : due_tracked (initialScene measure).
Proof. done. Qed.

Lemma scene_play_preserves (Q : gesture → Prop) (P : scene → Prop) gs sc sc' :
  (∀ g sc sc', Q g → scene_perform measure e g sc = Some sc' → P sc → P sc') →
  Forall Q gs → scene_play measure e gs sc = Some sc' → P sc → P sc'.
Proof.
  intros HP Hgs. revert sc. induction Hgs as [|g gs Hg _ IH]; intros sc; simpl.
  - by intros [= <-].
  - destruct (scene_perform measure e g sc) as [sc1|] eqn:H1; [|done]. simpl. eauto.
Qed.

Lemma due_tracked_play gs sc :
  scene_play measure e gs (initialScene measure) = Some sc → due_tracked sc.
Proof.
  intros Hp. apply (scene_play_preserves (λ _, True) _ gs _ _
    (λ g sc sc' _, due_tracked_perform g sc sc') (Forall_true _ _ (λ _, I)) Hp).
  apply due_tracked_initial.
Qed.

End tracked.

(** ** The container over a session *)

Section pinned.
Context (measure : node → Z * Z) (e : env).
(** The box of the container has a height. *)
Context (measure_box : ∀ n, 0 ≤ (measure n).2).
Implicit Types (el : scroller) (st : state) (w : world) (a : action) (g : gesture) (sc : scene).

(** A commit with the effect due leaves the container at its end. *)
Lemma commit_due w' sc :
  sc_due sc = true → is_Some (sc_container sc) → at_end measure (commit measure w' sc).
Proof.
  intros Hd [el Hel]. unfold commit. rewrite Hd, Hel. simpl.
  eexists; split; [done|]. simpl. split; [by destruct (measure _)|].
  unfold max_scroll. simpl. unfold max_scroll. simpl. specialize (measure_box (transcript (shown w'))). lia.
Qed.

(** A commit of the same content without the effect leaves the container
    where it is. *)
Lemma commit_same w' sc :
  sc_due sc = false → transcript (shown w') = transcript (shown (sc_world sc)) →
  at_end measure sc → at_end measure (commit measure w' sc).
Proof.
  intros Hd Ht (el & Hel & Hs & Hp). unfold commit, at_end. cbn [sc_world sc_container].
  rewrite Hd, Hel, Ht, <-Hs. cbn [fmap option_fmap option_map].
  rewrite relayout_same by done. by exists el.
Qed.

Lemma in_range_perform g sc sc' :
  scene_perform measure e g sc = Some sc' → in_range sc → in_range sc'.
Proof.
  intros Hg (el & Hel & Hr). destruct g as [a|v]; simpl in Hg.
  - destruct (perform e a (sc_world sc)) as [w'|]; [|done]. simpl in Hg.
    destruct (decide (a = Render)) as [->|Ha].
    + injection Hg as <-. unfold commit, in_range. rewrite Hel.
      cbn [fmap option_fmap option_map sc_container scroll_effect].
      destruct (sc_due sc); eexists; (split; [done|]); apply set_scrollTop_in_range.
    + exists el. by destruct a; simplify_eq.
  - injection Hg as <-. unfold in_range. cbn [sc_container]. rewrite Hel.
    eexists; split; [done|]. apply set_scrollTop_in_range.
Qed.

Lemma in_range_play gs sc :
  scene_play measure e gs (initialScene measure) = Some sc → in_range sc.
Proof.
  intros Hp. apply (scene_play_preserves measure e (λ _, True) _ gs _ _
    (λ g sc sc' _, in_range_perform g sc sc') (Forall_true _ _ (λ _, I)) Hp).
  eexists; split; [done|]. apply set_scrollTop_in_range.
Qed.

Lemma in_range_container sc : in_range sc → is_Some (sc_container sc).
Proof. intros (el & -> & _). eauto. Qed.

(** One step without scrolling keeps the container at its end. *)
Lemma at_end_perform g sc sc' :
  (if g is Wheel _ then False else True) →
  scene_perform measure e g sc = Some sc' →
  due_tracked sc ∧ at_end measure sc → due_tracked sc' ∧ at_end measure sc'.
Proof.
  intros Hw Hg [Hd He]. split; [by eapply due_tracked_perform|].
  destruct g as [a|v]; [|done]. simpl in Hg.
  destruct (perform e a (sc_world sc)) as [w'|] eqn:Hp; [|done]. simpl in Hg.
  destruct (decide (a = Render)) as [->|Ha].
  - injection Hg as <-. injection Hp as <-. destruct (sc_due sc) eqn:Hdue.
    + apply commit_due; [done|]. destruct He as (el & -> & _). eauto.
    + apply commit_same; [done| |done]. by apply same_content_transcript, Hd.
  - destruct He as (el & Hel & Hs & Ht). exists el.
    assert (sc_world sc' = w' ∧ sc_container sc' = sc_container sc) as [-> ->]
      by (by destruct a; simplify_eq).
    by rewrite (shown_perform e a _ _ Hp Ha).
Qed.

Lemma at_end_initial : at_end measure (initialScene measure).
Proof. apply commit_due; [done|]. simpl. eauto. Qed.

(** The dependencies of the effect are enough.  In every interleaving of
    the actions of a session and of the scrolling of the user, a render that
    changes what the container shows, its entries or the loading indicator,
    runs the effect: after it the container is at its end. *)
Lemma effect_runs_on_change gs sc sc' :
  scene_play measure e gs (initialScene measure) = Some sc →
  scene_perform measure e (Act Render) sc = Some sc' →
  transcript (shown (sc_world sc')) ≠ transcript (shown (sc_world sc)) →
  at_end measure sc'.
Proof.
  intros Hp [= <-] Ht. destruct (sc_due sc) eqn:Hd.
  - apply commit_due; [done|]. by eapply in_range_container, in_range_play.
  - destruct Ht. apply same_content_transcript. by apply (due_tracked_play measure e gs).
Qed.

(** As long as the user does not scroll, the container is at its end after
    every step of the session, with the sizes of the tree on the screen. *)
Lemma pinned_to_end gs sc :
  no_wheel gs → scene_play measure e gs (initialScene measure) = Some sc →
  at_end measure sc.
Proof.
  intros Hgs Hp.
  apply (scene_play_preserves measure e _ (λ sc, due_tracked sc ∧ at_end measure sc) gs _ _
    at_end_perform Hgs Hp).
  split; [apply due_tracked_initial|apply at_end_initial].
Qed.

(** C30: the container follows the transcript.  In every interleaving of
    the actions of a session and of the scrolling of the user, the scroll
    position stays within the scrollable range; a render that changes what
    the container shows, its entries or the loading indicator, runs the
    effect and leaves the container at its end; and as long as the user does
    not scroll, the container is at its end after every step.  The loading
    flag is not among the dependencies of the effect, but no handler changes
    it without storing a new transcript. *)
Theorem scroll_follows_transcript gs sc :
  scene_play measure e gs (initialScene measure) = Some sc →
  in_range sc ∧
  (no_wheel gs → at_end measure sc) ∧
  (∀ sc', scene_perform measure e (Act Render) sc = Some sc' →
     transcript (shown (sc_world sc')) ≠ transcript (shown (sc_world sc)) →
     at_end measure sc').
Proof.
  intros Hp. split_and!.
  - by eapply in_range_play.
  - intros Hgs. by apply (pinned_to_end gs).
  - intros sc'. by apply (effect_runs_on_change gs).
Qed.

End pinned.

Lemma rows_box n : 0 ≤ (rows n).2.
Proof. simpl. lia. Qed.

Lemma scroll_follows_transcript_witness :
  let e := Env (Some "key") "fallback" in
  let gs := Act <$> [Press (InputChange "Which verbs?"); Render; Press SendMessage] in
  ∃ sc sc', scene_play rows e gs (initialScene rows) = Some sc ∧
    scene_perform rows e (Act Render) sc = Some sc' ∧
    in_range sc ∧ at_end rows sc ∧ (scrollTop <$> sc_container sc) = Some 0 ∧
    at_end rows sc' ∧ (scrollTop <$> sc_container sc') = Some 150.
Proof.
  do 2 eexists. split; [reflexivity|]. split; [reflexivity|].
  edestruct (scroll_follows_transcript rows (Env (Some "key") "fallback") rows_box
    (Act <$> [Press (InputChange "Which verbs?"); Render; Press SendMessage]))
    as (Hr & He & Hc); [reflexivity|].
  split; [exact Hr|]. split; [apply He; repeat constructor|]. split; [reflexivity|].
  split; [|reflexivity]. apply Hc; [reflexivity|].
  intros H. by apply (f_equal (λ n, length (children n))) in H.
Defined.

(** The user scrolls up while the assistant is loading: a render that
    changes nothing of the transcript leaves the container where the user
    put it. *)
Lemma wheel_kept_without_change :
  let e := Env (Some "key") "fallback" in
  let gs := [Act (Press (GetFeedback initialResumeData)); Act Render; Wheel 40;
             Act (Press (FileChange (Some (File "cv.pdf" "application/pdf")))); Act Render] in
  ∃ sc, scene_play rows e gs (initialScene rows) = Some sc ∧
    (scrollTop <$> sc_container sc) = Some 40.
Proof. eexists. split; reflexivity. Qed.
