(* ===== verification/Export.v ===== *)
(** * Export to PDF

    [handleExportPDF] ([src/src/app.js], lines 127-151) in its two parts:
    the call, which looks the preview up in the document and hands it to the
    rasteriser, and the callback of the promise, which builds a one-page
    document, places the picture on it and saves it.

    The rasteriser and the PDF library are collaborators: the canvas is the
    value the promise resolves with, and a document records what the callback
    asks of the library (the options of the constructor, the image added, the
    name saved).  The size of the page is the library's: the definitions take
    it as [paper], and [a4_mm] is the library's A4 sheet in millimetres.

    Numbers are rationals, so the rounding of floating point arithmetic is
    not modelled; a division by zero gives [Infinity] or [NaN] as in the
    language.

    The theorems bound the picture on the page: it starts at the corner,
    spans the width of the page, keeps the proportions of the canvas, and
    runs over the end of the single page exactly when the canvas is
    proportionally taller than the page. *)

From Stdlib Require Import String QArith Lqa.
From stdpp Require Import base tactics option list strings.
From S2P Require Import Prelude JsArray ResumeData React Editor Dom Preview.

#[local] Open Scope Q_scope.

(** ** Numbers *)

(** The numbers the callback computes: a finite number, an infinity or
    [NaN]. *)
Inductive number : Type :=
| Finite (q : Q)
| Infinity (negative : bool)
| NaN.

(** [a / b] on finite numbers. *)
Definition js_div (a b : Q) : number :=
  if Qeq_bool b 0 then
    if Qeq_bool a 0 then NaN else Infinity (if Qle_bool 0 a then false else true)
  else Finite (a / b).

(** Two numbers are the same number: the rationals are compared as
    fractions. *)
#[global] Instance number_equiv : Equiv number := λ m n,
  match m, n with
  | Finite p, Finite q => p == q
  | Infinity s, Infinity t => s = t
  | NaN, NaN => True
  | _, _ => False
  end.

(** ** The collaborators *)

(** The canvas the rasteriser resolves with: its size in pixels, and
    [toDataURL]. *)
Record canvas : Type := Canvas {
  width : N;
  height : N;
  toDataURL : string → string;
}.

(** The options given to [new jsPDF] (lines 140-144). *)
Record options : Type := Options {
  opt_orientation : string;
  opt_unit : string;
  opt_format : string;
}.

(** [pdf.internal.pageSize]. *)
Record pageSize : Type := PageSize {
  getWidth : Q;
  getHeight : Q;
}.

(** An image placed on a page: the arguments of [addImage]. *)
Record image : Type := Image {
  imageData : string;
  imageFormat : string;
  img_x : Q;
  img_y : Q;
  img_w : Q;
  img_h : number;
}.

(** A document of the PDF library: its options, its page size, the number of
    its pages, the images of its page and the names it was saved under. *)
Record jsPDF : Type := JsPDF {
  pdf_options : options;
  internal_pageSize : pageSize;
  pages : nat;
  images : list image;
  saved : list string;
}.

(** The library's A4 sheet in millimetres: 595.28 by 841.89 points, at
    72/25.4 points per millimetre. *)
Definition a4_mm : pageSize :=
  PageSize ((59528 # 100) / ((72 # 1) / (254 # 10)))
           ((84189 # 100) / ((72 # 1) / (254 # 10))).

Section export.
(** The page size the library gives a document with the given options. *)
Context (paper : options → pageSize).

(** [new jsPDF(options)]: a document of one empty page. *)
Definition new_jsPDF (o : options) : jsPDF := JsPDF o (paper o) 1%nat [] [].

(** [pdf.addImage(imageData, format, x, y, w, h)]. *)
Definition addImage (imageData imageFormat : string) (x y w : Q) (h : number)
    (pdf : jsPDF) : jsPDF :=
  JsPDF (pdf_options pdf) (internal_pageSize pdf) (pages pdf)
    (images pdf ++ [Image imageData imageFormat x y w h]) (saved pdf).

(** [pdf.save(name)]. *)
Definition save (name : string) (pdf : jsPDF) : jsPDF :=
  JsPDF (pdf_options pdf) (internal_pageSize pdf) (pages pdf) (images pdf)
    (saved pdf ++ [name]).

(** ** The handler *)

(** What the call of [handleExportPDF] does: it logs an error and returns,
    or it hands the element to the rasteriser with its options. *)
Inductive export_start : Type :=
| NotFound (logged : string)
| Html2canvas (resumeElement : node) (scale : nat) (useCORS : bool).

(** Lines 127-137, for the document the page shows. *)
Definition handleExportPDF (document : node) : export_start :=
  match getElementById "resume-preview" document with
  | None => NotFound "Resume preview element not found!"
  | Some resumeElement => Html2canvas resumeElement 2%nat true
  end.

(** The callback of [then] (lines 138-150).  [resumeData] is the record of
    the render that created the handler. *)
Definition handleExportPDF_then (resumeData : ResumeData) (canvas : canvas) : jsPDF :=
  let imgData := toDataURL canvas "image/png" in
  let pdf := new_jsPDF (Options "portrait" "mm" "a4") in
  let pdfWidth := getWidth (internal_pageSize pdf) in
  let pdfHeight :=
    js_div (inject_Z (Z.of_N (height canvas)) * pdfWidth)
           (inject_Z (Z.of_N (width canvas))) in
  save (exportFileName resumeData) (addImage imgData "PNG" 0 0 pdfWidth pdfHeight pdf).

(** ** Reading a document *)

(** The image [i] lies on a page of size [p]: inside it horizontally, and
    from the top to at most the bottom. *)
Definition fits (p : pageSize) (i : image) : Prop :=
  0 <= img_x i ∧ img_x i + img_w i <= getWidth p ∧ 0 <= img_y i ∧
  match img_h i with
  | Finite q => img_y i + q <= getHeight p
  | _ => False
  end.

(** The canvas is proportionally taller than the page. *)
Definition taller (c : canvas) (p : pageSize) : Prop :=
  getHeight p * inject_Z (Z.of_N (width c)) < inject_Z (Z.of_N (height c)) * getWidth p.

End export.

(** ** Lemmas *)

Section geometry.
Context (paper : options → pageSize).
Implicit Types (c : canvas) (r : ResumeData) (a b : Q).

Lemma js_div_finite a b : ¬ b == 0 → js_div a b = Finite (a / b).
Proof.
  intros Hb. unfold js_div. destruct (Qeq_bool b 0) eqn:E; [|done].
  by apply Qeq_bool_iff in E.
Qed.

Lemma js_div_zero a : js_div a 0 = if Qeq_bool a 0 then NaN else
  Infinity (if Qle_bool 0 a then false else true).
Proof. done. Qed.

Lemma inject_N_pos (n : N) : (0 < n)%N → 0 < inject_Z (Z.of_N n).
Proof. intros Hn. unfold Qlt. simpl. lia. Qed.

Lemma inject_N_nonneg (n : N) : 0 <= inject_Z (Z.of_N n).
Proof. unfold Qle. simpl. lia. Qed.

(** What the callback asks of the library, for a canvas that has a
    width. *)
Lemma handleExportPDF_then_image r c :
  (0 < width c)%N →
  let p := paper (Options "portrait" "mm" "a4") in
  handleExportPDF_then paper r c =
    JsPDF (Options "portrait" "mm" "a4") p 1%nat
      [Image (toDataURL c "image/png") "PNG" 0 0 (getWidth p)
         (Finite (inject_Z (Z.of_N (height c)) * getWidth p / inject_Z (Z.of_N (width c))))]
      [exportFileName r].
Proof.
  intros Hw. unfold handleExportPDF_then, save, addImage, new_jsPDF. simpl.
  rewrite js_div_finite; [done|]. apply inject_N_pos in Hw. lra.
Qed.

(** The quotient keeps the proportions. *)
Lemma scaled_height_proportional a b q : 0 < b → (a * q / b) * b == a * q.
Proof. intros Hb. field. lra. Qed.

Lemma scaled_height_le a b q t : 0 < b → a * q / b <= t ↔ a * q <= t * b.
Proof.
  intros Hb. rewrite <-(scaled_height_proportional a b q Hb) at 2. split; intros H.
  - apply Qmult_le_compat_r; [done|lra].
  - apply Qmult_lt_0_le_reg_r in H; done.
Qed.

#[global] Instance number_equivalence : Equivalence (≡@{number}).
Proof.
  split.
  - by intros [q|s|].
  - intros [p|s|] [q|t|]; unfold equiv, number_equiv; done.
  - intros [p|s|] [q|t|] [u|v|]; unfold equiv, number_equiv; try done; [|congruence].
    intros -> ->. done.
Qed.

(** The quotient does not depend on how the fractions are written. *)
#[global] Instance js_div_proper : Proper (Qeq ==> Qeq ==> (≡)) js_div.
Proof.
  intros a a' Ha b b' Hb. unfold js_div.
  rewrite <-(Qeqb_comp _ _ Hb 0 0 (reflexivity 0)), <-(Qeqb_comp _ _ Ha 0 0 (reflexivity 0)).
  rewrite <-(Qleb_comp 0 0 (reflexivity 0) _ _ Ha).
  destruct (Qeq_bool b 0); [by destruct (Qeq_bool a 0)|].
  unfold equiv, number_equiv. by rewrite Ha, Hb.
Qed.

Lemma taller_iff c (p : pageSize) :
  (0 < width c)%N →
  taller c p ↔
  getHeight p < inject_Z (Z.of_N (height c)) * getWidth p / inject_Z (Z.of_N (width c)).
Proof.
  intros Hw%inject_N_pos. unfold taller.
  pose proof (scaled_height_le (inject_Z (Z.of_N (height c))) _ (getWidth p) (getHeight p) Hw).
  split; intros H'; apply Qnot_le_lt; intros Hle; apply Qlt_not_le in H'; tauto.
Qed.

(** C16: the picture on the page.  For a canvas that has a width, the
    callback saves, under the name of the record of its render, a document of
    one page with one image: the picture of the canvas, placed at the corner
    of the page, as wide as the page, and of the height that keeps the
    proportions of the canvas.  The image lies on the page exactly when the
    canvas is not proportionally taller than the page; what a taller canvas
    shows below the end of the page is on no page. *)
Theorem export_image_bounds r c :
  (0 < width c)%N →
  let p := paper (Options "portrait" "mm" "a4") in
  let pdf := handleExportPDF_then paper r c in
  pages pdf = 1%nat ∧ saved pdf = [exportFileName r] ∧
  ∃ i q, images pdf = [i] ∧ imageData i = toDataURL c "image/png" ∧
    img_x i == 0 ∧ img_y i == 0 ∧ img_w i == getWidth p ∧ img_h i = Finite q ∧
    q * inject_Z (Z.of_N (width c)) == inject_Z (Z.of_N (height c)) * getWidth p ∧
    (fits p i ↔ ¬ taller c p).
Proof.
  intros Hw p pdf. subst pdf. rewrite (handleExportPDF_then_image r c Hw). fold p.
  split_and!; [done..|]. eexists _, _. split_and!; try done.
  - apply scaled_height_proportional. by apply inject_N_pos.
  - rewrite (taller_iff c p Hw). unfold fits. simpl. split.
    + intros (_ & _ & _ & H). apply Qle_not_lt. lra.
    + intros H%Qnot_lt_le. split_and!; lra.
Qed.

(** C33: a canvas without a width.  The quotient of line 147 is then not a
    number the page can hold: the height passed to the library is [NaN] when
    the canvas has no height either or the page no width, and an infinity
    otherwise, and the image does not lie on the page. *)
Theorem export_empty_canvas r c :
  width c = 0%N →
  let p := paper (Options "portrait" "mm" "a4") in
  ∃ i, images (handleExportPDF_then paper r c) = [i] ∧ ¬ fits p i ∧
    img_h i = if Qeq_bool (inject_Z (Z.of_N (height c)) * getWidth p) 0 then NaN
          else Infinity (if Qle_bool 0 (inject_Z (Z.of_N (height c)) * getWidth p)
                         then false else true).
Proof.
  intros Hw p. unfold handleExportPDF_then, save, addImage, new_jsPDF. simpl.
  rewrite Hw. fold p. eexists. split; [done|]. simpl. rewrite js_div_zero. split; [|done].
  unfold fits. simpl. destruct (Qeq_bool _ 0); tauto.
Qed.

End geometry.

(** The library's A4 page is a little wider and a little shorter than an A4
    sheet is in proportion, so a canvas with the proportions of the sheet, or
    taller, does not fit. *)
Lemma a4_sheet_taller c :
  (0 < width c)%N → (297 * width c <= 210 * height c)%N → taller c a4_mm.
Proof.
  intros Hw Hh. unfold taller, a4_mm, Qlt, Qmult, Qdiv, Qinv. simpl. lia.
Qed.

Lemma export_image_bounds_witness :
  let c := Canvas 1588 2246 (λ _, "data:image/png;base64,iVBORw0KGgo=") in
  let r := initialResumeData in
  let pdf := handleExportPDF_then (λ _, a4_mm) r c in
  pages pdf = 1%nat ∧ saved pdf = ["resume.pdf"] ∧
  ∃ i q, images pdf = [i] ∧ imageData i = "data:image/png;base64,iVBORw0KGgo=" ∧
    img_x i == 0 ∧ img_y i == 0 ∧ img_w i == getWidth a4_mm ∧ img_h i = Finite q ∧
    q * inject_Z (Z.of_N 1588) == inject_Z (Z.of_N 2246) * getWidth a4_mm ∧
    (fits a4_mm i ↔ ¬ taller c a4_mm).
Proof.
  apply (export_image_bounds (λ _, a4_mm) initialResumeData
    (Canvas 1588 2246 (λ _, "data:image/png;base64,iVBORw0KGgo="))).
  reflexivity.
Defined.

Lemma export_empty_canvas_witness :
  let c := Canvas 0 2246 (λ _, "data:,") in
  ∃ i, images (handleExportPDF_then (λ _, a4_mm) initialResumeData c) = [i] ∧
    ¬ fits a4_mm i ∧ img_h i = Infinity false.
Proof.
  apply (export_empty_canvas (λ _, a4_mm) initialResumeData (Canvas 0 2246 (λ _, "data:,"))).
  reflexivity.
Defined.
