(* ===== verification/App.v ===== *)
(** * [App]: the components over one record

    [App] ([src/src/app.js], lines 621-650) holds the resume in a state cell
    and renders [Header], [ResumeEditor] with the record and its setter,
    [AIAssistant] with the record, and [ResumePreview] with the record, off
    the screen.  Here the application is the cell of [App] with the session
    of the assistant and the exports under way; a step is an event of the
    form, a step of the session, a render, which applies the pending
    updaters of both, a press of "Export PDF", or the end of a
    rasterisation.  The "Get Feedback" button passes the record of the last
    render of [App], the [resumeData] prop; the export looks the preview up
    in the page and names the file after the record of the render that
    created the handler.

    The theorems are about every state the application reaches: what it
    renders, what the assistant is sent, that the export finds the preview
    and the links of the header their targets, and what is downloaded. *)

From Stdlib Require Import String QArith.
From stdpp Require Import base tactics option list strings relations.
From S2P Require Import Prelude JsArray ResumeData React Editor EditorView.
From S2P Require Import Dom Widgets Preview Json Assistant AssistantView Export.

(** ** The application *)

(** The cell of [App] (line 622), the state of [AIAssistant] with its
    pending work, the records of the exports whose rasterisation is under
    way, and the documents saved. *)
Record app : Type := App {
  resume : cell ResumeData;
  chat : world;
  exports : list ResumeData;
  downloads : list jsPDF;
}.

(** The first render (lines 622-634 and 305-310). *)
Definition initialApp : app := App (mount initialResumeData) initialWorld [] [].

(** What the three components render (lines 641-646): the form, the
    preview, and the record the assistant receives as a prop. *)
Record screen : Type := Screen {
  form : result (list control);
  preview : result node;
  resumeData_prop : ResumeData;
}.

Definition view (s : app) : screen :=
  let resumeData := rendered (resume s) in
  Screen (ResumeEditor resumeData) (ResumePreview resumeData) resumeData.

(** The tree of [App] (lines 636-649) around what its children render. *)
Definition layout (form : list control) (st : state) (preview : node) : node :=
  Elem "div" [ClassName "bg-gray-100 min-h-screen font-sans"] [
    Ui.Header;
    Elem "main" [ClassName "container mx-auto p-4 sm:p-6 lg:p-8"] [
      Elem "div" [ClassName "grid grid-cols-1 lg:grid-cols-2 gap-8 items-stretch"] [
        editor_root form;
        AIAssistant st]];
    Elem "div" [ClassName "absolute -z-10 -left-[3000px] top-0"] [preview]].

(** The document: the children render in the order of the tree, and the
    first exception thrown ends the render. *)
Definition page (s : app) : result node :=
  let resumeData := rendered (resume s) in
  form ← ResumeEditor resumeData;
  preview ← ResumePreview resumeData;
  Ok (layout form (shown (chat s)) preview).

(** The record a control of the assistant reads: "Get Feedback" serialises
    the prop. *)
Definition reads_prop (s : app) (ev : chat_event) : Prop :=
  match ev with
  | GetFeedback resumeData => resumeData = resumeData_prop (view s)
  | _ => True
  end.

#[global] Instance reads_prop_dec s ev : Decision (reads_prop s ev).
Proof. destruct ev; simpl; apply _. Defined.

(** A press of "Export PDF" on the page [doc] (line 157): when the preview
    is found, a rasterisation starts, whose callback holds the record of the
    render. *)
Definition on_export (doc : node) (s : app) : app :=
  match handleExportPDF doc with
  | NotFound _ => s
  | Html2canvas _ _ _ =>
      App (resume s) (chat s) (exports s ++ [rendered (resume s)]) (downloads s)
  end.

(** The steps of the application: a control of the form is used; a control
    of the assistant is used; a request settles; a reading ends; React
    renders, applying the pending updaters of every cell; "Export PDF" is
    pressed; a rasterisation resolves with a canvas, or is rejected, which
    nothing handles. *)
Inductive app_step (e : env) (paper : options → pageSize) : app → app → Prop :=
| app_edit s ev :
    form_event (rendered (resume s)) ev →
    app_step e paper s (App (dispatch ev (resume s)) (chat s) (exports s) (downloads s))
| app_chat s ev :
    control_enabled (shown (chat s)) ev → reads_prop s ev →
    app_step e paper s (App (resume s) (on_event e ev (chat s)) (exports s) (downloads s))
| app_settle s i req o :
    requests (chat s) !! i = Some req →
    app_step e paper s (App (resume s) (on_settle i o (chat s)) (exports s) (downloads s))
| app_read s i rd result :
    readings (chat s) !! i = Some rd →
    app_step e paper s
      (App (resume s) (on_read e i rd result (chat s)) (exports s) (downloads s))
| app_render s :
    app_step e paper s
      (App (render (resume s)) (on_render (chat s)) (exports s) (downloads s))
| app_export s doc :
    page s = Ok doc → app_step e paper s (on_export doc s)
| app_export_then s i r canvas :
    exports s !! i = Some r →
    app_step e paper s
      (App (resume s) (chat s) (delete i (exports s))
         (downloads s ++ [handleExportPDF_then paper r canvas]))
| app_export_rejected s i r :
    exports s !! i = Some r →
    app_step e paper s (App (resume s) (chat s) (delete i (exports s)) (downloads s)).

Definition app_reachable (e : env) (paper : options → pageSize) (s : app) : Prop :=
  rtc (app_step e paper) initialApp s.

(** ** The components of a run *)

Section projections.
Context (e : env) (paper : options → pageSize).
Implicit Types (s : app).

Lemma on_export_cases doc s :
  on_export doc s = s ∨
  on_export doc s = App (resume s) (chat s) (exports s ++ [rendered (resume s)]) (downloads s).
Proof. unfold on_export. destruct (handleExportPDF doc); eauto. Qed.

(** A step of the application is a step of the editor's event loop or
    leaves the record alone, and likewise for the session. *)
Lemma app_step_resume s s' :
  app_step e paper s s' → rtc step (resume s) (resume s').
Proof.
  intros [s0 ev Hev|s0 ev _ _|s0 i req o _|s0 i rd result _|s0|s0 doc _|s0 i r c _|s0 i r _];
    simpl; [|done|done|done|by apply rtc_once, step_render| |done|done].
  - apply rtc_once, step_dispatch. by apply form_event_valid.
  - by destruct (on_export_cases doc s0) as [-> | ->].
Qed.

Lemma app_step_chat s s' :
  app_step e paper s s' → rtc (session_step e) (chat s) (chat s').
Proof.
  intros [s0 ev Hev|s0 ev Hev _|s0 i req o Hi|s0 i rd result Hi|s0|s0 doc _
         |s0 i r c _|s0 i r _]; simpl; [done|..|done|done].
  5: by destruct (on_export_cases doc s0) as [-> | ->].
  all: apply rtc_once; by econstructor.
Qed.

Lemma app_reachable_components s :
  app_reachable e paper s → reachable (resume s) ∧ session_reachable e (chat s).
Proof.
  intros Hs. split.
  - apply (rtc_project _ _ resume app_step_resume _ _ Hs).
  - apply (rtc_project _ _ chat app_step_chat _ _ Hs).
Qed.

(** The page of a record without holes. *)
Lemma page_dense s :
  (∀ t, dense (get_section (rendered (resume s)) t)) →
  ∃ cs, ResumeEditor (rendered (resume s)) = Ok cs ∧
    page s = Ok (layout cs (shown (chat s)) (document (rendered (resume s)))).
Proof.
  intros Hd. unfold page.
  destruct (ResumeEditor_dense _ Hd) as (? & ? & ? & ? & ? & _ & _ & _ & _ & _ & Hcs).
  rewrite Hcs, (ResumePreview_dense _ Hd). eauto.
Qed.

Lemma app_reachable_page s :
  app_reachable e paper s →
  wf (rendered (resume s)) ∧
  ∃ cs, ResumeEditor (rendered (resume s)) = Ok cs ∧
    page s = Ok (layout cs (shown (chat s)) (document (rendered (resume s)))).
Proof.
  intros [Hr _]%app_reachable_components.
  destruct (reachable_inv wf _ Hr) as [Hwf _]. split; [done|].
  apply page_dense. intros t. apply Hwf.
Qed.

(** C13: every screen the application reaches renders.  Under any
    interleaving of the controls of the form and of the assistant, of the
    renders, of the completions of requests and readings and of the exports,
    the record on the screen is well-formed, the form, the preview and the
    page render it without throwing, the preview is the document of that
    record, and the transcript opens with the greeting. *)
Theorem app_renders s :
  app_reachable e paper s →
  let r := resumeData_prop (view s) in
  wf r ∧ is_ok (form (view s)) = true ∧ preview (view s) = Ok (document r) ∧
  is_ok (page s) = true ∧ greeted (shown (chat s)).
Proof.
  intros Hs. destruct (app_reachable_page s Hs) as (Hwf & cs & Hcs & Hp).
  apply app_reachable_components in Hs as [_ Hc]. simpl.
  split_and!; [done|by rewrite Hcs| |by rewrite Hp|apply (world_ok_reachable e _ Hc)].
  apply ResumePreview_dense. intros t. apply Hwf.
Qed.

(** "Get Feedback" sends the record on the screen.  With a usable key,
    pressing the button adds one request, whose only part is the review
    prompt followed by the JSON of the record of the last render: an edit
    that is enqueued and not yet rendered is not part of it. *)
Lemma app_feedback_sends_rendered s r :
  usable_key e → control_enabled (shown (chat s)) (GetFeedback r) →
  reads_prop s (GetFeedback r) →
  ∃ req, requests (on_event e (GetFeedback r) (chat s)) = requests (chat s) ++ [req] ∧
    parts req =
      [PText (feedbackPrompt +:+ stringify (resume_json (rendered (resume s))))] ∧
    app_step e paper s
      (App (resume s) (on_event e (GetFeedback r) (chat s)) (exports s) (downloads s)).
Proof.
  intros He Hev Hp. simpl in Hp. subst r.
  destruct (handleGetFeedback_usable e (rendered (resume s)) (rendered (ui (chat s))) He)
    as (req & Hreq & Hparts).
  exists req. split_and!; [|done|by constructor].
  unfold on_event, chat_handle. by rewrite Hreq.
Qed.

End projections.

Lemma app_renders_witness :
  let s := App (dispatch (AddItem education (blank_item education)) (mount initialResumeData))
             initialWorld [] [] in
  let r := resumeData_prop (view s) in
  wf r ∧ is_ok (form (view s)) = true ∧ preview (view s) = Ok (document r) ∧
  is_ok (page s) = true ∧ greeted (shown (chat s)).
Proof.
  apply (app_renders (Env (Some "key") "fallback") (λ _, a4_mm)).
  apply rtc_once, (app_edit _ _ initialApp (AddItem education (blank_item education))).
  reflexivity.
Defined.

(** ** Looking elements up in the page *)

Section lookup.
Implicit Types (cs : list control) (st : state) (p : node) (id : string).

(** The search of an id in the page: the form first, then the assistant,
    then the preview. *)
Lemma getElementById_layout id cs st p :
  getElementById id (layout cs st p) =
    match getElementById id (editor_root cs) with
    | Some n => Some n
    | None =>
        match getElementById id (AIAssistant st) with
        | Some n => Some n
        | None => getElementById id p
        end
    end.
Proof.
  unfold layout. generalize (editor_root cs) (AIAssistant st). intros ed ai.
  pose proof (proj2 (getElementById_None id Ui.Header)) as Hh.
  rewrite ids_of_Header in Hh. specialize (Hh (not_elem_of_nil _)). revert Hh.
  generalize Ui.Header. intros hd Hh.
  rewrite !getElementById_anonymous by done. simpl find_in. rewrite Hh.
  destruct (getElementById id ed); [done|].
  destruct (getElementById id ai); [done|]. by destruct (getElementById id p).
Qed.

Lemma getElementById_editor cs : getElementById "editor" (editor_root cs) = Some (editor_root cs).
Proof. apply getElementById_own, list_elem_of_here. Qed.

Lemma getElementById_editor_None id r cs :
  ResumeEditor r = Ok cs → id ∉ ("editor" :: field_names) → getElementById id (editor_root cs) = None.
Proof.
  intros Hcs Hid. apply getElementById_None. rewrite ids_of_editor.
  intros [->|Hx]%elem_of_cons; apply Hid; [apply list_elem_of_here|].
  apply list_elem_of_further. by eapply ids_field_names.
Qed.

Lemma getElementById_AIAssistant st :
  getElementById "chatbot" (AIAssistant st) = Some (AIAssistant st).
Proof. apply getElementById_own, list_elem_of_here. Qed.

Lemma getElementById_AIAssistant_None id st :
  id ≠ "chatbot" → getElementById id (AIAssistant st) = None.
Proof.
  intros Hid. apply getElementById_None. rewrite ids_of_AIAssistant.
  by intros ->%list_elem_of_singleton.
Qed.

Lemma getElementById_document r :
  getElementById "resume-preview" (document r) = Some (document r).
Proof. apply getElementById_own, list_elem_of_here. Qed.

End lookup.

(** ** The export and the links, in every state the application reaches *)

Section reachable.
Context (e : env) (paper : options → pageSize).
Implicit Types (s : app) (r : ResumeData) (pdf : jsPDF) (c : canvas).

(** The ids the page is searched for are not names of fields. *)
Lemma page_ids_fresh :
  ("resume-preview" ∉ "editor" :: field_names) ∧ ("chatbot" ∉ "editor" :: field_names).
Proof. split; by apply (bool_decide_unpack _). Qed.

(** The search of line 128 on a page that renders. *)
Lemma handleExportPDF_layout r cs st :
  ResumeEditor r = Ok cs →
  handleExportPDF (layout cs st (document r)) = Html2canvas (document r) 2 true.
Proof.
  intros Hcs. unfold handleExportPDF. rewrite getElementById_layout.
  rewrite (getElementById_editor_None _ _ _ Hcs (proj1 page_ids_fresh)).
  by rewrite getElementById_AIAssistant_None, getElementById_document.
Qed.

Lemma on_export_layout s cs :
  ResumeEditor (rendered (resume s)) = Ok cs →
  on_export (layout cs (shown (chat s)) (document (rendered (resume s)))) s =
    App (resume s) (chat s) (exports s ++ [rendered (resume s)]) (downloads s).
Proof. intros Hcs. unfold on_export. by rewrite (handleExportPDF_layout _ _ _ Hcs). Qed.

(** C17: the lookups of the page succeed.  In every state the application
    reaches, the page renders; the search of line 128 returns the element
    [ResumePreview] renders for the record on the screen, so a press of
    "Export PDF" starts a rasterisation of it and the branch that logs
    "Resume preview element not found!" is never taken; and the two links of
    the header, [#editor] and [#chatbot], find the root of the form and the
    root of the assistant. *)
Theorem page_lookups s :
  app_reachable e paper s →
  ∃ doc cs, page s = Ok doc ∧ form (view s) = Ok cs ∧
    handleExportPDF doc = Html2canvas (document (rendered (resume s))) 2 true ∧
    on_export doc s =
      App (resume s) (chat s) (exports s ++ [rendered (resume s)]) (downloads s) ∧
    fragments_of Ui.Header = ["editor"; "chatbot"] ∧
    getElementById "editor" doc = Some (editor_root cs) ∧
    getElementById "chatbot" doc = Some (AIAssistant (shown (chat s))).
Proof.
  intros (_ & cs & Hcs & Hp)%app_reachable_page. eexists _, cs.
  split_and!; [exact Hp|done|by apply handleExportPDF_layout|by apply on_export_layout
              |done|..]; rewrite getElementById_layout.
  - by rewrite getElementById_editor.
  - rewrite (getElementById_editor_None _ _ _ Hcs (proj2 page_ids_fresh)).
    by rewrite getElementById_AIAssistant.
Qed.

(** What was exported: the records of the exports under way are
    well-formed, and every document saved comes from a well-formed record. *)
Definition exported (s : app) : Prop :=
  cell_inv wf (resume s) ∧ Forall wf (exports s) ∧
  Forall (λ pdf, ∃ r c, wf r ∧ pdf = handleExportPDF_then paper r c) (downloads s).

Lemma exported_step s s' : exported s → app_step e paper s s' → exported s'.
Proof.
  intros (Hc & Hx & Hd) Hs. split.
  { apply (cell_inv_steps wf _ _ Hc), (app_step_resume e paper _ _ Hs). }
  destruct Hs as [s ev Hev|s ev _ _|s i req o _|s i rd result _|s|s doc _|s i r c Hi|s i r Hi];
    simpl; try done.
  - destruct (on_export_cases doc s) as [-> | ->]; [done|]. simpl. split; [|done].
    apply Forall_app. split; [done|]. apply Forall_singleton, Hc.
  - split; [by apply Forall_delete|]. apply Forall_app. split; [done|].
    apply Forall_singleton. exists r, c. split; [|done]. by eapply Forall_lookup_1.
  - split; [by apply Forall_delete|done].
Qed.

Lemma exported_reachable s : app_reachable e paper s → exported s.
Proof.
  intros Hs. apply (rtc_preserves _ _ _ _ exported_step Hs).
  split_and!; [|done..]. apply cell_inv_mount, wf_initial.
Qed.

(** What the application saves: every document saved in a state the
    application reaches has one page, holds one image and is named after the
    full name of a well-formed record, the one on the screen when "Export
    PDF" was pressed. *)
Lemma downloads_named s pdf :
  app_reachable e paper s → pdf ∈ downloads s →
  ∃ r, wf r ∧ saved pdf = [exportFileName r] ∧ pages pdf = 1 ∧ length (images pdf) = 1.
Proof.
  intros (_ & _ & Hd)%exported_reachable Hpdf.
  destruct (proj1 (Forall_forall _ _) Hd pdf Hpdf) as (r & c & Hr & ->). by exists r.
Qed.


End reachable.

Lemma downloads_named_witness :
  let paper := λ _ : options, a4_mm in
  let c := Canvas 1588 2246 (λ _, "data:image/png;base64,iVBORw0KGgo=") in
  let pdf := handleExportPDF_then paper initialResumeData c in
  ∃ r, wf r ∧ saved pdf = [exportFileName r] ∧ pages pdf = 1 ∧ length (images pdf) = 1.
Proof.
  apply (downloads_named (Env None "fallback") (λ _, a4_mm)
    (App (mount initialResumeData) initialWorld []
       [handleExportPDF_then (λ _, a4_mm) initialResumeData
          (Canvas 1588 2246 (λ _, "data:image/png;base64,iVBORw0KGgo="))])).
  - eapply rtc_l; [by apply (app_export _ _ initialApp _ eq_refl)|].
    apply rtc_once.
    by apply (app_export_then _ _ (App (mount initialResumeData) initialWorld
                [initialResumeData] []) 0 initialResumeData).
  - apply list_elem_of_here.
Defined.

Lemma page_lookups_witness :
  ∃ doc cs, page initialApp = Ok doc ∧ form (view initialApp) = Ok cs ∧
    handleExportPDF doc = Html2canvas (document initialResumeData) 2 true ∧
    on_export doc initialApp =
      App (mount initialResumeData) initialWorld [initialResumeData] [] ∧
    fragments_of Ui.Header = ["editor"; "chatbot"] ∧
    getElementById "editor" doc = Some (editor_root cs) ∧
    getElementById "chatbot" doc = Some (AIAssistant (shown (chat initialApp))).
Proof. apply (page_lookups (Env None "fallback") (λ _, a4_mm) initialApp). apply rtc_refl. Defined.

